(** * StockSage, static/js/main.js: search widgets and chart builders

  A shallow embedding of the page script.  The script is event driven:
  every handler it registers becomes a function on an explicit page
  state, and the browser's event loop becomes [step], which dispatches
  one event to the handlers in the order the script registered them.

  Conventions of the embedding.
  - Strings are sequences of ASCII characters; [Str.trim] and
    [Str.toUpperCase] are the JavaScript methods on that alphabet.
  - The page is the one the script is written for: the eight elements it
    looks up by id exist.  Whether the Feather icon library is loaded is
    part of the page state.
  - The markup the script builds from the values of a lookup's answer is
    kept as text and read by the part of the HTML parsing algorithm that
    [Html] embeds; the three fixed message rows are kept as the elements
    they are.
  - The elements of an answer's array are objects, and their members are
    the texts the templates interpolate (a missing member is the text
    [undefined]).
  - JavaScript [undefined] is [None]. *)

From Stdlib Require Import ZArith Lia Ascii String List Permutation.
From stdpp Require Import gmap strings list.

(** ** String methods used by the script *)

Module Str.

(** White space removed by [String.prototype.trim] (ASCII part). *)
Definition isWhiteSpace (c : ascii) : bool :=
  let n := nat_of_ascii c in
  ((9 <=? n) && (n <=? 13)) || (n =? 32).

Fixpoint trimStart (s : string) : string :=
  match s with
  | EmptyString => EmptyString
  | String c r => if isWhiteSpace c then trimStart r else s
  end.

Fixpoint trimEnd (s : string) : string :=
  match s with
  | EmptyString => EmptyString
  | String c r =>
      match trimEnd r with
      | EmptyString =>
          if isWhiteSpace c then EmptyString else String c EmptyString
      | t => String c t
      end
  end.

Definition trim (s : string) : string := trimEnd (trimStart s).

Definition upperChar (c : ascii) : ascii :=
  let n := nat_of_ascii c in
  if (97 <=? n) && (n <=? 122) then ascii_of_nat (n - 32) else c.

Fixpoint toUpperCase (s : string) : string :=
  match s with
  | EmptyString => EmptyString
  | String c r => String (upperChar c) (toUpperCase r)
  end.

(** [s.endsWith(suffix)] *)
Fixpoint endsWith (s suffix : string) : bool :=
  String.eqb s suffix ||
  match s with
  | EmptyString => false
  | String _ r => endsWith r suffix
  end.

(** A value interpolated into a string or assigned to [input.value]:
    [undefined] becomes the text "undefined". *)
Definition toString (v : option string) : string :=
  match v with
  | Some s => s
  | None => "undefined"
  end.

(** Truthiness of a string-or-undefined value. *)
Definition truthy (v : option string) : bool :=
  match v with
  | Some s => negb (String.eqb s "")
  | None => false
  end.

End Str.

(** ** The dropdown elements *)

Module Dom.

(** One suggestion of the search endpoint's JSON array. *)
Record Suggestion := {
  symbol : string;
  name : string;
  nse_symbol : string;
  bse_symbol : string
}.

(** The four kinds of [.dropdown-item] the script writes: a result row
    with the values of its three data attributes and the text of its name
    line, and the three message rows.  [Unresolved] stands for children
    that are not rows as the templates write them: the embedding does not
    say what elements the browser has made, and it treats them as one
    element without data attributes and without a handler. *)
Inductive Markup :=
| ResultRow (data_symbol data_nse data_bse name_text : string)
| LoadingRow
| ErrorRow
| NoStocksRow
| Unresolved.

(** A child element of a dropdown: its markup and whether its class
    list holds [active]. *)
Record Item := { markup : Markup; active : bool }.

(** A dropdown container: its children and [style.display] ([true] for
    [block], [false] for [none]). *)
Record Dropdown := { children : list Item; display : bool }.

Definition fresh (m : Markup) : Item := {| markup := m; active := false |}.

(** [element.dataset.symbol], [.nse], [.bse] *)
Definition dataset_symbol (it : Item) : option string :=
  match markup it with ResultRow s _ _ _ => Some s | _ => None end.
Definition dataset_nse (it : Item) : option string :=
  match markup it with ResultRow _ n _ _ => Some n | _ => None end.
Definition dataset_bse (it : Item) : option string :=
  match markup it with ResultRow _ _ b _ => Some b | _ => None end.

(** Only result rows carry an [onclick] attribute. *)
Definition has_onclick (it : Item) : bool :=
  match markup it with ResultRow _ _ _ _ => true | _ => false end.

(** [classList.add('active')] and [classList.remove('active')] *)
Definition classList_add (it : Item) : Item :=
  {| markup := markup it; active := true |}.
Definition classList_remove (it : Item) : Item :=
  {| markup := markup it; active := false |}.

(** [dropdown.querySelector('.dropdown-item.active')]: the position of
    the first active child. *)
Fixpoint querySelector_active (l : list Item) : option nat :=
  match l with
  | [] => None
  | it :: r =>
      if active it then Some 0
      else match querySelector_active r with
           | Some i => Some (S i)
           | None => None
           end
  end.

(** [nextElementSibling] and [previousElementSibling] of child [i]. *)
Definition nextElementSibling (l : list Item) (i : nat) : option nat :=
  match l !! (S i) with Some _ => Some (S i) | None => None end.
Definition previousElementSibling (i : nat) : option nat :=
  match i with 0 => None | S j => Some j end.

Definition set_children (l : list Item) (d : Dropdown) : Dropdown :=
  {| children := l; display := display d |}.
Definition set_display (b : bool) (d : Dropdown) : Dropdown :=
  {| children := children d; display := b |}.

(** [dropdown.innerHTML = ...]: the children are replaced by new
    elements, none of them active. *)
Definition set_innerHTML (ms : list Markup) (d : Dropdown) : Dropdown :=
  set_children (map fresh ms) d.

End Dom.

(** ** The markup the script writes, and how the browser reads it *)

Module Html.
Import Dom.

(** The double quote. *)
Definition q : string := String "034"%char EmptyString.

(** The template literal of lines 140 to 159, and of lines 462 to 481 with
    the other handler in [onclick]; the values are interpolated as they
    are. *)
Definition result_row (onclick : string) (stock : Suggestion) : string :=
  "
            <div class=" +:+ q +:+ "dropdown-item search-result" +:+ q +:+ " 
                 data-symbol=" +:+ q +:+ symbol stock +:+ q +:+ " 
                 data-nse=" +:+ q +:+ nse_symbol stock +:+ q +:+ " 
                 data-bse=" +:+ q +:+ bse_symbol stock +:+ q +:+ "
                 onclick=" +:+ q +:+ onclick +:+ q +:+ ">
                <div class=" +:+ q +:+ "d-flex justify-content-between align-items-start" +:+ q +:+ ">
                    <div class=" +:+ q +:+ "flex-grow-1" +:+ q +:+ ">
                        <div class=" +:+ q +:+ "search-result-symbol" +:+ q +:+ ">" +:+ symbol stock +:+ "</div>
                        <div class=" +:+ q +:+ "search-result-name small" +:+ q +:+ ">" +:+ name stock +:+ "</div>
                    </div>
                    <div class=" +:+ q +:+ "text-end" +:+ q +:+ ">
                        <div class=" +:+ q +:+ "search-result-exchange small" +:+ q +:+ ">
                            <span class=" +:+ q +:+ "badge bg-primary me-1" +:+ q +:+ ">NSE</span>
                            <span class=" +:+ q +:+ "badge bg-secondary" +:+ q +:+ ">BSE</span>
                        </div>
                    </div>
                </div>
            </div>
        ".

(** [html] after the [forEach] of [displaySearchResults]. *)
Definition results_html (onclick : string) (suggestions : list Suggestion)
    : string :=
  fold_left (fun html stock => html +:+ result_row onclick stock)
    suggestions EmptyString.

(** *** The part of the HTML parsing algorithm the templates need

    Assigning to [innerHTML] runs the HTML fragment parser.  The embedding
    has the tokenizer states of start tags with double-quoted attribute
    values and of end tags, and the tree construction of properly nested
    [div], [span] and [i] elements.  Whatever else the algorithm provides
    for (character references, comments, other elements, unquoted values,
    misnested tags, NUL and carriage return) makes [parse] answer [None]:
    the embedding does not say what the browser builds then. *)

#[warnings="-register-all"]
Inductive Node :=
| Text (data : string)
| Element (tag : string) (attributes : list (string * string))
    (content : list Node).

(** An element that is still open, with the children it has so far. *)
Record Open := {
  open_tag : string;
  open_attributes : list (string * string);
  open_content : list Node
}.

(** The tokenizer states, with the tag being read. *)
Inductive Tokenizer :=
| Data
| TagOpen
| TagName (tag : string)
| BeforeAttributeName (tag : string) (attrs : list (string * string))
| AttributeName (tag : string) (attrs : list (string * string)) (an : string)
| AfterAttributeName (tag : string) (attrs : list (string * string))
    (an : string)
| BeforeAttributeValue (tag : string) (attrs : list (string * string))
    (an : string)
| AttributeValue (tag : string) (attrs : list (string * string))
    (an av : string)
| AfterAttributeValue (tag : string) (attrs : list (string * string))
| EndTagOpen
| EndTagName (tag : string).

(** The parser: the tokenizer, the character data not yet inserted, the
    stack of open elements (innermost first) and the children of the
    fragment. *)
Record Parser := {
  tokenizer : Tokenizer;
  pending : string;
  stack : list Open;
  fragment : list Node
}.

Definition start : Parser :=
  {| tokenizer := Data; pending := EmptyString; stack := []; fragment := [] |}.

Definition code (c : ascii) : nat := nat_of_ascii c.

(** Tab, line feed, form feed and space. *)
Definition is_space (c : ascii) : bool :=
  (code c =? 9) || (code c =? 10) || (code c =? 12) || (code c =? 32).

Definition is_alpha (c : ascii) : bool :=
  ((65 <=? code c) && (code c <=? 90)) || ((97 <=? code c) && (code c <=? 122)).

Definition lower (c : ascii) : ascii :=
  if (65 <=? code c) && (code c <=? 90) then ascii_of_nat (code c + 32) else c.

(** NUL and carriage return, which the input stream replaces. *)
Definition replaced (c : ascii) : bool := (code c =? 0) || (code c =? 13).

Definition holds (c : ascii) (text : string) : bool :=
  String.eqb (String c EmptyString) text.

Fixpoint snoc (s : string) (c : ascii) : string :=
  match s with
  | EmptyString => String c EmptyString
  | String a r => String a (snoc r c)
  end.

(** Character data grows by one character. *)
Definition extend (data : string) (c : ascii) : string := snoc data c.

(** A run of characters becomes one text node, an empty run none. *)
Definition text_node (data : string) : list Node :=
  match data with
  | EmptyString => []
  | _ => [Text data]
  end.

Definition add_nodes (content ns : list Node) : list Node := content ++ ns.

(** Nodes are inserted at the end of the current node. *)
Definition insert (ns : list Node) (p : Parser) : Parser :=
  match stack p with
  | current :: below =>
      {| tokenizer := tokenizer p; pending := pending p;
         stack := {| open_tag := open_tag current;
                     open_attributes := open_attributes current;
                     open_content := add_nodes (open_content current) ns |} :: below;
         fragment := fragment p |}
  | [] =>
      {| tokenizer := tokenizer p; pending := pending p; stack := [];
         fragment := add_nodes (fragment p) ns |}
  end.

Definition flush (p : Parser) : Parser :=
  let p' := insert (text_node (pending p)) p in
  {| tokenizer := tokenizer p'; pending := EmptyString; stack := stack p';
     fragment := fragment p' |}.

Definition goto (t : Tokenizer) (p : Parser) : option Parser :=
  Some {| tokenizer := t; pending := pending p; stack := stack p;
          fragment := fragment p |}.

(** The elements whose start tag only inserts an element. *)
Definition ordinary (tag : string) : bool :=
  String.eqb tag "div" || String.eqb tag "span" || String.eqb tag "i".

(** An attribute whose name the tag already has is dropped. *)
Definition add_attribute (attrs : list (string * string)) (an av : string)
    : list (string * string) :=
  if existsb (fun a => String.eqb (fst a) an) attrs then attrs
  else attrs ++ [(an, av)].

Definition start_tag (tag : string) (attrs : list (string * string))
    (p : Parser) : option Parser :=
  if ordinary tag
  then let p := flush p in
       Some {| tokenizer := Data; pending := EmptyString;
               stack := {| open_tag := tag; open_attributes := attrs;
                           open_content := [] |} :: stack p;
               fragment := fragment p |}
  else None.

(** An end tag is taken when it closes the current node. *)
Definition end_tag (tag : string) (p : Parser) : option Parser :=
  let p := flush p in
  match stack p with
  | current :: below =>
      if String.eqb (open_tag current) tag
      then Some (insert [Element (open_tag current) (open_attributes current)
                           (open_content current)]
                   {| tokenizer := Data; pending := EmptyString;
                      stack := below; fragment := fragment p |})
      else None
  | [] => None
  end.

Definition attribute_name_state (tag : string) (attrs : list (string * string))
    (an : string) (c : ascii) (p : Parser) : option Parser :=
  if is_space c then goto (AfterAttributeName tag attrs an) p
  else if holds c "/" then None
  else if holds c ">" then start_tag tag (add_attribute attrs an EmptyString) p
  else if holds c "=" then goto (BeforeAttributeValue tag attrs an) p
  else goto (AttributeName tag attrs (snoc an (lower c))) p.

Definition before_attribute_name_state (tag : string)
    (attrs : list (string * string)) (c : ascii) (p : Parser) : option Parser :=
  if is_space c then goto (BeforeAttributeName tag attrs) p
  else if holds c "/" then None
  else if holds c ">" then start_tag tag attrs p
  else if holds c "=" then None
  else attribute_name_state tag attrs EmptyString c p.

(** One character of the input. *)
Definition consume (p : Parser) (c : ascii) : option Parser :=
  if replaced c then None
  else
    match tokenizer p with
    | Data =>
        if holds c "<" then goto TagOpen p
        else if holds c "&" then None
        else Some {| tokenizer := Data; pending := extend (pending p) c;
                     stack := stack p; fragment := fragment p |}
    | TagOpen =>
        if holds c "/" then goto EndTagOpen p
        else if is_alpha c then goto (TagName (String (lower c) EmptyString)) p
        else None
    | TagName tag =>
        if is_space c then goto (BeforeAttributeName tag []) p
        else if holds c "/" then None
        else if holds c ">" then start_tag tag [] p
        else goto (TagName (snoc tag (lower c))) p
    | BeforeAttributeName tag attrs =>
        before_attribute_name_state tag attrs c p
    | AttributeName tag attrs an => attribute_name_state tag attrs an c p
    | AfterAttributeName tag attrs an =>
        if is_space c then goto (AfterAttributeName tag attrs an) p
        else if holds c "/" then None
        else if holds c "=" then goto (BeforeAttributeValue tag attrs an) p
        else if holds c ">"
        then start_tag tag (add_attribute attrs an EmptyString) p
        else attribute_name_state tag (add_attribute attrs an EmptyString)
               EmptyString c p
    | BeforeAttributeValue tag attrs an =>
        if is_space c then goto (BeforeAttributeValue tag attrs an) p
        else if holds c q then goto (AttributeValue tag attrs an EmptyString) p
        else None
    | AttributeValue tag attrs an av =>
        if holds c q
        then goto (AfterAttributeValue tag (add_attribute attrs an av)) p
        else if holds c "&" then None
        else goto (AttributeValue tag attrs an (snoc av c)) p
    | AfterAttributeValue tag attrs =>
        before_attribute_name_state tag attrs c p
    | EndTagOpen =>
        if is_alpha c then goto (EndTagName (String (lower c) EmptyString)) p
        else None
    | EndTagName tag =>
        if holds c ">" then end_tag tag p
        else if is_space c || holds c "/" then None
        else goto (EndTagName (snoc tag (lower c))) p
    end.

Fixpoint feed (p : Parser) (input : string) : option Parser :=
  match input with
  | EmptyString => Some p
  | String c rest =>
      match consume p c with
      | Some p => feed p rest
      | None => None
      end
  end.

(** The children of the fragment, when the input ends in character data
    with every element closed. *)
Definition parse (html : string) : option (list Node) :=
  match feed start html with
  | Some p =>
      match tokenizer p, stack p with
      | Data, [] => Some (fragment (flush p))
      | _, _ => None
      end
  | None => None
  end.

(** *** From the parsed children to the rows of a dropdown *)

Definition word_list (word : string) : list string :=
  match word with
  | EmptyString => []
  | _ => [word]
  end.

(** The tokens of a class attribute. *)
Fixpoint words_from (word s : string) : list string :=
  match s with
  | EmptyString => word_list word
  | String c r =>
      if is_space c then word_list word ++ words_from EmptyString r
      else words_from (snoc word c) r
  end.

Definition attribute (k : string) (attrs : list (string * string))
    : option string :=
  match List.find (fun a => String.eqb (fst a) k) attrs with
  | Some a => Some (snd a)
  | None => None
  end.

Definition classes (attrs : list (string * string)) : list string :=
  match attribute "class" attrs with
  | Some v => words_from EmptyString v
  | None => []
  end.

Fixpoint lowercase (s : string) : string :=
  match s with
  | EmptyString => EmptyString
  | String c r => String (lower c) (lowercase r)
  end.

(** What is inside a row, as the template writes it: elements that carry
    nothing but a class, none of them a [.dropdown-item]. *)
Fixpoint inner (n : Node) : bool :=
  match n with
  | Text _ => true
  | Element _ attrs content =>
      forallb (fun a => String.eqb (fst a) "class") attrs
      && negb (existsb (fun w => String.eqb (lowercase w) "dropdown-item")
                 (classes attrs))
      && forallb inner content
  end.

Fixpoint textContent (n : Node) : string :=
  match n with
  | Text data => data
  | Element _ _ content =>
      fold_left (fun text child => text +:+ textContent child) content
        EmptyString
  end.

(** The text of the first element of class [c] among the nodes and their
    descendants. *)
Fixpoint text_of_class (c : string) (n : Node) : option string :=
  match n with
  | Text _ => None
  | Element _ attrs content =>
      if existsb (String.eqb c) (classes attrs) then Some (textContent n)
      else fold_right (fun child found =>
                         match text_of_class c child with
                         | Some t => Some t
                         | None => found
                         end) None content
  end.

(** An attribute whose name holds a double quote names nothing. *)
Definition inert (a : string * string) : bool :=
  existsb (fun c => holds c q) (list_ascii_of_string (fst a)).

Definition named (a : string * string) (k : string) : bool :=
  String.eqb (fst a) k.

(** A top-level element is a result row when it is a [div] with the five
    attributes of the template, in their order, the class and the handler
    being the template's. *)
Definition row_of (onclick : string) (n : Node) : option Markup :=
  match n with
  | Element tag attrs content =>
      match List.filter (fun a => negb (inert a)) attrs with
      | [a1; a2; a3; a4; a5] =>
          if String.eqb tag "div"
             && named a1 "class"
             && String.eqb (snd a1) "dropdown-item search-result"
             && named a2 "data-symbol" && named a3 "data-nse"
             && named a4 "data-bse"
             && named a5 "onclick" && String.eqb (snd a5) onclick
             && forallb inner content
          then Some (ResultRow (snd a2) (snd a3) (snd a4)
                       (match text_of_class "search-result-name" n with
                        | Some t => t
                        | None => EmptyString
                        end))
          else None
      | _ => None
      end
  | Text _ => None
  end.

(** The element children, each of them a result row. *)
Fixpoint collect (onclick : string) (ns : list Node) : option (list Markup) :=
  match ns with
  | [] => Some []
  | Text _ :: r => collect onclick r
  | n :: r =>
      match row_of onclick n, collect onclick r with
      | Some m, Some ms => Some (m :: ms)
      | _, _ => None
      end
  end.

(** The rows a dropdown has after [dropdown.innerHTML = html], where the
    embedding can tell. *)
Definition rows (onclick html : string) : option (list Markup) :=
  match parse html with
  | Some ns => collect onclick ns
  | None => None
  end.

(** The children written into a dropdown by [dropdown.innerHTML = html]. *)
Definition innerHTML (onclick html : string) : list Markup :=
  match rows onclick html with
  | Some ms => ms
  | None => [Unresolved]
  end.

(** The row the template is written to give for a suggestion. *)
Definition row_markup (stock : Suggestion) : Markup :=
  ResultRow (symbol stock) (nse_symbol stock) (bse_symbol stock) (name stock).

(** A value that holds none of the characters that are markup inside an
    attribute value or inside text: the double quote, [<], [&], and the
    two characters the input stream replaces. *)
Definition plain (s : string) : bool :=
  forallb (fun c => negb (replaced c || holds c q || holds c "<" || holds c "&"))
    (list_ascii_of_string s).

Definition well_formed (stock : Suggestion) : bool :=
  plain (symbol stock) && plain (name stock)
  && plain (nse_symbol stock) && plain (bse_symbol stock).

End Html.

(** ** The page state and the script's handlers *)

Module Page.
Import Dom Html.

(** The two search widgets: [#stockSearch] with [#searchDropdown], and
    [#watchlistSymbol] with [#watchlistSearchDropdown]. *)
Inductive Which := Primary | Watchlist.

(** The two arrow functions handed to [setTimeout]. *)
Inductive Callback :=
| CallSearchStocks (query : string)
| CallSearchStocksForWatchlist (query : string).

(** A pending timer of the browser. *)
Record Timer := { tid : nat; deadline : nat; callback : Callback }.

(** A lookup suspended at [await fetch(...)]. *)
Record Request := { rid : nat; owner : Which; sent : string }.

(** What leaves the page.  [Fetch w q] is the request
    GET /api/search_stocks?q=encodeURIComponent(q) sent by widget [w];
    [Unhandled error] is the rejection of a promise nobody handles, which
    the browser reports on the page. *)
Inductive Effect :=
| Fetch (w : Which) (query : string)
| Navigate (href : string)
| Alert (message type : string)
| ConsoleError (message : string)
| Unhandled (error : string).

(** The value [response.json()] resolves to: [JsonNull] is [null] or
    another falsy value; [JsonArray] is an array of suggestion objects;
    [JsonOther] is any other value ([true], a number, a text that is not
    empty, an object), [length_zero] telling whether it has a [length]
    member equal to 0. *)
Inductive Json :=
| JsonNull
| JsonArray (suggestions : list Suggestion)
| JsonOther (length_zero : bool).

Inductive Body :=
| NotJson
| Parsed (value : Json).

Coercion Parsed : Json >-> Body.

(** How a [fetch] settles: it rejects, or it resolves to a response with
    a status and a body, which is JSON text or not. *)
Inductive Outcome :=
| Rejected
| Response (status : nat) (body : Body).

Definition response_ok (status : nat) : bool :=
  (200 <=? status) && (status <=? 299).

Record State := {
  (* module-level variables of the script *)
  searchTimeout : option nat;
  selectedStockSymbol : option string;
  selectedExchange : string;
  (* the variable captured by the watchlist closures *)
  watchlistTimeout : option nat;
  (* the document *)
  stockSearch : string;
  searchDropdown : Dropdown;
  watchlistSymbol : string;
  watchlistSearchDropdown : Dropdown;
  submitBusy : bool;
  (* the browser *)
  timers : list Timer;
  nextTimer : nat;
  now : nat;
  inflight : list Request;
  nextRequest : nat;
  effects : list Effect;
  (* whether the page has loaded the Feather icon library, so that the
     global [feather] is defined *)
  feather : bool
}.

(** The page when the script has been loaded and
    [initializeStockSearch] has run, with the Feather library. *)
Definition loaded : State := {|
  searchTimeout := None;
  selectedStockSymbol := Some ""%string;
  selectedExchange := "NSE";
  watchlistTimeout := None;
  stockSearch := "";
  searchDropdown := {| children := []; display := false |};
  watchlistSymbol := "";
  watchlistSearchDropdown := {| children := []; display := false |};
  submitBusy := false;
  timers := [];
  nextTimer := 1;
  now := 0;
  inflight := [];
  nextRequest := 0;
  effects := [];
  feather := true
|}.

Definition with_searchTimeout (v : option nat) (st : State) : State :=
  {| searchTimeout := v; selectedStockSymbol := selectedStockSymbol st;
     selectedExchange := selectedExchange st;
     watchlistTimeout := watchlistTimeout st; stockSearch := stockSearch st;
     searchDropdown := searchDropdown st;
     watchlistSymbol := watchlistSymbol st;
     watchlistSearchDropdown := watchlistSearchDropdown st;
     submitBusy := submitBusy st; timers := timers st;
     nextTimer := nextTimer st; now := now st; inflight := inflight st;
     nextRequest := nextRequest st; effects := effects st;
     feather := feather st |}.

Definition with_selectedStockSymbol (v : option string) (st : State) : State :=
  {| searchTimeout := searchTimeout st; selectedStockSymbol := v;
     selectedExchange := selectedExchange st;
     watchlistTimeout := watchlistTimeout st; stockSearch := stockSearch st;
     searchDropdown := searchDropdown st;
     watchlistSymbol := watchlistSymbol st;
     watchlistSearchDropdown := watchlistSearchDropdown st;
     submitBusy := submitBusy st; timers := timers st;
     nextTimer := nextTimer st; now := now st; inflight := inflight st;
     nextRequest := nextRequest st; effects := effects st;
     feather := feather st |}.

Definition with_selectedExchange (v : string) (st : State) : State :=
  {| searchTimeout := searchTimeout st;
     selectedStockSymbol := selectedStockSymbol st; selectedExchange := v;
     watchlistTimeout := watchlistTimeout st; stockSearch := stockSearch st;
     searchDropdown := searchDropdown st;
     watchlistSymbol := watchlistSymbol st;
     watchlistSearchDropdown := watchlistSearchDropdown st;
     submitBusy := submitBusy st; timers := timers st;
     nextTimer := nextTimer st; now := now st; inflight := inflight st;
     nextRequest := nextRequest st; effects := effects st;
     feather := feather st |}.

Definition with_watchlistTimeout (v : option nat) (st : State) : State :=
  {| searchTimeout := searchTimeout st;
     selectedStockSymbol := selectedStockSymbol st;
     selectedExchange := selectedExchange st; watchlistTimeout := v;
     stockSearch := stockSearch st; searchDropdown := searchDropdown st;
     watchlistSymbol := watchlistSymbol st;
     watchlistSearchDropdown := watchlistSearchDropdown st;
     submitBusy := submitBusy st; timers := timers st;
     nextTimer := nextTimer st; now := now st; inflight := inflight st;
     nextRequest := nextRequest st; effects := effects st;
     feather := feather st |}.

Definition with_stockSearch (v : string) (st : State) : State :=
  {| searchTimeout := searchTimeout st;
     selectedStockSymbol := selectedStockSymbol st;
     selectedExchange := selectedExchange st;
     watchlistTimeout := watchlistTimeout st; stockSearch := v;
     searchDropdown := searchDropdown st;
     watchlistSymbol := watchlistSymbol st;
     watchlistSearchDropdown := watchlistSearchDropdown st;
     submitBusy := submitBusy st; timers := timers st;
     nextTimer := nextTimer st; now := now st; inflight := inflight st;
     nextRequest := nextRequest st; effects := effects st;
     feather := feather st |}.

Definition with_searchDropdown (v : Dropdown) (st : State) : State :=
  {| searchTimeout := searchTimeout st;
     selectedStockSymbol := selectedStockSymbol st;
     selectedExchange := selectedExchange st;
     watchlistTimeout := watchlistTimeout st; stockSearch := stockSearch st;
     searchDropdown := v; watchlistSymbol := watchlistSymbol st;
     watchlistSearchDropdown := watchlistSearchDropdown st;
     submitBusy := submitBusy st; timers := timers st;
     nextTimer := nextTimer st; now := now st; inflight := inflight st;
     nextRequest := nextRequest st; effects := effects st;
     feather := feather st |}.

Definition with_watchlistSymbol (v : string) (st : State) : State :=
  {| searchTimeout := searchTimeout st;
     selectedStockSymbol := selectedStockSymbol st;
     selectedExchange := selectedExchange st;
     watchlistTimeout := watchlistTimeout st; stockSearch := stockSearch st;
     searchDropdown := searchDropdown st; watchlistSymbol := v;
     watchlistSearchDropdown := watchlistSearchDropdown st;
     submitBusy := submitBusy st; timers := timers st;
     nextTimer := nextTimer st; now := now st; inflight := inflight st;
     nextRequest := nextRequest st; effects := effects st;
     feather := feather st |}.

Definition with_watchlistSearchDropdown (v : Dropdown) (st : State) : State :=
  {| searchTimeout := searchTimeout st;
     selectedStockSymbol := selectedStockSymbol st;
     selectedExchange := selectedExchange st;
     watchlistTimeout := watchlistTimeout st; stockSearch := stockSearch st;
     searchDropdown := searchDropdown st;
     watchlistSymbol := watchlistSymbol st; watchlistSearchDropdown := v;
     submitBusy := submitBusy st; timers := timers st;
     nextTimer := nextTimer st; now := now st; inflight := inflight st;
     nextRequest := nextRequest st; effects := effects st;
     feather := feather st |}.

Definition with_submitBusy (v : bool) (st : State) : State :=
  {| searchTimeout := searchTimeout st;
     selectedStockSymbol := selectedStockSymbol st;
     selectedExchange := selectedExchange st;
     watchlistTimeout := watchlistTimeout st; stockSearch := stockSearch st;
     searchDropdown := searchDropdown st;
     watchlistSymbol := watchlistSymbol st;
     watchlistSearchDropdown := watchlistSearchDropdown st;
     submitBusy := v; timers := timers st;
     nextTimer := nextTimer st; now := now st; inflight := inflight st;
     nextRequest := nextRequest st; effects := effects st;
     feather := feather st |}.

(** The browser's fields change together: timers, clock, requests and
    the effects that left the page. *)
Definition with_browser (ts : list Timer) (nt clock : nat)
    (rs : list Request) (nr : nat) (es : list Effect) (st : State) : State :=
  {| searchTimeout := searchTimeout st;
     selectedStockSymbol := selectedStockSymbol st;
     selectedExchange := selectedExchange st;
     watchlistTimeout := watchlistTimeout st; stockSearch := stockSearch st;
     searchDropdown := searchDropdown st;
     watchlistSymbol := watchlistSymbol st;
     watchlistSearchDropdown := watchlistSearchDropdown st;
     submitBusy := submitBusy st; timers := ts;
     nextTimer := nt; now := clock; inflight := rs;
     nextRequest := nr; effects := es; feather := feather st |}.

(** The same page without the Feather library. *)
Definition without_feather (st : State) : State :=
  {| searchTimeout := searchTimeout st;
     selectedStockSymbol := selectedStockSymbol st;
     selectedExchange := selectedExchange st;
     watchlistTimeout := watchlistTimeout st; stockSearch := stockSearch st;
     searchDropdown := searchDropdown st;
     watchlistSymbol := watchlistSymbol st;
     watchlistSearchDropdown := watchlistSearchDropdown st;
     submitBusy := submitBusy st; timers := timers st;
     nextTimer := nextTimer st; now := now st; inflight := inflight st;
     nextRequest := nextRequest st; effects := effects st;
     feather := false |}.

Definition with_timers (ts : list Timer) (st : State) : State :=
  with_browser ts (nextTimer st) (now st) (inflight st) (nextRequest st)
    (effects st) st.

Definition emit (e : Effect) (st : State) : State :=
  with_browser (timers st) (nextTimer st) (now st) (inflight st)
    (nextRequest st) (effects st ++ [e]) st.

(** *** Timers *)

(** [setTimeout(callback, delay)]: the new timer's id and the state. *)
Definition setTimeout (c : Callback) (delay : nat) (st : State) : nat * State :=
  let id := nextTimer st in
  (id,
   with_browser
     (timers st ++ [{| tid := id; deadline := now st + delay; callback := c |}])
     (S id) (now st) (inflight st) (nextRequest st) (effects st) st).

(** [clearTimeout(id)]; [clearTimeout(undefined)] does nothing. *)
Definition clearTimeout (id : option nat) (st : State) : State :=
  match id with
  | Some i => with_timers (List.filter (fun t => negb (tid t =? i)) (timers st)) st
  | None => st
  end.

(** *** The primary search widget (lines 9 to 262) *)

Definition showSearchDropdown (st : State) : State :=
  with_searchDropdown (set_display true (searchDropdown st)) st.

Definition hideSearchDropdown (st : State) : State :=
  let dropdown := set_display false (searchDropdown st) in
  with_searchDropdown
    (set_children
       (map (fun item => if active item then classList_remove item else item)
            (children dropdown))
       dropdown)
    st.

Definition showSearchLoading (st : State) : State :=
  showSearchDropdown
    (with_searchDropdown (set_innerHTML [LoadingRow] (searchDropdown st)) st).

(** A statement list either completes or throws. *)
Inductive Completion :=
| Normal (st : State)
| Throw (error : string) (st : State).

(** How the promise of an [async] function settles. *)
Inductive Settlement := Fulfilled | RejectedWith (error : string).

(** [feather.replace()]: a reference to a global that is not defined
    throws. *)
Definition feather_replace (st : State) : Completion :=
  if feather st then Normal st
  else Throw "ReferenceError: feather is not defined" st.

Definition showSearchError (st : State) : Completion :=
  let st :=
    with_searchDropdown (set_innerHTML [ErrorRow] (searchDropdown st)) st in
  let st := showSearchDropdown st in
  feather_replace st.

(** [displaySearchResults(suggestions)]: a value that is neither falsy nor
    of length 0 must have a [forEach]. *)
Definition displaySearchResults (suggestions : Json) (st : State)
    : Completion :=
  match suggestions with
  | JsonNull | JsonArray [] | JsonOther true =>
      Normal
        (showSearchDropdown
           (with_searchDropdown
              (set_innerHTML [NoStocksRow] (searchDropdown st)) st))
  | JsonOther false =>
      Throw "TypeError: suggestions.forEach is not a function" st
  | JsonArray l =>
      let html := results_html "selectStock(this)" l in
      Normal
        (showSearchDropdown
           (with_searchDropdown
              (set_innerHTML (innerHTML "selectStock(this)" html)
                 (searchDropdown st)) st))
  end.

(** [searchStocks(query)] up to its first [await]: the loading row is
    shown and the request leaves. *)
Definition searchStocks (query : string) (st : State) : State :=
  let st := showSearchLoading st in
  with_browser (timers st) (nextTimer st) (now st)
    (inflight st ++ [{| rid := nextRequest st; owner := Primary; sent := query |}])
    (S (nextRequest st)) (effects st ++ [Fetch Primary query]) st.

(** The rest of the [try] block of [searchStocks], once the fetch has
    settled with [o]. *)
Definition searchStocks_try (o : Outcome) (st : State) : Completion :=
  match o with
  | Rejected => Throw "TypeError: Failed to fetch" st
  | Response status body =>
      if negb (response_ok status)
      then Throw "Failed to fetch search results" st
      else match body with
           | NotJson => Throw "SyntaxError" st
           | Parsed suggestions => displaySearchResults suggestions st
           end
  end.

(** [searchStocks] from the [await] on, with its [catch] block: what
    [showSearchError] throws leaves the function. *)
Definition searchStocks_resume (o : Outcome) (st : State) : State * Settlement :=
  match searchStocks_try o st with
  | Normal st => (st, Fulfilled)
  | Throw error st =>
      let st := emit (ConsoleError "Error searching stocks:") st in
      match showSearchError st with
      | Normal st => (st, Fulfilled)
      | Throw error st => (st, RejectedWith error)
      end
  end.

Definition selectStock (element : Item) (st : State) : State :=
  let symbol := dataset_symbol element in
  let nseSymbol := dataset_nse element in
  let bseSymbol := dataset_bse element in
  let st := with_stockSearch (Str.toString symbol) st in
  let st :=
    with_selectedStockSymbol
      (if String.eqb (selectedExchange st) "BSE" then bseSymbol else nseSymbol)
      st in
  hideSearchDropdown st.

(** [showAlert]: the banner is recorded as an effect. *)
Definition showAlert (message type : string) (st : State) : State :=
  emit (Alert message type) st.

Definition showAnalysisLoading (st : State) : State :=
  with_submitBusy true st.

Definition analyzeSelectedStock (st : State) : State :=
  let symbol := Str.toUpperCase (Str.trim (stockSearch st)) in
  if String.eqb symbol ""
  then showAlert "Please enter a stock symbol" "warning" st
  else
    let symbol :=
      if Str.truthy (selectedStockSymbol st)
      then Str.toString (selectedStockSymbol st)
      else if negb (Str.endsWith symbol ".NS") && negb (Str.endsWith symbol ".BO")
           then (if String.eqb (selectedExchange st) "BSE"
                 then symbol +:+ ".BO" else symbol +:+ ".NS")
           else symbol in
    let st := showAnalysisLoading st in
    emit (Navigate ("/analyze/" +:+ symbol)) st.

(** The [input] listener of [#stockSearch]; [text] is the value the
    edit leaves in the field. *)
Definition stockSearch_input (text : string) (st : State) : State :=
  let st := with_stockSearch text st in
  let query := Str.trim (stockSearch st) in
  if String.length query <? 2
  then hideSearchDropdown st
  else
    let st := clearTimeout (searchTimeout st) st in
    let (id, st) := setTimeout (CallSearchStocks query) 300 st in
    with_searchTimeout (Some id) st.

Inductive Key := ArrowDown | ArrowUp | Enter | Escape | OtherKey.

(** The [keydown] listener of [#stockSearch]. *)
Definition stockSearch_keydown (key : Key) (st : State) : State :=
  let searchDropdown := searchDropdown st in
  let activeItem := querySelector_active (children searchDropdown) in
  let items := children searchDropdown in
  match key with
  | ArrowDown =>
      match activeItem with
      | Some a =>
          match nextElementSibling items a with
          | Some n =>
              with_searchDropdown
                (set_children
                   (alter classList_add n (alter classList_remove a items))
                   searchDropdown) st
          | None => st
          end
      | None =>
          if 0 <? length items
          then with_searchDropdown
                 (set_children (alter classList_add 0 items) searchDropdown) st
          else st
      end
  | ArrowUp =>
      match activeItem with
      | Some a =>
          match previousElementSibling a with
          | Some p =>
              with_searchDropdown
                (set_children
                   (alter classList_add p (alter classList_remove a items))
                   searchDropdown) st
          | None => st
          end
      | None =>
          if 0 <? length items
          then with_searchDropdown
                 (set_children
                    (alter classList_add (length items - 1) items)
                    searchDropdown) st
          else st
      end
  | Enter =>
      match activeItem with
      | Some a =>
          match items !! a with
          | Some element => selectStock element st
          | None => st
          end
      | None => analyzeSelectedStock st
      end
  | Escape => hideSearchDropdown st
  | OtherKey => st
  end.

(** *** The watchlist search widget (lines 353 to 523) *)

Definition showWatchlistDropdown (st : State) : State :=
  with_watchlistSearchDropdown
    (set_display true (watchlistSearchDropdown st)) st.

Definition hideWatchlistDropdown (st : State) : State :=
  let dropdown := set_display false (watchlistSearchDropdown st) in
  with_watchlistSearchDropdown
    (set_children
       (map (fun item => if active item then classList_remove item else item)
            (children dropdown))
       dropdown)
    st.

Definition showWatchlistSearchError (st : State) : Completion :=
  let st :=
    with_watchlistSearchDropdown
      (set_innerHTML [ErrorRow] (watchlistSearchDropdown st)) st in
  let st := showWatchlistDropdown st in
  feather_replace st.

Definition displayWatchlistSearchResults (suggestions : Json) (st : State)
    : Completion :=
  match suggestions with
  | JsonNull | JsonArray [] | JsonOther true =>
      Normal
        (showWatchlistDropdown
           (with_watchlistSearchDropdown
              (set_innerHTML [NoStocksRow] (watchlistSearchDropdown st)) st))
  | JsonOther false =>
      Throw "TypeError: suggestions.forEach is not a function" st
  | JsonArray l =>
      let html := results_html "selectWatchlistStock(this)" l in
      Normal
        (showWatchlistDropdown
           (with_watchlistSearchDropdown
              (set_innerHTML (innerHTML "selectWatchlistStock(this)" html)
                 (watchlistSearchDropdown st)) st))
  end.

(** [searchStocksForWatchlist(query)] up to its first [await]. *)
Definition searchStocksForWatchlist (query : string) (st : State) : State :=
  with_browser (timers st) (nextTimer st) (now st)
    (inflight st ++ [{| rid := nextRequest st; owner := Watchlist; sent := query |}])
    (S (nextRequest st)) (effects st ++ [Fetch Watchlist query]) st.

Definition searchStocksForWatchlist_try (o : Outcome) (st : State) : Completion :=
  match o with
  | Rejected => Throw "TypeError: Failed to fetch" st
  | Response status body =>
      if negb (response_ok status)
      then Throw "Failed to fetch search results" st
      else match body with
           | NotJson => Throw "SyntaxError" st
           | Parsed suggestions => displayWatchlistSearchResults suggestions st
           end
  end.

Definition searchStocksForWatchlist_resume (o : Outcome) (st : State)
    : State * Settlement :=
  match searchStocksForWatchlist_try o st with
  | Normal st => (st, Fulfilled)
  | Throw error st =>
      let st := emit (ConsoleError "Error searching stocks for watchlist:") st in
      match showWatchlistSearchError st with
      | Normal st => (st, Fulfilled)
      | Throw error st => (st, RejectedWith error)
      end
  end.

Definition selectWatchlistStock (element : Item) (st : State) : State :=
  let symbol := dataset_symbol element in
  let st := with_watchlistSymbol (Str.toString symbol) st in
  hideWatchlistDropdown st.

(** The [input] listener of [#watchlistSymbol]. *)
Definition watchlistSymbol_input (text : string) (st : State) : State :=
  let st := with_watchlistSymbol text st in
  let query := Str.trim (watchlistSymbol st) in
  if String.length query <? 2
  then hideWatchlistDropdown st
  else
    let st := clearTimeout (watchlistTimeout st) st in
    let (id, st) := setTimeout (CallSearchStocksForWatchlist query) 300 st in
    with_watchlistTimeout (Some id) st.

(** The [keydown] listener of [#watchlistSymbol]. *)
Definition watchlistSymbol_keydown (key : Key) (st : State) : State :=
  let watchlistDropdown := watchlistSearchDropdown st in
  let activeItem := querySelector_active (children watchlistDropdown) in
  let items := children watchlistDropdown in
  match key with
  | ArrowDown =>
      match activeItem with
      | Some a =>
          match nextElementSibling items a with
          | Some n =>
              with_watchlistSearchDropdown
                (set_children
                   (alter classList_add n (alter classList_remove a items))
                   watchlistDropdown) st
          | None => st
          end
      | None =>
          if 0 <? length items
          then with_watchlistSearchDropdown
                 (set_children (alter classList_add 0 items) watchlistDropdown) st
          else st
      end
  | ArrowUp =>
      match activeItem with
      | Some a =>
          match previousElementSibling a with
          | Some p =>
              with_watchlistSearchDropdown
                (set_children
                   (alter classList_add p (alter classList_remove a items))
                   watchlistDropdown) st
          | None => st
          end
      | None =>
          if 0 <? length items
          then with_watchlistSearchDropdown
                 (set_children
                    (alter classList_add (length items - 1) items)
                    watchlistDropdown) st
          else st
      end
  | Enter =>
      match activeItem with
      | Some a =>
          match items !! a with
          | Some element => selectWatchlistStock element st
          | None => st
          end
      | None => st
      end
  | Escape => hideWatchlistDropdown st
  | OtherKey => st
  end.

(** *** The event loop *)

(** Where a click lands. *)
Inductive Target :=
| OnInput (w : Which)
| OnRow (w : Which) (i : nat)
| Elsewhere.

Inductive Event :=
| Input (w : Which) (text : string)
| KeyDown (w : Which) (key : Key)
| Click (target : Target)
| Submit
| Change (exchange : string)
| Wait (dt : nat)
| Deliver (request : nat) (o : Outcome).

(** The dropdown of widget [w]. *)
Definition dropdown_of (w : Which) (st : State) : Dropdown :=
  match w with
  | Primary => searchDropdown st
  | Watchlist => watchlistSearchDropdown st
  end.

(** The element a click on row [i] of widget [w] hits, when that row is
    on screen. *)
Definition row_at (w : Which) (i : nat) (st : State) : option Item :=
  let d := dropdown_of w st in
  if display d then children d !! i else None.

(** The inline [onclick] of a result row. *)
Definition row_onclick (w : Which) (element : Item) (st : State) : State :=
  if has_onclick element
  then match w with
       | Primary => selectStock element st
       | Watchlist => selectWatchlistStock element st
       end
  else st.

(** [input.contains(e.target)] or [dropdown.contains(e.target)] *)
Definition within (w : Which) (t : Target) : bool :=
  match t, w with
  | OnInput Primary, Primary | OnRow Primary _, Primary
  | OnInput Watchlist, Watchlist | OnRow Watchlist _, Watchlist => true
  | _, _ => false
  end.

(** The two [click] listeners on [document], the watchlist's first: it
    is registered first. *)
Definition document_click (t : Target) (st : State) : State :=
  let st := if negb (within Watchlist t) then hideWatchlistDropdown st else st in
  if negb (within Primary t) then hideSearchDropdown st else st.

Definition click (t : Target) (st : State) : State :=
  match t with
  | OnRow w i =>
      match row_at w i st with
      | Some element => document_click t (row_onclick w element st)
      | None => st
      end
  | _ => document_click t st
  end.

Definition run_callback (c : Callback) (st : State) : State :=
  match c with
  | CallSearchStocks query => searchStocks query st
  | CallSearchStocksForWatchlist query => searchStocksForWatchlist query st
  end.

(** Due timers fire by deadline, and by creation among equal deadlines. *)
Fixpoint insert_by_deadline (t : Timer) (l : list Timer) : list Timer :=
  match l with
  | [] => [t]
  | u :: r =>
      if deadline t <=? deadline u then t :: u :: r
      else u :: insert_by_deadline t r
  end.

Definition firing_order (l : list Timer) : list Timer :=
  fold_right insert_by_deadline [] l.

Definition is_due (clock : nat) (t : Timer) : bool := deadline t <=? clock.

(** [dt] milliseconds pass: the clock moves and the timers that are due
    fire in order. *)
Definition advance (dt : nat) (st : State) : State :=
  let clock := now st + dt in
  let due := List.filter (is_due clock) (timers st) in
  let rest := List.filter (fun t => negb (is_due clock t)) (timers st) in
  fold_left (fun st t => run_callback (callback t) st) (firing_order due)
    (with_browser rest (nextTimer st) clock (inflight st) (nextRequest st)
       (effects st) st).

(** A promise that nobody handles: its rejection is reported on the
    page. *)
Definition dropped (result : State * Settlement) : State :=
  match snd result with
  | Fulfilled => fst result
  | RejectedWith error => emit (Unhandled error) (fst result)
  end.

(** The fetch of request [r] settles and its lookup resumes.  The timer
    callback that started the lookup dropped its promise. *)
Definition deliver (r : nat) (o : Outcome) (st : State) : State :=
  match List.find (fun q => rid q =? r) (inflight st) with
  | Some q =>
      let st :=
        with_browser (timers st) (nextTimer st) (now st)
          (List.filter (fun q => negb (rid q =? r)) (inflight st))
          (nextRequest st) (effects st) st in
      dropped
        match owner q with
        | Primary => searchStocks_resume o st
        | Watchlist => searchStocksForWatchlist_resume o st
        end
  | None => st
  end.

Definition step (e : Event) (st : State) : State :=
  match e with
  | Input Primary text => stockSearch_input text st
  | Input Watchlist text => watchlistSymbol_input text st
  | KeyDown Primary key => stockSearch_keydown key st
  | KeyDown Watchlist key => watchlistSymbol_keydown key st
  | Click target => click target st
  | Submit => analyzeSelectedStock st
  | Change exchange => with_selectedExchange exchange st
  | Wait dt => advance dt st
  | Deliver r o => deliver r o st
  end.

Definition run (es : list Event) (st : State) : State :=
  fold_left (fun st e => step e st) es st.

(** The queries widget [w] has sent, oldest first. *)
Definition fetches (w : Which) (es : list Effect) : list string :=
  flat_map (fun e => match e, w with
                     | Fetch Primary q, Primary
                     | Fetch Watchlist q, Watchlist => [q]
                     | _, _ => []
                     end) es.

End Page.

(** ** The chart builders (lines 537 to 929)

    The builders run on pages that load the charting library, and the
    members of a payload that are present hold what the server sends:
    arrays of dates, of prices and of indicator values. *)

Module Charts.

(** Numbers of the chart options.  Volumes are share counts, so the
    integers model them; [NegInfinity] is what [Math.max()] returns when
    it is given no argument. *)
Inductive Num := NegInfinity | Fin (z : Z).

Definition max2 (a b : Num) : Num :=
  match a, b with
  | NegInfinity, _ => b
  | _, NegInfinity => a
  | Fin x, Fin y => Fin (Z.max x y)
  end.

(** [Math.max(...values)] *)
Definition Math_max (values : list Z) : Num :=
  fold_left (fun m v => max2 m (Fin v)) values NegInfinity.

(** [n * k] for a positive integer [k]. *)
Definition times (n : Num) (k : Z) : Num :=
  match n with
  | NegInfinity => NegInfinity
  | Fin z => Fin (z * k)
  end.

(** An indicator series: [null] where no value is available yet. *)
Abbreviation Series := (list (option Z)).

(** The chart payload of the hosting page, with the members the builder
    reads. *)
Record Prices := { close : list Z; volume : option (list Z) }.

Record ChartData := {
  dates : list string;
  prices : Prices;
  indicators : gmap string Series
}.

(** A truthy [chartData] argument as the builder receives it: [prices] and
    [indicators] are [None] where the object has no such member, and
    reading a member of [undefined] throws. *)
Record Payload := {
  payload_dates : list string;
  payload_prices : option Prices;
  payload_indicators : option (gmap string Series)
}.

(** The argument that has every member. *)
Definition complete (chartData : ChartData) : Payload :=
  {| payload_dates := dates chartData;
     payload_prices := Some (prices chartData);
     payload_indicators := Some (indicators chartData) |}.

Record Dataset := {
  label : string;
  data : option Series;
  yAxisID : string
}.

Record PriceConfig := {
  labels : list string;
  datasets : list Dataset;
  y1_max : Num;
  title : string
}.

Record RSIConfig := {
  rsi_labels : list string;
  rsi_data : Series;
  y_min : Z;
  y_max : Z;
  annotation_lines : list Z
}.

Inductive Config :=
| OfPrice (c : PriceConfig)
| OfRSI (c : RSIConfig).

Inductive Canvas := PriceCanvas | RSICanvas.

(** A chart object of the charting library that has not been destroyed. *)
Record Instance := { id : nat; canvas : Canvas; config : Config }.

(** The calls made into the charting library. *)
Inductive Op :=
| Destroy (chart : nat)
| Construct (ctx : Canvas) (chart : nat).

Record State := {
  (* module-level variables of the script *)
  priceChart : option nat;
  rsiChart : option nat;
  (* the document: which canvases exist *)
  has_priceCanvas : bool;
  has_rsiCanvas : bool;
  (* the charting library *)
  live : list Instance;
  nextChart : nat;
  ops : list Op;
  (* the exceptions that left a builder, as the console reports them *)
  uncaught : list string
}.

Definition loaded (price rsi : bool) : State := {|
  priceChart := None; rsiChart := None;
  has_priceCanvas := price; has_rsiCanvas := rsi;
  live := []; nextChart := 0; ops := []; uncaught := []
|}.

(** [chart.destroy()] *)
Definition destroy (chart : nat) (st : State) : State :=
  {| priceChart := priceChart st; rsiChart := rsiChart st;
     has_priceCanvas := has_priceCanvas st; has_rsiCanvas := has_rsiCanvas st;
     live := List.filter (fun i => negb (id i =? chart)) (live st);
     nextChart := nextChart st;
     ops := ops st ++ [Destroy chart];
     uncaught := uncaught st |}.

(** [new Chart(ctx, config)]: the new chart's id and the state. *)
Definition new_Chart (ctx : Canvas) (c : Config) (st : State) : nat * State :=
  let chart := nextChart st in
  (chart,
   {| priceChart := priceChart st; rsiChart := rsiChart st;
      has_priceCanvas := has_priceCanvas st; has_rsiCanvas := has_rsiCanvas st;
      live := live st ++ [{| id := chart; canvas := ctx; config := c |}];
      nextChart := S chart;
      ops := ops st ++ [Construct ctx chart];
      uncaught := uncaught st |}).

Definition with_priceChart (v : option nat) (st : State) : State :=
  {| priceChart := v; rsiChart := rsiChart st;
     has_priceCanvas := has_priceCanvas st; has_rsiCanvas := has_rsiCanvas st;
     live := live st; nextChart := nextChart st; ops := ops st;
     uncaught := uncaught st |}.

Definition with_rsiChart (v : option nat) (st : State) : State :=
  {| priceChart := priceChart st; rsiChart := v;
     has_priceCanvas := has_priceCanvas st; has_rsiCanvas := has_rsiCanvas st;
     live := live st; nextChart := nextChart st; ops := ops st;
     uncaught := uncaught st |}.

(** An exception leaves the builder: nothing after the [throw] runs. *)
Definition throw (error : string) (st : State) : State :=
  {| priceChart := priceChart st; rsiChart := rsiChart st;
     has_priceCanvas := has_priceCanvas st; has_rsiCanvas := has_rsiCanvas st;
     live := live st; nextChart := nextChart st; ops := ops st;
     uncaught := uncaught st ++ [error] |}.

(** [indicators.k && indicators.k.length > 0] *)
Definition available (chartData : ChartData) (k : string) : bool :=
  match indicators chartData !! k with
  | Some (_ :: _) => true
  | _ => false
  end.

Definition overlay (chartData : ChartData) (k text : string) : list Dataset :=
  if available chartData k
  then [{| label := text; data := indicators chartData !! k; yAxisID := "y" |}]
  else [].

(** The [datasets] array after all the conditional pushes. *)
Definition price_datasets (chartData : ChartData) : list Dataset :=
  [{| label := "Close Price";
      data := Some (map Some (close (prices chartData)));
      yAxisID := "y" |}]
  ++ overlay chartData "ema_9" "EMA 9"
  ++ overlay chartData "ema_21" "EMA 21"
  ++ overlay chartData "sma_50" "SMA 50"
  ++ overlay chartData "sma_200" "SMA 200"
  ++ (if available chartData "bb_upper"
      then [{| label := "BB Upper";
               data := indicators chartData !! "bb_upper"; yAxisID := "y" |};
            {| label := "BB Lower";
               data := indicators chartData !! "bb_lower"; yAxisID := "y" |}]
      else [])
  ++ match volume (prices chartData) with
     | Some ((_ :: _) as v) =>
         [{| label := "Volume"; data := Some (map Some v); yAxisID := "y1" |}]
     | _ => []
     end.

Definition price_config (chartData : ChartData) (symbol : string) : PriceConfig :=
  {| labels := dates chartData;
     datasets := price_datasets chartData;
     y1_max :=
       times (Math_max (match volume (prices chartData) with
                        | Some v => v
                        | None => [0%Z]
                        end)) 4;
     title := symbol +:+ " - Price Chart with Technical Indicators" |}.

(** [chartData] is [None] for a missing or [null] argument.  The existing
    chart is destroyed first; the datasets then read [chartData.prices.close]
    (line 569) and [chartData.indicators.ema_9] (line 580), and where the
    argument has no [prices] or no [indicators] the read throws: the
    assignment of line 756 is not reached and [priceChart] keeps the value
    it had. *)
Definition initializePriceChart (chartData : option Payload)
    (symbol : string) (st : State) : State :=
  match has_priceCanvas st, chartData with
  | true, Some payload =>
      let st := match priceChart st with
                | Some chart => destroy chart st
                | None => st
                end in
      match payload_prices payload, payload_indicators payload with
      | None, _ =>
          throw "TypeError: Cannot read properties of undefined (reading 'close')"
            st
      | Some _, None =>
          throw "TypeError: Cannot read properties of undefined (reading 'ema_9')"
            st
      | Some prices, Some indicators =>
          let chartData := {| dates := payload_dates payload;
                              prices := prices;
                              indicators := indicators |} in
          let config := price_config chartData symbol in
          let (chart, st) := new_Chart PriceCanvas (OfPrice config) st in
          with_priceChart (Some chart) st
      end
  | _, _ => st
  end.

Definition rsi_config (rsiData : Series) (dates : list string) : RSIConfig :=
  {| rsi_labels := dates; rsi_data := rsiData;
     y_min := 0; y_max := 100; annotation_lines := [70%Z; 30%Z] |}.

Definition initializeRSIChart (rsiData : option Series)
    (dates : list string) (st : State) : State :=
  match has_rsiCanvas st, rsiData with
  | true, Some rsiData =>
      let st := match rsiChart st with
                | Some chart => destroy chart st
                | None => st
                end in
      let config := rsi_config rsiData dates in
      let (chart, st) := new_Chart RSICanvas (OfRSI config) st in
      with_rsiChart (Some chart) st
  | _, _ => st
  end.

(** The argument has the two members the price builder reads through. *)
Definition is_complete (payload : Payload) : bool :=
  match payload_prices payload, payload_indicators payload with
  | Some _, Some _ => true
  | _, _ => false
  end.

(** One invocation of a builder by the hosting page. *)
Inductive Call :=
| PriceCall (chartData : option Payload) (symbol : string)
| RSICall (rsiData : option Series) (dates : list string).

Definition call (c : Call) (st : State) : State :=
  match c with
  | PriceCall chartData symbol => initializePriceChart chartData symbol st
  | RSICall rsiData dates => initializeRSIChart rsiData dates st
  end.

Definition run (cs : list Call) (st : State) : State :=
  fold_left (fun st c => call c st) cs st.

Definition on (c : Canvas) (i : Instance) : bool :=
  match c, canvas i with
  | PriceCanvas, PriceCanvas | RSICanvas, RSICanvas => true
  | _, _ => false
  end.

(** The live chart objects drawing on canvas [c]. *)
Definition live_on (c : Canvas) (st : State) : list Instance :=
  List.filter (on c) (live st).

End Charts.

(** ** Notions used to state the properties *)

Module Spec.
Import Dom Page.

(** [s] ends in [suffix]. *)
Definition has_suffix (s suffix : string) : Prop :=
  exists p, s = p +:+ suffix.

(** Uppercasing, in the words of the specification: each of the twenty-six
    small letters is replaced by its capital, and every other character
    stays.  The pairs are written out; [Str.toUpperCase] is compared with
    this. *)
Fixpoint capital_among (small capitals : string) (c : ascii) : ascii :=
  match small, capitals with
  | String a small, String b capitals =>
      if Ascii.eqb c a then b else capital_among small capitals c
  | _, _ => c
  end.

Definition capital (c : ascii) : ascii :=
  capital_among "abcdefghijklmnopqrstuvwxyz" "ABCDEFGHIJKLMNOPQRSTUVWXYZ" c.

Fixpoint uppercased (s : string) : string :=
  match s with
  | EmptyString => EmptyString
  | String c r => String (capital c) (uppercased r)
  end.

(** The text already carries one of the two exchange suffixes. *)
Definition suffixed (s : string) : Prop :=
  has_suffix s ".NS" \/ has_suffix s ".BO".

(** The dropdown is closed: it is not displayed and no row is highlighted. *)
Definition closed (d : Dropdown) : Prop :=
  display d = false /\ Forall (fun item => active item = false) (children d).

(** A selection of the row with symbols [sym], [nse] and [bse], made while
    the page was in state [st], has been committed in [st']. *)
Definition committed (st : State) (sym nse bse : string) (st' : State) : Prop :=
  (selectedExchange st = "BSE"%string -> selectedStockSymbol st' = Some bse)
  /\ (selectedExchange st <> "BSE"%string -> selectedStockSymbol st' = Some nse)
  /\ stockSearch st' = sym
  /\ closed (searchDropdown st').

(** The dropdown is on screen with exactly the rows [ms], none highlighted. *)
Definition shows (ms : list Markup) (d : Dropdown) : Prop :=
  children d = map fresh ms /\ display d = true.

(** The dropdown is on screen with one row per suggestion of [l], in order,
    row [i] carrying the three symbols of suggestion [i]. *)
Definition renders (l : list Suggestion) (d : Dropdown) : Prop :=
  display d = true
  /\ length (children d) = length l
  /\ forall i stock, l !! i = Some stock ->
       exists item, children d !! i = Some item
         /\ dataset_symbol item = Some (symbol stock)
         /\ dataset_nse item = Some (nse_symbol stock)
         /\ dataset_bse item = Some (bse_symbol stock).

(** The fetch failed: it was rejected, or the response is not a 2xx one. *)
Definition failed (o : Outcome) : Prop :=
  o = Rejected \/ exists status body,
    o = Response status body /\ response_ok status = false.

(** The fetch succeeded with an empty array of suggestions. *)
Definition found_nothing (o : Outcome) : Prop :=
  exists status, o = Response status (JsonArray []) /\ response_ok status = true.

(** Effects that reach the user as a page-level message or leave the page. *)
Definition page_level (e : Effect) : bool :=
  match e with
  | Alert _ _ | Navigate _ | Unhandled _ => true
  | Fetch _ _ | ConsoleError _ => false
  end.

(** The widget whose lookup a timer callback starts, and its query. *)
Definition owner_of (c : Callback) : Which :=
  match c with
  | CallSearchStocks _ => Primary
  | CallSearchStocksForWatchlist _ => Watchlist
  end.

Definition query_of (c : Callback) : string :=
  match c with
  | CallSearchStocks q | CallSearchStocksForWatchlist q => q
  end.

Definition same (a b : Which) : bool :=
  match a, b with
  | Primary, Primary | Watchlist, Watchlist => true
  | _, _ => false
  end.

Definition owned (w : Which) (t : Timer) : bool :=
  same (owner_of (callback t)) w.

(** The debounce timers of widget [w] that have not fired. *)
Definition pending (w : Which) (st : State) : list Timer :=
  List.filter (owned w) (timers st).

(** The variable holding widget [w]'s timer id, and its input's text. *)
Definition timeout_of (w : Which) (st : State) : option nat :=
  match w with
  | Primary => searchTimeout st
  | Watchlist => watchlistTimeout st
  end.

Definition text_of (w : Which) (st : State) : string :=
  match w with
  | Primary => stockSearch st
  | Watchlist => watchlistSymbol st
  end.

(** A burst of keystrokes on widget [w]: the first leaves [first] in the
    field, and each [(gap, text)] of [rest] comes [gap] milliseconds after
    the one before and leaves [text]. *)
Definition keystrokes (w : Which) (first : string) (rest : list (nat * string))
    : list Event :=
  Input w first :: flat_map (fun k => [Wait (fst k); Input w (snd k)]) rest.

(** Time from the first keystroke of the burst to the last. *)
Definition span (rest : list (nat * string)) : nat :=
  list_sum (map fst rest).

(** The text the last keystroke of the burst leaves. *)
Definition final_text (first : string) (rest : list (nat * string)) : string :=
  List.last (map snd rest) first.

(** The queries the timers of [l] owned by [w] carry, in the order of [l]. *)
Definition queries (w : Which) (l : list Timer) : list string :=
  map (fun t => query_of (callback t)) (List.filter (owned w) l).

(** The arrow function widget [w] hands to [setTimeout] for [query]. *)
Definition callback_of (w : Which) (query : string) : Callback :=
  match w with
  | Primary => CallSearchStocks query
  | Watchlist => CallSearchStocksForWatchlist query
  end.

(** The timers left by [clearTimeout(id)]. *)
Definition cleared (id : option nat) (l : list Timer) : list Timer :=
  match id with
  | Some i => List.filter (fun t => negb (tid t =? i)) l
  | None => l
  end.

(** The debounce state of widget [w] during a burst: it has sent the
    queries [F], and each of its pending timers is the one its variable
    names and is not due before [T]. *)
Definition debounced (w : Which) (T : nat) (F : list string) (st : State) : Prop :=
  fetches w (effects st) = F
  /\ forall t, In t (timers st) -> owner_of (callback t) = w ->
       timeout_of w st = Some (tid t) /\ T <= deadline t.



(** Exchanging the roles of the two widgets. *)
Definition flip (w : Which) : Which :=
  match w with
  | Primary => Watchlist
  | Watchlist => Primary
  end.

Definition flip_timer (t : Timer) : Timer :=
  {| tid := tid t; deadline := deadline t;
     callback := callback_of (flip (owner_of (callback t))) (query_of (callback t)) |}.

Definition flip_request (r : Request) : Request :=
  {| rid := rid r; owner := flip (owner r); sent := sent r |}.

Definition flip_target (t : Target) : Target :=
  match t with
  | OnInput w => OnInput (flip w)
  | OnRow w i => OnRow (flip w) i
  | Elsewhere => Elsewhere
  end.

(** The same gesture, made on the other widget. *)
Definition flip_event (e : Event) : Event :=
  match e with
  | Input w text => Input (flip w) text
  | KeyDown w key => KeyDown (flip w) key
  | Click target => Click (flip_target target)
  | Submit | Change _ | Wait _ | Deliver _ _ => e
  end.

(** [s1] and [s2] carry the same debounce and network state with the two
    widgets exchanged: the timer variables, the pending timers, the clock,
    the requests in flight and the queries each widget has sent. *)
Definition same_traffic (s1 s2 : State) : Prop :=
  searchTimeout s1 = watchlistTimeout s2
  /\ watchlistTimeout s1 = searchTimeout s2
  /\ timers s1 = map flip_timer (timers s2)
  /\ nextTimer s1 = nextTimer s2
  /\ now s1 = now s2
  /\ inflight s1 = map flip_request (inflight s2)
  /\ nextRequest s1 = nextRequest s2
  /\ forall w, fetches (flip w) (effects s1) = fetches w (effects s2).

(** [s1] and [s2] show the same with the two widgets exchanged: the text
    of each input and each dropdown's rows, highlight and display. *)
Definition same_view (s1 s2 : State) : Prop :=
  stockSearch s1 = watchlistSymbol s2
  /\ watchlistSymbol s1 = stockSearch s2
  /\ searchDropdown s1 = watchlistSearchDropdown s2
  /\ watchlistSearchDropdown s1 = searchDropdown s2.

(** [s1] is [s2] with the two widgets exchanged. *)
Definition mirrored (s1 s2 : State) : Prop :=
  same_traffic s1 s2 /\ same_view s1 s2.

(** The event starts a lookup in state [st]: time passes and a debounce
    timer is due. *)
Definition starts_lookup (e : Event) (st : State) : bool :=
  match e with
  | Wait dt => existsb (is_due (now st + dt)) (timers st)
  | _ => false
  end.

(** The answer the event delivers, if it delivers one, carries only
    suggestions whose values hold no markup. *)
Definition plain_answer (e : Event) : bool :=
  match e with
  | Deliver _ (Response _ (Parsed (JsonArray l))) =>
      forallb Html.well_formed l
  | _ => true
  end.

(** Run from [st], no event of [es] starts a lookup, and the answers
    delivered hold no markup. *)
Fixpoint calm (es : list Event) (st : State) : Prop :=
  match es with
  | [] => True
  | e :: es =>
      starts_lookup e st = false /\ plain_answer e = true
      /\ calm es (step e st)
  end.

(** A handler that leaves the debounce and network state alone. *)
Definition untouched (st st' : State) : Prop :=
  searchTimeout st' = searchTimeout st
  /\ watchlistTimeout st' = watchlistTimeout st
  /\ timers st' = timers st
  /\ nextTimer st' = nextTimer st
  /\ now st' = now st
  /\ inflight st' = inflight st
  /\ nextRequest st' = nextRequest st
  /\ forall w, fetches w (effects st') = fetches w (effects st).

(** [m] is the greatest value of the sequence [v]. *)
Definition peak (v : list Z) (m : Z) : Prop :=
  In m v /\ Forall (fun x => (x <= m)%Z) v.

(** The script variable that holds the chart of canvas [c]. *)
Definition chart_of (c : Charts.Canvas) (st : Charts.State) : option nat :=
  match c with
  | Charts.PriceCanvas => Charts.priceChart st
  | Charts.RSICanvas => Charts.rsiChart st
  end.

(** Canvas [c] has no live chart, or exactly one, and then it is the one
    the script's variable holds. *)
Definition at_most_one (c : Charts.Canvas) (st : Charts.State) : Prop :=
  Charts.live_on c st = []
  \/ exists i, Charts.live_on c st = [i] /\ chart_of c st = Some (Charts.id i).

(** The library calls a builder makes when it rebuilds the chart of canvas
    [c]: the previous chart, if any, is destroyed, then the new one is
    constructed. *)
Definition rebuild_ops (c : Charts.Canvas) (previous : option nat) (chart : nat)
    : list Charts.Op :=
  match previous with
  | Some old => [Charts.Destroy old]
  | None => []
  end ++ [Charts.Construct c chart].

End Spec.

(** ** Further notions: highlight, reachable pages *)

Module Notions.
Import Dom Page Spec.

(** The positions of the highlighted rows among [l], counted from [i]. *)
Fixpoint highlighted_from (i : nat) (l : list Item) : list nat :=
  match l with
  | [] => []
  | item :: r =>
      (if active item then [i] else []) ++ highlighted_from (S i) r
  end.

(** The positions of the rows of a dropdown that carry the class [active]. *)
Definition highlighted (d : Dropdown) : list nat :=
  highlighted_from 0 (children d).

(** The children of a dropdown after ArrowDown and after ArrowUp, as both
    keydown listeners compute them. *)
Definition after_down (l : list Item) : list Item :=
  match querySelector_active l with
  | Some a =>
      match nextElementSibling l a with
      | Some n => alter classList_add n (alter classList_remove a l)
      | None => l
      end
  | None => if 0 <? length l then alter classList_add 0 l else l
  end.

Definition after_up (l : list Item) : list Item :=
  match querySelector_active l with
  | Some a =>
      match previousElementSibling a with
      | Some p => alter classList_add p (alter classList_remove a l)
      | None => l
      end
  | None =>
      if 0 <? length l then alter classList_add (length l - 1) l else l
  end.


(** The timer a keystroke on widget [w] arms when it leaves [text]. *)
Definition armed (w : Which) (text : string) (st : State) : Timer :=
  {| tid := nextTimer st; deadline := now st + 300;
     callback := callback_of w (Str.trim text) |}.

(** A step that leaves the timers, the timer variables and the queries
    sent as they are. *)
Definition kept (st st' : State) : Prop :=
  timers st' = timers st
  /\ nextTimer st' = nextTimer st
  /\ (forall w, timeout_of w st' = timeout_of w st)
  /\ forall w, fetches w (effects st') = fetches w (effects st).

(** The timers are in order: their ids are distinct and were handed out
    before, and each pending timer is the one its widget's variable
    names. *)
Definition orderly (st : State) : Prop :=
  NoDup (map tid (timers st))
  /\ (forall t, In t (timers st) -> tid t < nextTimer st)
  /\ forall t, In t (timers st) ->
       timeout_of (owner_of (callback t)) st = Some (tid t).

(** A query as the input listeners hand it to the lookup: trimmed, and of
    at least two characters. *)
Definition well_formed (q : string) : Prop :=
  2 <= String.length q /\ Str.trim q = q.

(** Every pending timer carries, and every request sent carried, a
    well-formed query. *)
Definition sound (st : State) : Prop :=
  (forall t, In t (timers st) -> well_formed (query_of (callback t)))
  /\ forall w q, In q (fetches w (effects st)) -> well_formed q.

(** What the page may do to the user: navigate to the analysis of a symbol
    that is not empty, and show the banner that asks for a symbol. *)
Definition proper (e : Effect) : Prop :=
  match e with
  | Navigate href => exists s, s <> EmptyString /\ href = "/analyze/" +:+ s
  | Alert message type =>
      message = "Please enter a stock symbol"%string /\ type = "warning"%string
  | Fetch _ _ | ConsoleError _ | Unhandled _ => True
  end.

(** The event is typing or a key press in the input of widget [w]. *)
Definition typed_into (w : Which) (e : Event) : bool :=
  match e with
  | Input w' _ | KeyDown w' _ => same w' w
  | _ => false
  end.

(** A row that only carries a message: the loading row, the error row or
    the row saying that nothing was found. *)
Definition message_row (m : Markup) : Prop :=
  m = LoadingRow \/ m = ErrorRow \/ m = NoStocksRow.

(** The click lands on something that is on the page: a row is clicked
    only while its dropdown shows it. *)
Definition on_page (t : Target) (st : State) : Prop :=
  match t with
  | OnRow w i => is_Some (row_at w i st)
  | OnInput _ | Elsewhere => True
  end.

End Notions.

(** ** The chart passthroughs (lines 873 to 919) *)

Module ChartTools.
Import Charts.

(** [resizeChart(chartInstance)]: the charts whose [resize()] it calls. *)
Definition resizeChart (chartInstance : option nat) : list nat :=
  match chartInstance with
  | Some chart => [chart]
  | None => []
  end.

(** The [resize] listener of the window. *)
Definition on_resize (st : State) : list nat :=
  resizeChart (priceChart st) ++ resizeChart (rsiChart st).

(** The [data] member of a chart object. *)
Record ChartObject := {
  chart_labels : option (list string);
  chart_datasets : list Dataset;
  redraws : nat
}.

(** The argument of [updateChart]: [entries] is [newData.datasets], an
    entry being [None] where the array has no object at that index. *)
Record NewData := {
  new_dates : option (list string);
  entries : option (list (option Dataset))
}.

(** [newData.datasets && newData.datasets[index]] *)
Definition entry_at (newData : NewData) (index : nat) : option Dataset :=
  match entries newData with
  | Some l => match l !! index with
              | Some (Some d) => Some d
              | _ => None
              end
  | None => None
  end.

(** [updateChart(chartInstance, newData)], on the chart object it is
    given. *)
Definition updateChart (chartInstance : option ChartObject)
    (newData : option NewData) : option ChartObject :=
  match chartInstance, newData with
  | Some chart, Some newData =>
      Some {| chart_labels := new_dates newData;
              chart_datasets :=
                imap (fun index dataset =>
                        match entry_at newData index with
                        | Some d => {| label := label dataset; data := data d;
                                       yAxisID := yAxisID dataset |}
                        | None => dataset
                        end) (chart_datasets chart);
              redraws := S (redraws chart) |}
  | _, _ => chartInstance
  end.

#[export] Instance canvas_eq_dec : EqDecision Canvas.
Proof. solve_decision. Defined.

(** The canvas a call of a builder draws on. *)
Definition canvas_of (cl : Call) : Canvas :=
  match cl with
  | PriceCall _ _ => PriceCanvas
  | RSICall _ _ => RSICanvas
  end.

(** The live charts that remain when the chart [previous] names, if any,
    is destroyed. *)
Definition surviving (previous : option nat) (l : list Instance) : list Instance :=
  List.filter
    (fun i => negb (if previous is Some old then id i =? old else false)) l.

(** Chart [k] has not been destroyed. *)
Definition is_live (k : nat) (st : State) : Prop :=
  exists i, In i (live st) /\ id i = k.

(** The charts have their ids in order: the ids of the live charts are
    distinct and were handed out before, and each chart variable that is
    set names the one live chart of its canvas or, for the price chart
    after a call that threw, a chart that was destroyed and left its canvas
    without one. *)
Definition healthy (st : State) : Prop :=
  NoDup (map id (live st))
  /\ (forall i, In i (live st) -> id i < nextChart st)
  /\ forall c,
       match Spec.chart_of c st with
       | Some k => (exists i, live_on c st = [i] /\ id i = k)
                   \/ (live_on c st = [] /\ k < nextChart st
                       /\ ~ is_live k st /\ c = PriceCanvas
                       /\ uncaught st <> [])
       | None => live_on c st = []
       end.

End ChartTools.

(** ** Number formatting (lines 287 to 290 and 905 to 913) *)

From Stdlib Require DecimalString.

Module Format.

(** [\d] and [\w] of a regular expression. *)
Definition isDigit (c : ascii) : bool :=
  let n := nat_of_ascii c in
  (48 <=? n) && (n <=? 57).

Definition isWord (c : ascii) : bool :=
  let n := nat_of_ascii c in
  isDigit c || ((65 <=? n) && (n <=? 90)) || ((97 <=? n) && (n <=? 122))
  || (n =? 95).

(** [(?!\d)] at the text [r]. *)
Definition no_digit_ahead (r : string) : bool :=
  match r with
  | String c _ => negb (isDigit c)
  | EmptyString => true
  end.

(** [(\d{3})+(?!\d)] matched at the start of [r] with at most [n] groups:
    after a group of three digits, the match ends if no digit follows, and
    goes on with a further group otherwise. *)
Fixpoint digit_groups (n : nat) (r : string) : bool :=
  match n with
  | 0 => false
  | S n =>
      match r with
      | String a (String b (String c r')) =>
          isDigit a && isDigit b && isDigit c
          && (no_digit_ahead r' || digit_groups n r')
      | _ => false
      end
  end.

(** [(?=(\d{3})+(?!\d))] at the text [r] *)
Definition lookahead (r : string) : bool :=
  digit_groups (String.length r) r.

(** [\B] between [prev] and [next], each [None] at an end of the text:
    both sides are word characters, or neither is. *)
Definition word (c : option ascii) : bool :=
  match c with
  | Some c => isWord c
  | None => false
  end.

Definition not_boundary (prev next : option ascii) : bool :=
  Bool.eqb (word prev) (word next).

Definition first_char (s : string) : option ascii :=
  match s with
  | String c _ => Some c
  | EmptyString => None
  end.

(** The rest [s] of a text after the character [prev], with a comma put in
    at every position where the regular expression matches. *)
Fixpoint commas_from (prev : option ascii) (s : string) : string :=
  let here :=
    if not_boundary prev (first_char s) && lookahead s
    then ","%string else EmptyString in
  match s with
  | EmptyString => here
  | String c r => here +:+ String c (commas_from (Some c) r)
  end.

(** [text.replace(/\B(?=(\d{3})+(?!\d))/g, ',')] *)
Definition with_commas (text : string) : string :=
  commas_from None text.

(** The decimal digits of a whole number. *)
Definition decimal (n : N) : string :=
  DecimalString.NilZero.string_of_uint (N.to_uint n).

(** A Number is a double: a whole number is a Number value when it fits
    into 53 bits times a power of two, below [2 ^ 1024].
    [binary_exponent n] is the number of bits [n] has beyond 53. *)
Definition binary_exponent (n : N) : N := N.size n - 53.

(** The Number value of the whole number [n], which is what a numeral or a
    whole number of an answer evaluates to: [n] rounded to 53 significant
    bits, a tie going to the even neighbour; [None] is [Infinity]. *)
Definition number_value (n : N) : option N :=
  let e := binary_exponent n in
  let q := N.shiftr n e in
  let r := (n - N.shiftl q e)%N in
  let up := (2 ^ e <? 2 * r)%N || ((2 * r =? 2 ^ e)%N && N.odd q) in
  let x := N.shiftl (if up then q + 1 else q)%N e in
  if (2 ^ 1024 <=? x)%N then None else Some x.

(** The Number value of [v] is [x]. *)
Definition rounds_to (x v : N) : bool :=
  match number_value v with
  | Some y => (y =? x)%N
  | None => false
  end.

(** Of the multiples of [p] next to [x], the one whose Number value is [x];
    of two, the one closer to [x], and at the same distance the even
    multiple. *)
Definition nearest (x p : N) : option N :=
  let below := (x / p * p)%N in
  let above := (below + p)%N in
  match rounds_to x below, rounds_to x above with
  | true, true =>
      Some (if (x - below <? above - x)%N
               || ((x - below =? above - x)%N && N.even (x / p))
            then below else above)
  | true, false => Some below
  | false, true => Some above
  | false, false => None
  end.

(** The whole number with the fewest significant digits whose Number value
    is [x]: the multiple of the greatest power of ten, from [10 ^ j] down,
    that has this value. *)
Fixpoint shortest (j : nat) (x : N) : N :=
  match nearest x (10 ^ N.of_nat j) with
  | Some v => v
  | None => match j with
            | S j => shortest j x
            | 0 => x
            end
  end.

(** Digits without the zeros they end in. *)
Fixpoint significant (digits : string) : string :=
  match digits with
  | EmptyString => EmptyString
  | String c r =>
      match significant r with
      | EmptyString =>
          if Ascii.eqb c "0" then EmptyString else String c EmptyString
      | r' => String c r'
      end
  end.

(** [num.toString()] for the Number value of the whole number [num]
    ([Number::toString] of the language specification, radix 10): the
    digits are those of the shortest decimal that has this value, followed
    by zeros below [10 ^ 21], and in exponent notation from there on. *)
Definition toString (num : N) : string :=
  match number_value num with
  | None => "Infinity"
  | Some x =>
      let v := shortest (String.length (decimal x)) x in
      let text := decimal v in
      let n := String.length text in
      if (v <? 10 ^ 21)%N then text
      else match significant text with
           | String d EmptyString =>
               String d ("e+" +:+ decimal (N.of_nat (n - 1)))
           | String d rest =>
               String d ("." +:+ rest +:+ "e+" +:+ decimal (N.of_nat (n - 1)))
           | EmptyString => text
           end
  end.

(** [formatNumber] as declared at lines 288 to 290, on the Number values
    of whole numbers.  The script declares the name a second time at lines
    906 to 913 ([ChartFormat.formatNumber] below); of two function
    declarations of one name in one script, the later is the one that is
    called. *)
Definition formatNumber (num : N) : string :=
  with_commas (toString num).

(** The text without its commas. *)
Fixpoint strip_commas (s : string) : string :=
  match s with
  | EmptyString => EmptyString
  | String c r =>
      if Ascii.eqb c "," then strip_commas r else String c (strip_commas r)
  end.

(** The text is made of decimal digits. *)
Fixpoint all_digits (s : string) : bool :=
  match s with
  | EmptyString => true
  | String c r => isDigit c && all_digits r
  end.

(** The text holds no comma. *)
Fixpoint comma_free (s : string) : bool :=
  match s with
  | EmptyString => true
  | String c r => negb (Ascii.eqb c ",") && comma_free r
  end.

(** The characters of the texts of whole numbers: digits, and those of the
    exponent notation and of [Infinity]. *)
Definition numeric (c : ascii) : bool :=
  isDigit c || existsb (Ascii.eqb c) (list_ascii_of_string ".e+Infity").

Fixpoint all_numeric (s : string) : bool :=
  match s with
  | EmptyString => true
  | String c r => numeric c && all_numeric r
  end.

(** The number of digits the text starts with. *)
Fixpoint leading_digits (s : string) : nat :=
  match s with
  | String c r => if isDigit c then S (leading_digits r) else 0
  | EmptyString => 0
  end.

(** The last character of [r], or [c] when [r] is empty. *)
Fixpoint last_char (c : ascii) (r : string) : ascii :=
  match r with
  | EmptyString => c
  | String x r' => last_char x r'
  end.

(** A comma stands before a block of [n] digits when [n] is a positive
    multiple of three. *)
Definition block_start (n : nat) : bool :=
  (0 <? n) && (n mod 3 =? 0).

(** Digits in groups of three counted from the end: after each digit comes
    a comma when the digits that follow make up whole groups. *)
Fixpoint grouped (s : string) : string :=
  match s with
  | EmptyString => EmptyString
  | String c r =>
      String c ((if block_start (String.length r) then ","%string
                 else EmptyString) +:+ grouped r)
  end.

End Format.

(** [formatNumber] as declared at lines 906 to 913, on the Number values
    of whole numbers; a whole number and its Number value are on the same
    side of 1000 and of 1000000.  [toFixed1 num d] stands for
    [(num / d).toFixed(1)]; floating-point division and rounding are
    outside the embedding, and what is proved of this function holds for
    every [toFixed1]. *)
Module ChartFormat.
Import Format.

Definition formatNumber (toFixed1 : N -> N -> string) (num : N) : string :=
  if (1000000 <=? num)%N then toFixed1 num 1000000%N +:+ "M"
  else if (1000 <=? num)%N then toFixed1 num 1000%N +:+ "K"
  else with_commas (toString num).

End ChartFormat.

(** ** Alert banners (lines 265 to 310) *)

Module Banner.

(** A child of [<main>]: a node of the served page, or an alert box made by
    [showAlert].  Boxes are told apart by the order of their creation. *)
Inductive Node :=
| Served (n : nat)
| AlertBox (box : nat) (message type : string).

(** The timer [showAlert] sets for the box it made. *)
Record Timer := { deadline : nat; target : nat }.

(** [main] is the result of [document.querySelector('main')] with its
    child nodes, [None] on a page without the element. *)
Record State := {
  main : option (list Node);
  timers : list Timer;
  boxes : nat;
  now : nat;
  console : list string
}.

Definition is_box (box : nat) (n : Node) : bool :=
  match n with
  | AlertBox b _ _ => b =? box
  | Served _ => false
  end.

(** [alertContainer.remove()]; on a box without a parent it changes
    nothing, as the guard of the timer's callback has it. *)
Definition remove (box : nat) (st : State) : State :=
  {| main := option_map (List.filter (fun n => negb (is_box box n))) (main st);
     timers := timers st; boxes := boxes st; now := now st;
     console := console st |}.

Definition showAlert (message type : string) (st : State) : State :=
  let alertContainer := boxes st in
  {| main :=
       match main st with
       | Some (firstChild :: rest) =>
           Some (AlertBox alertContainer message type :: firstChild :: rest)
       | Some [] => Some []
       | None => None
       end;
     timers := timers st ++ [{| deadline := now st + 5000;
                                target := alertContainer |}];
     boxes := S alertContainer; now := now st; console := console st |}.

(** How the promise of [navigator.clipboard.writeText] settles. *)
Inductive Settled := Written | Refused (err : string).

(** The two callbacks of [copyToClipboard]. *)
Definition copyToClipboard_settled (o : Settled) (st : State) : State :=
  match o with
  | Written => showAlert "Copied to clipboard!" "success" st
  | Refused err =>
      showAlert "Failed to copy to clipboard" "danger"
        {| main := main st; timers := timers st; boxes := boxes st;
           now := now st;
           console := console st ++ ["Error copying to clipboard: " +:+ err] |}
  end.

Definition is_due (clock : nat) (t : Timer) : bool := deadline t <=? clock.

(** [dt] milliseconds pass and the due timers fire.  All delays are equal,
    so the timers are due in the order of their creation. *)
Definition advance (dt : nat) (st : State) : State :=
  let clock := now st + dt in
  let due := List.filter (is_due clock) (timers st) in
  let rest := List.filter (fun t => negb (is_due clock t)) (timers st) in
  fold_left (fun st t => remove (target t) st) due
    {| main := main st; timers := rest; boxes := boxes st; now := clock;
       console := console st |}.

(** What happens to the banners: a call of [showAlert], the settling of a
    clipboard write, the close button of a box (the Bootstrap dismissal the
    markup asks for takes the box out of the document), time passing. *)
Inductive Event :=
| ShowAlert (message type : string)
| Copied (o : Settled)
| Close (box : nat)
| Wait (dt : nat).

Definition step (e : Event) (st : State) : State :=
  match e with
  | ShowAlert message type => showAlert message type st
  | Copied o => copyToClipboard_settled o st
  | Close box => remove box st
  | Wait dt => advance dt st
  end.

Definition run (es : list Event) (st : State) : State :=
  fold_left (fun st e => step e st) es st.

(** The page as served, with the given children of [<main>]. *)
Definition served (content : option (list nat)) : State :=
  {| main := option_map (map Served) content; timers := []; boxes := 0;
     now := 0; console := [] |}.

(** An alert box whose timer is pending and due within five seconds. *)
Definition expiring (st : State) (n : Node) : Prop :=
  exists box message type d,
    n = AlertBox box message type
    /\ In {| deadline := d; target := box |} (timers st)
    /\ d <= now st + 5000.

(** [<main>] holds the boxes [bs] above the served content. *)
Definition banners_over (content : option (list nat)) (bs : list Node)
  (st : State) : Prop :=
  main st = option_map (fun l => bs ++ map Served l) content
  /\ Forall (expiring st) bs.

End Banner.

(** ** Facts about the string methods *)

Module StrFacts.
Import Str Spec.

Lemma endsWith_spec (s suffix : string) :
  endsWith s suffix = true <-> has_suffix s suffix.
Proof.
  unfold has_suffix. induction s as [|c r IH]; cbn [endsWith].
  - rewrite orb_false_r, String.eqb_eq. split.
    + intros <-. by exists EmptyString.
    + intros [p Hp]. destruct p; simpl in Hp; [done | discriminate].
  - rewrite orb_true_iff, String.eqb_eq, IH. split.
    + intros [<- | [p ->]]; [by exists EmptyString | by exists (String c p)].
    + intros [[|c' p] Hp]; simpl in Hp; [by left | right].
      injection Hp as _ ->. by exists p.
Qed.

Lemma endsWith_false (s suffix : string) :
  endsWith s suffix = false <-> ~ has_suffix s suffix.
Proof.
  rewrite <- endsWith_spec. destruct (endsWith s suffix); split; congruence.
Qed.

Lemma toUpperCase_empty (s : string) :
  toUpperCase s = EmptyString <-> s = EmptyString.
Proof. destruct s; simpl; split; congruence. Qed.

(** [toUpperCase] turns the small letters into capitals and nothing
    else. *)
Lemma upperChar_capital (c : ascii) : upperChar c = capital c.
Proof. by destruct c as [[] [] [] [] [] [] [] []]. Qed.

Lemma toUpperCase_uppercased (s : string) : toUpperCase s = uppercased s.
Proof.
  induction s as [|c r IH]; simpl; [done |].
  by rewrite upperChar_capital, IH.
Qed.

Lemma append_assoc (a b c : string) : (a +:+ b) +:+ c = a +:+ (b +:+ c).
Proof.
  induction a as [|x a IH]; [reflexivity |].
  change (String x ((a +:+ b) +:+ c) = String x (a +:+ (b +:+ c))).
  by f_equal.
Qed.

Lemma append_empty (a : string) : a +:+ "" = a.
Proof.
  induction a as [|x a IH]; [reflexivity |].
  change (String x (a +:+ "") = String x a). by f_equal.
Qed.

End StrFacts.

(** ** Facts about the markup *)

Module HtmlFacts.
Import Dom Html StrFacts.

Lemma snoc_append (s : string) (c : ascii) :
  snoc s c = s +:+ String c EmptyString.
Proof.
  induction s as [|a s IH]; [reflexivity |].
  change (String a (snoc s c) = String a (s +:+ String c EmptyString)).
  by f_equal.
Qed.

Lemma feed_app (a b : string) (p : Parser) :
  feed p (a +:+ b)
  = match feed p a with
    | Some p' => feed p' b
    | None => None
    end.
Proof.
  revert p. induction a as [|c a IH]; intros p; [reflexivity |].
  change (feed p (String c (a +:+ b))
          = match feed p (String c a) with
            | Some p' => feed p' b
            | None => None
            end).
  cbn [feed]. destruct (consume p c); [apply IH | reflexivity].
Qed.

Lemma plain_cons (c : ascii) (s : string) :
  plain (String c s) = true ->
  replaced c = false /\ holds c q = false /\ holds c "<" = false
  /\ holds c "&" = false /\ plain s = true.
Proof.
  unfold plain. cbn [list_ascii_of_string forallb].
  intros [Hc Hs]%andb_true_iff. apply negb_true_iff in Hc.
  apply orb_false_iff in Hc as [Hc Hamp].
  apply orb_false_iff in Hc as [Hc Hlt].
  apply orb_false_iff in Hc as [Hr Hq].
  repeat split; assumption.
Qed.

(** Character data that is plain stays character data. *)
Lemma data_run (s : string) :
  plain s = true ->
  forall t st fr,
    feed {| tokenizer := Data; pending := t; stack := st; fragment := fr |} s
    = Some {| tokenizer := Data; pending := t +:+ s; stack := st;
              fragment := fr |}.
Proof.
  induction s as [|c s IH]; intros Hs t st fr.
  - by rewrite append_empty.
  - apply plain_cons in Hs as (Hr & _ & Hlt & Hamp & Hs).
    cbn [feed]. unfold consume. rewrite Hr. cbn [tokenizer].
    rewrite Hlt, Hamp. cbn [pending stack fragment]. unfold extend.
    rewrite (IH Hs), snoc_append, append_assoc. reflexivity.
Qed.

(** A plain value stays inside its double quotes. *)
Lemma value_run (v : string) :
  plain v = true ->
  forall tag attrs an av t st fr,
    feed {| tokenizer := AttributeValue tag attrs an av; pending := t;
            stack := st; fragment := fr |} v
    = Some {| tokenizer := AttributeValue tag attrs an (av +:+ v);
              pending := t; stack := st; fragment := fr |}.
Proof.
  induction v as [|c v IH]; intros Hv tag attrs an av t st fr.
  - by rewrite append_empty.
  - apply plain_cons in Hv as (Hr & Hq & _ & Hamp & Hv).
    cbn [feed]. unfold consume. rewrite Hr. cbn [tokenizer].
    rewrite Hq, Hamp. unfold goto. cbn [pending stack fragment].
    rewrite (IH Hv), snoc_append, append_assoc. reflexivity.
Qed.

Lemma collect_text (onclick data : string) (ns : list Node) :
  collect onclick (text_node data ++ ns) = collect onclick ns.
Proof. by destruct data. Qed.

(** One piece of the template is read: a plain value by the lemmas, what
    the template spells out by evaluation. *)
Ltac read_piece :=
  first [ rewrite value_run by assumption
        | rewrite data_run by assumption
        | match goal with
          | |- context [feed ?p ?s] =>
              let r := eval lazy -[String.append add_nodes text_node extend]
                       in (feed p s) in
              change (feed p s) with r
          end ];
  cbv beta iota.

(** The row the template is written to give. *)
Lemma feed_row (onclick : string) (stock : Suggestion) :
  plain onclick = true ->
  well_formed stock = true ->
  forall t fr, exists t' nodes,
    feed {| tokenizer := Data; pending := t; stack := []; fragment := fr |}
      (result_row onclick stock)
    = Some {| tokenizer := Data; pending := t'; stack := [];
              fragment := fr ++ nodes |}
    /\ collect onclick nodes = Some [row_markup stock].
Proof.
  intros Hh Hs t fr. destruct stock as [s nm n b].
  unfold well_formed in Hs. cbn [symbol name nse_symbol bse_symbol] in Hs.
  apply andb_true_iff in Hs as [Hs Hb].
  apply andb_true_iff in Hs as [Hs Hn].
  apply andb_true_iff in Hs as [Hs Hnm].
  unfold result_row, row_markup. cbn [symbol name nse_symbol bse_symbol].
  repeat (rewrite feed_app; read_piece).
  read_piece.
  eexists. eexists. split.
  - unfold add_nodes. rewrite <- app_assoc. reflexivity.
  - rewrite collect_text.
    destruct s, nm; lazy; rewrite String.eqb_refl; reflexivity.
Qed.

Lemma results_html_from (onclick : string) (l : list Suggestion) (html : string) :
  fold_left (fun html stock => html +:+ result_row onclick stock) l html
  = html +:+ results_html onclick l.
Proof.
  unfold results_html. revert html.
  induction l as [|stock l IH]; intros html; cbn [fold_left].
  - by rewrite append_empty.
  - rewrite IH, (IH (EmptyString +:+ _)), append_assoc. reflexivity.
Qed.

Lemma results_html_cons (onclick : string) (stock : Suggestion)
    (l : list Suggestion) :
  results_html onclick (stock :: l)
  = result_row onclick stock +:+ results_html onclick l.
Proof.
  unfold results_html at 1. cbn [fold_left]. apply results_html_from.
Qed.

Lemma collect_app (onclick : string) (a b : list Node) :
  collect onclick (a ++ b)
  = match collect onclick a, collect onclick b with
    | Some x, Some y => Some (x ++ y)
    | _, _ => None
    end.
Proof.
  induction a as [|n a IH]; cbn [app collect].
  - by destruct (collect onclick b).
  - destruct n as [data | tag attrs content]; [exact IH |].
    rewrite IH. destruct (row_of onclick _); [| done].
    destruct (collect onclick a); [| done].
    by destruct (collect onclick b).
Qed.

Lemma feed_rows (onclick : string) (l : list Suggestion) :
  plain onclick = true ->
  forallb well_formed l = true ->
  forall t fr, exists t' nodes,
    feed {| tokenizer := Data; pending := t; stack := []; fragment := fr |}
      (results_html onclick l)
    = Some {| tokenizer := Data; pending := t'; stack := [];
              fragment := fr ++ nodes |}
    /\ collect onclick nodes = Some (map row_markup l).
Proof.
  intros Hh. induction l as [|stock l IH]; intros Hl t fr.
  - exists t, []. by rewrite app_nil_r.
  - cbn [forallb] in Hl. apply andb_true_iff in Hl as [Hs Hl].
    destruct (feed_row onclick stock Hh Hs t fr) as (t1 & n1 & F1 & C1).
    destruct (IH Hl t1 (fr ++ n1)) as (t2 & n2 & F2 & C2).
    exists t2, (n1 ++ n2). split.
    + by rewrite results_html_cons, feed_app, F1, F2, app_assoc.
    + by rewrite collect_app, C1, C2.
Qed.

(** For suggestions whose values are plain, the markup of
    [displaySearchResults] is read by the browser as one result row per
    suggestion, in order, with the suggestion's values in its data
    attributes. *)
Lemma rows_plain (onclick : string) (l : list Suggestion) :
  plain onclick = true ->
  forallb well_formed l = true ->
  rows onclick (results_html onclick l) = Some (map row_markup l).
Proof.
  intros Hh Hl. unfold rows, parse, start.
  destruct (feed_rows onclick l Hh Hl EmptyString []) as (t & ns & -> & C).
  cbn [tokenizer stack flush insert fragment pending]. unfold add_nodes.
  cbn [app]. rewrite collect_app, C.
  destruct t; cbn; by rewrite app_nil_r.
Qed.

End HtmlFacts.


(** ** Submitting the search form *)

Module SubmitFacts.
Import Str Dom Page Spec StrFacts.

Lemma analyze_unselected (st : State) :
  let typed := toUpperCase (trim (stockSearch st)) in
  typed <> EmptyString ->
  truthy (selectedStockSymbol st) = false ->
  effects (analyzeSelectedStock st) =
    effects st ++
    [Navigate ("/analyze/" +:+
       (if negb (endsWith typed ".NS") && negb (endsWith typed ".BO")
        then (if String.eqb (selectedExchange st) "BSE"
              then typed +:+ ".BO" else typed +:+ ".NS")
        else typed))].
Proof.
  intros typed Hne Hsel. unfold analyzeSelectedStock. fold typed.
  apply String.eqb_neq in Hne. rewrite Hne, Hsel. reflexivity.
Qed.

(** C3, as amended.  When the form is submitted with a typed text that is
    not empty after trimming and no dropdown selection is stored, the page
    navigates to /analyze/SYMBOL, where SYMBOL is the typed text, trimmed
    and uppercased, when that already ends in .NS or .BO, and otherwise
    that text followed by .BO for the exchange BSE and by .NS for NSE, and
    for every exchange other than BSE. *)
Theorem C3_submit_target (st : State) :
  let typed := uppercased (trim (stockSearch st)) in
  trim (stockSearch st) <> EmptyString ->
  truthy (selectedStockSymbol st) = false ->
  exists SYMBOL,
    effects (step Submit st) = effects st ++ [Navigate ("/analyze/" +:+ SYMBOL)]
    /\ (suffixed typed -> SYMBOL = typed)
    /\ (~ suffixed typed -> selectedExchange st = "BSE"%string ->
        SYMBOL = typed +:+ ".BO")
    /\ (~ suffixed typed -> selectedExchange st <> "BSE"%string ->
        SYMBOL = typed +:+ ".NS").
Proof.
  intros typed Hne Hsel. simpl step.
  assert (Htyped : typed = toUpperCase (trim (stockSearch st))).
  { unfold typed. by rewrite toUpperCase_uppercased. }
  assert (Hfull : typed <> EmptyString).
  { rewrite Htyped. by rewrite toUpperCase_empty. }
  rewrite Htyped in Hfull.
  eexists. split; [apply (analyze_unselected st Hfull Hsel) |].
  rewrite <- Htyped. unfold suffixed.
  destruct (endsWith typed ".NS") eqn:Ens; simpl.
  { apply endsWith_spec in Ens. repeat split; tauto. }
  destruct (endsWith typed ".BO") eqn:Ebo; simpl.
  { apply endsWith_spec in Ebo. repeat split; tauto. }
  apply endsWith_false in Ens, Ebo.
  repeat split.
  - tauto.
  - intros _ ->. reflexivity.
  - intros _ Hx. apply String.eqb_neq in Hx. by rewrite Hx.
Qed.

(** C3 as it is written fails for a typed text that is not empty but holds
    white space only: the handler reads the field trimmed, shows the
    warning and does not navigate. *)
Lemma C3_blank_text_stays :
  let st := step (Input Primary "   ") loaded in
  stockSearch st <> EmptyString
  /\ truthy (selectedStockSymbol st) = false
  /\ effects (step Submit st) = [Alert "Please enter a stock symbol" "warning"].
Proof. by vm_compute. Qed.

(** The three submissions the specification lists, and two typed in small
    letters with white space around. *)
Example submit_TCS_NSE :
  effects (run [Input Primary "TCS"; Submit] loaded) = [Navigate "/analyze/TCS.NS"].
Proof. reflexivity. Qed.

Example submit_TCS_BSE :
  effects (run [Change "BSE"; Input Primary "TCS"; Submit] loaded)
  = [Navigate "/analyze/TCS.BO"].
Proof. reflexivity. Qed.

Example submit_TCS_NS_BSE :
  effects (run [Change "BSE"; Input Primary "TCS.NS"; Submit] loaded)
  = [Navigate "/analyze/TCS.NS"].
Proof. reflexivity. Qed.

Example submit_small_letters :
  effects (run [Input Primary " tcs "; Submit] loaded)
  = [Navigate "/analyze/TCS.NS"]
  /\ effects (run [Change "BSE"; Input Primary "infy.ns"; Submit] loaded)
     = [Navigate "/analyze/INFY.NS"].
Proof. split; reflexivity. Qed.

Lemma C3_submit_target_witness :
  let st := run [Change "BSE"; Input Primary " tcs "] loaded in
  exists SYMBOL,
    effects (step Submit st) = effects st ++ [Navigate ("/analyze/" +:+ SYMBOL)]
    /\ SYMBOL = "TCS.BO"%string.
Proof.
  intros st.
  destruct (C3_submit_target st) as (SYMBOL & Hnav & _ & Hbse & _).
  - vm_compute. discriminate.
  - reflexivity.
  - exists SYMBOL. split; [exact Hnav |]. apply Hbse; [| reflexivity].
    intros [H | H]; apply endsWith_spec in H; discriminate H.
Defined.

End SubmitFacts.

(** ** Rendering and selecting rows *)

Module DropdownFacts.
Import Str Dom Html Page Spec HtmlFacts.

Lemma rows_render (l : list Suggestion) (d : Dropdown) :
  renders l (set_display true (set_innerHTML (map row_markup l) d)).
Proof.
  unfold renders, set_innerHTML; simpl. split; [done |]. split.
  - by rewrite !length_map.
  - intros i stock Hi. exists (fresh (row_markup stock)).
    rewrite !list_lookup_fmap, Hi. done.
Qed.

Lemma displaySearchResults_rows (l : list Suggestion) (st : State) :
  forallb well_formed l = true ->
  l <> [] ->
  displaySearchResults (JsonArray l) st
  = Normal
      (showSearchDropdown
         (with_searchDropdown
            (set_innerHTML (map row_markup l) (searchDropdown st)) st)).
Proof.
  intros Hw Hl. destruct l as [|stock l]; [done |].
  unfold displaySearchResults, innerHTML.
  by rewrite (rows_plain "selectStock(this)" _ eq_refl Hw).
Qed.

Lemma displayWatchlistSearchResults_rows (l : list Suggestion) (st : State) :
  forallb well_formed l = true ->
  l <> [] ->
  displayWatchlistSearchResults (JsonArray l) st
  = Normal
      (showWatchlistDropdown
         (with_watchlistSearchDropdown
            (set_innerHTML (map row_markup l) (watchlistSearchDropdown st)) st)).
Proof.
  intros Hw Hl. destruct l as [|stock l]; [done |].
  unfold displayWatchlistSearchResults, innerHTML.
  by rewrite (rows_plain "selectWatchlistStock(this)" _ eq_refl Hw).
Qed.



Lemma hide_closes (d : Dropdown) :
  closed
    (set_children
       (map (fun item => if active item then classList_remove item else item)
            (children (set_display false d)))
       (set_display false d)).
Proof.
  split; [done |]. simpl. apply Forall_fmap, Forall_true.
  intros item. simpl. by destruct (active item) eqn:E.
Qed.

(** What [selectStock] leaves behind, for any element. *)
Lemma selectStock_spec (element : Item) (st : State) :
  let st' := selectStock element st in
  selectedStockSymbol st'
  = (if String.eqb (selectedExchange st) "BSE"
     then dataset_bse element else dataset_nse element)
  /\ stockSearch st' = toString (dataset_symbol element)
  /\ closed (searchDropdown st')
  /\ selectedExchange st' = selectedExchange st.
Proof. repeat split; try done. apply Forall_fmap, Forall_true.
  intros item. simpl. by destruct (active item) eqn:E.
Qed.

Lemma selectStock_committed (st : State) (sym nse bse nm : string) (act : bool) :
  committed st sym nse bse
    (selectStock {| markup := ResultRow sym nse bse nm; active := act |} st).
Proof.
  destruct (selectStock_spec {| markup := ResultRow sym nse bse nm; active := act |} st)
    as (Hsel & Hval & Hclosed & _).
  unfold committed. rewrite Hsel. split; [| split; [| split]].
  - intros ->. reflexivity.
  - intros Hne. apply String.eqb_neq in Hne. by rewrite Hne.
  - exact Hval.
  - exact Hclosed.
Qed.

(** C5.  Selecting a result row of the primary dropdown, by a click on it
    or by Enter while it is the highlighted row, stores the row's BSE
    symbol when the selected exchange is BSE and its NSE symbol otherwise,
    writes the row's display symbol into the input and closes the
    dropdown. *)
Theorem C5_selection_commits (st : State) (i : nat)
    (sym nse bse nm : string) (act : bool) :
  children (searchDropdown st) !! i
  = Some {| markup := ResultRow sym nse bse nm; active := act |} ->
  (display (searchDropdown st) = true ->
   committed st sym nse bse (step (Click (OnRow Primary i)) st))
  /\ (querySelector_active (children (searchDropdown st)) = Some i ->
      committed st sym nse bse (step (KeyDown Primary Enter) st)).
Proof.
  intros Hrow. split.
  - intros Hshown. simpl. unfold click, row_at, dropdown_of.
    rewrite Hshown, Hrow.
    apply selectStock_committed.
  - intros Hactive. simpl. unfold stockSearch_keydown.
    rewrite Hactive, Hrow. apply selectStock_committed.
Qed.


Lemma C5_selection_commits_witness :
  let tcs := {| symbol := "TCS"; name := "Tata Consultancy Services";
                nse_symbol := "TCS.NS"; bse_symbol := "TCS.BO" |} in
  let st := run [Change "BSE"; Input Primary "tc"; Wait 300;
                 Deliver 0 (Response 200 (JsonArray [tcs]));
                 KeyDown Primary ArrowDown] loaded in
  committed st "TCS" "TCS.NS" "TCS.BO" (step (Click (OnRow Primary 0)) st)
  /\ committed st "TCS" "TCS.NS" "TCS.BO" (step (KeyDown Primary Enter) st).
Proof.
  intros tcs st.
  destruct (C5_selection_commits st 0 "TCS" "TCS.NS" "TCS.BO"
              "Tata Consultancy Services" true) as [Hclick Henter].
  - reflexivity.
  - split; [apply Hclick | apply Henter]; reflexivity.
Defined.

End DropdownFacts.

(** ** Lookups fail open *)

Module LookupFacts.
Import Str Dom Html Page Spec.

Lemma failed_throws (o : Outcome) (st : State) :
  failed o -> exists error, searchStocks_try o st = Throw error st.
Proof.
  intros [-> | (status & body & -> & Hok)]; simpl; [by eexists |].
  rewrite Hok. by eexists.
Qed.

Lemma failed_throws_watchlist (o : Outcome) (st : State) :
  failed o -> exists error, searchStocksForWatchlist_try o st = Throw error st.
Proof.
  intros [-> | (status & body & -> & Hok)]; simpl; [by eexists |].
  rewrite Hok. by eexists.
Qed.

Ltac settle_log :=
  first [ exists []; split; [by rewrite app_nil_r | constructor]
        | eexists; split; [reflexivity | by repeat constructor] ].

(** Whatever the outcome, a resumed lookup only adds console output to the
    effects. *)
Lemma searchStocks_resume_quiet (o : Outcome) (st : State) :
  exists log, effects (fst (searchStocks_resume o st)) = effects st ++ log
    /\ Forall (fun e => page_level e = false) log.
Proof.
  unfold searchStocks_resume, searchStocks_try, displaySearchResults,
    showSearchError, feather_replace.
  destruct o as [|status [|[|[|stock l]|[]]]]; simpl;
    try destruct (response_ok status); simpl;
    try destruct (feather st); simpl; settle_log.
Qed.

Lemma searchStocksForWatchlist_resume_quiet (o : Outcome) (st : State) :
  exists log,
    effects (fst (searchStocksForWatchlist_resume o st)) = effects st ++ log
    /\ Forall (fun e => page_level e = false) log.
Proof.
  unfold searchStocksForWatchlist_resume, searchStocksForWatchlist_try,
    displayWatchlistSearchResults, showWatchlistSearchError, feather_replace.
  destruct o as [|status [|[|[|stock l]|[]]]]; simpl;
    try destruct (response_ok status); simpl;
    try destruct (feather st); simpl; settle_log.
Qed.

(** Where the Feather library is loaded, the promise of a lookup is
    fulfilled whatever the outcome. *)
Lemma resume_fulfilled (o : Outcome) (st : State) :
  feather st = true ->
  snd (searchStocks_resume o st) = Fulfilled
  /\ snd (searchStocksForWatchlist_resume o st) = Fulfilled.
Proof.
  intros Hf.
  unfold searchStocks_resume, searchStocks_try, displaySearchResults,
    showSearchError, searchStocksForWatchlist_resume,
    searchStocksForWatchlist_try, displayWatchlistSearchResults,
    showWatchlistSearchError, feather_replace.
  destruct o as [|status [|[|[|stock l]|[]]]]; simpl;
    try destruct (response_ok status); simpl; rewrite ?Hf; by split.
Qed.

(** What a failed fetch leaves, with and without the Feather library. *)
Lemma failed_resume (o : Outcome) (st : State) :
  failed o ->
  exists error,
    searchStocks_resume o st
    = (showSearchDropdown
         (with_searchDropdown
            (set_innerHTML [ErrorRow] (searchDropdown st))
            (emit (ConsoleError "Error searching stocks:") st)),
       if feather st then Fulfilled else RejectedWith error)
    /\ searchStocksForWatchlist_resume o st
       = (showWatchlistDropdown
            (with_watchlistSearchDropdown
               (set_innerHTML [ErrorRow] (watchlistSearchDropdown st))
               (emit (ConsoleError "Error searching stocks for watchlist:")
                  st)),
          if feather st then Fulfilled else RejectedWith error)
    /\ error = "ReferenceError: feather is not defined"%string.
Proof.
  intros Hfail. eexists.
  unfold searchStocks_resume, searchStocksForWatchlist_resume.
  destruct (failed_throws o st Hfail) as [e1 ->].
  destruct (failed_throws_watchlist o st Hfail) as [e2 ->].
  unfold showSearchError, showWatchlistSearchError, feather_replace. simpl.
  destruct (feather st); repeat split; reflexivity.
Qed.

(** X23.  With the Feather library loaded a lookup fails open, for every
    outcome of the fetch, in the primary and in the watchlist lookup: a rejected
    fetch or a response that is not a 2xx one leaves the dropdown displayed
    with the error row; a successful response with no suggestion leaves it
    displayed with the row saying that no stocks were found; the lookup's
    promise is fulfilled, so nothing is thrown to its caller; and the only
    effects it adds are console output, neither an alert banner nor a
    navigation. *)
Theorem lookup_fails_open (o : Outcome) (st : State) :
  feather st = true ->
  let primary := searchStocks_resume o st in
  let watchlist := searchStocksForWatchlist_resume o st in
  (failed o ->
   shows [ErrorRow] (searchDropdown (fst primary))
   /\ shows [ErrorRow] (watchlistSearchDropdown (fst watchlist)))
  /\ (found_nothing o ->
      shows [NoStocksRow] (searchDropdown (fst primary))
      /\ shows [NoStocksRow] (watchlistSearchDropdown (fst watchlist)))
  /\ snd primary = Fulfilled
  /\ snd watchlist = Fulfilled
  /\ (exists log, effects (fst primary) = effects st ++ log
        /\ Forall (fun e => page_level e = false) log)
  /\ (exists log, effects (fst watchlist) = effects st ++ log
        /\ Forall (fun e => page_level e = false) log).
Proof.
  intros Hf primary watchlist.
  destruct (resume_fulfilled o st Hf) as [Hp Hw].
  pose proof (searchStocks_resume_quiet o st) as Hpl.
  pose proof (searchStocksForWatchlist_resume_quiet o st) as Hwl.
  repeat match goal with |- _ /\ _ => split end; try assumption.
  - intros Hfail. unfold primary, watchlist.
    destruct (failed_resume o st Hfail) as (error & -> & -> & _).
    split; split; reflexivity.
  - intros (status & -> & Hok). unfold primary, watchlist,
      searchStocks_resume, searchStocksForWatchlist_resume; simpl.
    rewrite Hok. split; split; reflexivity.
Qed.

Lemma lookup_fails_open_witness :
  shows [ErrorRow] (searchDropdown (fst (searchStocks_resume (Response 500 NotJson) loaded)))
  /\ shows [NoStocksRow]
       (searchDropdown
          (fst (searchStocks_resume (Response 200 (JsonArray [])) loaded))).
Proof.
  split.
  - apply (lookup_fails_open (Response 500 NotJson) loaded eq_refl).
    right. exists 500, NotJson. split; reflexivity.
  - apply (lookup_fails_open (Response 200 (JsonArray [])) loaded eq_refl).
    exists 200. split; reflexivity.
Defined.

(** C6 fails on a page that has not loaded the Feather library: after a
    rejected fetch or a response that is not a 2xx one, the error row is
    written and displayed, and then the unguarded [feather.replace()] at the
    end of [showSearchError] (and of [showWatchlistSearchError]) throws out
    of the [catch] block.  The promise of the lookup is rejected, and as
    the timer callback dropped that promise, the rejection is reported on
    the page. *)
Theorem C6_rejects_without_feather (o : Outcome) (st : State) :
  feather st = false ->
  failed o ->
  let primary := searchStocks_resume o st in
  let watchlist := searchStocksForWatchlist_resume o st in
  shows [ErrorRow] (searchDropdown (fst primary))
  /\ snd primary = RejectedWith "ReferenceError: feather is not defined"
  /\ shows [ErrorRow] (watchlistSearchDropdown (fst watchlist))
  /\ snd watchlist = RejectedWith "ReferenceError: feather is not defined"
  /\ forall r request,
       List.find (fun q => rid q =? r) (inflight st) = Some request ->
       effects (step (Deliver r o) st)
       = effects st
         ++ [ConsoleError
               (match owner request with
                | Primary => "Error searching stocks:"
                | Watchlist => "Error searching stocks for watchlist:"
                end);
             Unhandled "ReferenceError: feather is not defined"]
       /\ page_level (Unhandled "ReferenceError: feather is not defined")
          = true.
Proof.
  intros Hf Hfail primary watchlist. unfold primary, watchlist.
  destruct (failed_resume o st Hfail) as (error & Hp & Hw & ->).
  rewrite Hp, Hw, Hf. cbn [fst snd].
  repeat match goal with |- _ /\ _ => split end;
    try reflexivity; try (split; reflexivity).
  intros r request Hfind. cbn [step]. unfold deliver. rewrite Hfind.
  set (st' := with_browser _ _ _ _ _ _ st).
  destruct (failed_resume o st' Hfail) as (error & Hp' & Hw' & ->).
  assert (Hf' : feather st' = false) by exact Hf.
  unfold dropped. destruct (owner request).
  - rewrite Hp', Hf'. split; [| reflexivity].
    cbn. rewrite <- app_assoc. reflexivity.
  - rewrite Hw', Hf'. split; [| reflexivity].
    cbn. rewrite <- app_assoc. reflexivity.
Qed.

Lemma C6_rejects_without_feather_witness :
  let st := without_feather (run [Input Primary "tc"; Wait 300] loaded) in
  snd (searchStocks_resume Rejected st)
  = RejectedWith "ReferenceError: feather is not defined"
  /\ effects (step (Deliver 0 Rejected) st)
     = [Fetch Primary "tc"; ConsoleError "Error searching stocks:";
        Unhandled "ReferenceError: feather is not defined"].
Proof.
  intros st.
  destruct (C6_rejects_without_feather Rejected st)
    as (_ & Hp & _ & _ & Hd).
  - reflexivity.
  - by left.
  - split; [exact Hp |].
    destruct (Hd 0 {| rid := 0; owner := Primary; sent := "tc" |} eq_refl)
      as (He & _).
    exact He.
Defined.

End LookupFacts.

(** ** Debouncing *)

Module DebounceFacts.
Import Str Dom Page Spec DropdownFacts.

Lemma fetches_app (w : Which) (a b : list Effect) :
  fetches w (a ++ b) = fetches w a ++ fetches w b.
Proof. unfold fetches. apply flat_map_app. Qed.

Lemma same_eq (a b : Which) : same a b = true <-> a = b.
Proof. destruct a, b; simpl; split; congruence. Qed.

Lemma owned_iff (w : Which) (t : Timer) :
  owned w t = true <-> owner_of (callback t) = w.
Proof. apply same_eq. Qed.

(** A callback touches neither the timers nor the script's variables, and
    sends exactly its own query. *)
Lemma run_callback_spec (w : Which) (c : Callback) (st : State) :
  let st' := run_callback c st in
  timers st' = timers st /\ nextTimer st' = nextTimer st /\ now st' = now st
  /\ searchTimeout st' = searchTimeout st
  /\ watchlistTimeout st' = watchlistTimeout st
  /\ fetches w (effects st')
     = fetches w (effects st)
       ++ (if same (owner_of c) w then [query_of c] else []).
Proof.
  destruct c as [q|q], w; simpl; rewrite ?fetches_app, ?app_nil_r; done.
Qed.

Lemma fire_all_spec (w : Which) (l : list Timer) (st : State) :
  let st' := fold_left (fun st t => run_callback (callback t) st) l st in
  timers st' = timers st /\ nextTimer st' = nextTimer st /\ now st' = now st
  /\ searchTimeout st' = searchTimeout st
  /\ watchlistTimeout st' = watchlistTimeout st
  /\ fetches w (effects st') = fetches w (effects st) ++ queries w l.
Proof.
  revert st. induction l as [|t l IH]; intros st; simpl.
  - unfold queries; simpl. by rewrite app_nil_r.
  - destruct (IH (run_callback (callback t) st)) as (-> & -> & -> & -> & -> & ->).
    destruct (run_callback_spec w (callback t) st) as (-> & -> & -> & -> & -> & ->).
    repeat split. unfold queries. simpl. fold (owned w t).
    destruct (owned w t); simpl; by rewrite <- ?app_assoc.
Qed.

Lemma insert_by_deadline_perm (t : Timer) (l : list Timer) :
  Permutation (insert_by_deadline t l) (t :: l).
Proof.
  induction l as [|u l IH]; simpl; [done |].
  destruct (deadline t <=? deadline u); [done |].
  rewrite IH. apply perm_swap.
Qed.

Lemma firing_order_perm (l : list Timer) : Permutation (firing_order l) l.
Proof.
  induction l as [|t l IH]; simpl; [done |].
  rewrite insert_by_deadline_perm. by constructor.
Qed.

Lemma filter_perm (f : Timer -> bool) (l l' : list Timer) :
  Permutation l l' -> Permutation (List.filter f l) (List.filter f l').
Proof.
  induction 1 as [|x l l' _ IH|x y l|l l' l'' _ IH1 _ IH2]; simpl.
  - done.
  - destruct (f x); by rewrite IH.
  - destruct (f x), (f y); try done. apply perm_swap.
  - by rewrite IH1.
Qed.

Lemma filter_none (f : Timer -> bool) (l : list Timer) :
  (forall t, In t (List.filter f l) -> f t = true -> False) ->
  List.filter f l = [].
Proof.
  intros H. destruct (List.filter f l) as [|t r] eqn:E; [done |].
  exfalso. apply (H t); [by left |].
  assert (Hin : In t (List.filter f l)) by (rewrite E; by left).
  by apply filter_In in Hin as [_ ?].
Qed.

Lemma queries_none (w : Which) (l : list Timer) :
  List.filter (owned w) l = [] -> queries w (firing_order l) = [].
Proof.
  intros Hl. unfold queries.
  assert (H : Permutation (List.filter (owned w) (firing_order l)) []).
  { rewrite <- Hl. apply filter_perm, firing_order_perm. }
  apply Permutation_nil_r in H. by rewrite H.
Qed.

Lemma queries_one (w : Which) (l : list Timer) (t : Timer) :
  List.filter (owned w) l = [t] ->
  queries w (firing_order l) = [query_of (callback t)].
Proof.
  intros Hl. unfold queries.
  assert (H : Permutation [t] (List.filter (owned w) (firing_order l))).
  { rewrite <- Hl. symmetry. apply filter_perm, firing_order_perm. }
  apply Permutation_length_1_inv in H. by rewrite H.
Qed.

(** What the passing of [dt] milliseconds does. *)
Lemma advance_spec (w : Which) (dt : nat) (st : State) :
  let st' := advance dt st in
  let due := List.filter (is_due (now st + dt)) (timers st) in
  timers st' = List.filter (fun t => negb (is_due (now st + dt) t)) (timers st)
  /\ now st' = now st + dt
  /\ timeout_of w st' = timeout_of w st
  /\ fetches w (effects st')
     = fetches w (effects st) ++ queries w (firing_order due).
Proof.
  unfold advance.
  match goal with |- context [fold_left ?f ?l ?s] =>
    destruct (fire_all_spec w l s) as (Ht & _ & Hn & Hs & Hw & Hf) end.
  simpl in *. rewrite Ht, Hn, Hf. repeat split. by destruct w.
Qed.

(** A keystroke that leaves fewer than two characters: the dropdown is
    closed, and nothing else of the debounce state changes. *)
Lemma input_short (w : Which) (text : string) (st : State) :
  String.length (trim text) < 2 ->
  let st' := step (Input w text) st in
  timers st' = timers st /\ effects st' = effects st
  /\ timeout_of w st' = timeout_of w st /\ now st' = now st
  /\ text_of w st' = text /\ closed (dropdown_of w st').
Proof.
  intros Hlen. apply Nat.ltb_lt in Hlen.
  destruct w; simpl; unfold stockSearch_input, watchlistSymbol_input; simpl;
    rewrite Hlen; repeat split; try done; apply hide_closes.
Qed.

(** A keystroke that leaves at least two characters: the timer the
    variable names is cleared and a new one is armed for the trimmed text. *)
Lemma input_long (w : Which) (text : string) (st : State) :
  2 <= String.length (trim text) ->
  let st' := step (Input w text) st in
  timers st'
  = cleared (timeout_of w st) (timers st)
    ++ [{| tid := nextTimer st; deadline := now st + 300;
           callback := callback_of w (trim text) |}]
  /\ effects st' = effects st
  /\ timeout_of w st' = Some (nextTimer st) /\ now st' = now st
  /\ text_of w st' = text /\ dropdown_of w st' = dropdown_of w st.
Proof.
  intros Hlen. apply Nat.ltb_ge in Hlen.
  destruct w; simpl; unfold stockSearch_input, watchlistSymbol_input; simpl;
    rewrite Hlen.
  - by destruct (searchTimeout st).
  - by destruct (watchlistTimeout st).
Qed.

Lemma owner_callback_of (w : Which) (q : string) : owner_of (callback_of w q) = w.
Proof. by destruct w. Qed.

Lemma query_callback_of (w : Which) (q : string) : query_of (callback_of w q) = q.
Proof. by destruct w. Qed.

(** Under [debounced], clearing the variable's timer leaves no timer of
    the widget. *)
Lemma cleared_none (w : Which) (T : nat) (F : list string) (st : State) :
  debounced w T F st ->
  List.filter (owned w) (cleared (timeout_of w st) (timers st)) = [].
Proof.
  intros [_ Hown].
  assert (H : Forall (fun t => owned w t = false)
                (cleared (timeout_of w st) (timers st))).
  { apply List.Forall_forall. intros t Hin.
    destruct (owned w t) eqn:E; [| done]. apply owned_iff in E.
    unfold cleared in Hin. destruct (timeout_of w st) as [i|] eqn:Et.
    - apply filter_In in Hin as [Hin Hne].
      destruct (Hown t Hin E) as [Heq _].
      assert (i = tid t) as -> by congruence.
      by rewrite Nat.eqb_refl in Hne.
    - destruct (Hown t Hin E) as [Heq _]. congruence. }
  induction H as [|t l Ht _ IH]; simpl; [done |]. by rewrite Ht.
Qed.

Lemma debounced_input (w : Which) (T : nat) (F : list string)
    (text : string) (st : State) :
  debounced w T F st -> T <= now st + 300 ->
  debounced w T F (step (Input w text) st)
  /\ now (step (Input w text) st) = now st.
Proof.
  intros Hd HT. destruct (le_lt_dec 2 (String.length (trim text))) as [Hlen|Hlen].
  - destruct (input_long w text st Hlen) as (Ht & He & Hto & Hn & _).
    split; [| done]. split; [rewrite He; apply Hd |].
    intros t Hin Hw. rewrite Ht in Hin. apply in_app_or in Hin as [Hin|Hin].
    + pose proof (cleared_none w T F st Hd) as Hnone.
      assert (Hin' : In t (List.filter (owned w)
                            (cleared (timeout_of w st) (timers st)))).
      { apply filter_In. split; [done |]. by apply owned_iff. }
      rewrite Hnone in Hin'. destruct Hin'.
    + destruct Hin as [<- | []]. rewrite Hto. simpl. split; [done | lia].
  - destruct (input_short w text st Hlen) as (Ht & He & Hto & Hn & _).
    split; [| done]. split; [rewrite He; apply Hd |].
    intros t Hin Hw. rewrite Ht in Hin. rewrite Hto. by apply Hd.
Qed.

Lemma debounced_wait (w : Which) (T : nat) (F : list string)
    (dt : nat) (st : State) :
  debounced w T F st -> now st + dt < T ->
  debounced w T F (step (Wait dt) st)
  /\ now (step (Wait dt) st) = now st + dt.
Proof.
  intros [HF Hown] HT. simpl.
  destruct (advance_spec w dt st) as (Ht & Hn & Hto & Hf).
  split; [| done]. split.
  - rewrite Hf, queries_none, app_nil_r; [done |].
    apply filter_none. intros t Hin Hw.
    apply filter_In in Hin as [Hin Hdue]. apply filter_In in Hin as [Hin Hdue'].
    apply owned_iff in Hw. destruct (Hown t Hin Hw) as [_ Hlate].
    unfold is_due in Hdue'. apply Nat.leb_le in Hdue'. lia.
  - intros t Hin Hw. rewrite Ht in Hin. apply filter_In in Hin as [Hin _].
    rewrite Hto. by apply Hown.
Qed.

(** After a keystroke that leaves at least two characters, the widget has
    exactly one pending timer, and it fires once 300 ms have passed. *)
Lemma debounced_fire (w : Which) (T : nat) (F : list string)
    (text : string) (d : nat) (st : State) :
  debounced w T F st -> 2 <= String.length (trim text) -> 300 <= d ->
  fetches w (effects (step (Wait d) (step (Input w text) st))) = F ++ [trim text].
Proof.
  intros Hd Hlen Hwait.
  pose proof (cleared_none w T F st Hd) as Hnone.
  destruct (input_long w text st Hlen) as (Ht & He & _ & Hn & _).
  set (st1 := step (Input w text) st) in *.
  set (armed := {| tid := nextTimer st; deadline := now st + 300;
                   callback := callback_of w (trim text) |}) in *.
  cbn [step]. destruct (advance_spec w d st1) as (_ & _ & _ & ->).
  rewrite He. destruct Hd as [-> _]. f_equal.
  rewrite (queries_one w _ armed).
  { simpl. by rewrite query_callback_of. }
  rewrite Ht, !List.filter_app. simpl.
  replace (is_due (now st1 + d) armed) with true
    by (symmetry; apply Nat.leb_le; simpl; lia).
  simpl. unfold owned at 2. simpl. rewrite owner_callback_of.
  replace (same w w) with true by (by destruct w).
  rewrite filter_none; [done |].
  intros t Hin Hw. apply filter_In in Hin as [Hin _].
  apply filter_In in Hin as [Hin _].
  assert (Hin' : In t (List.filter (owned w)
                        (cleared (timeout_of w st) (timers st)))).
  { apply filter_In. by split. }
  rewrite Hnone in Hin'. destruct Hin'.
Qed.

Lemma last_cons {A : Type} (a d : A) (l : list A) :
  List.last (a :: l) d = List.last l a.
Proof.
  revert a d. induction l as [|b l IH]; intros a d; [done |].
  change (List.last (a :: b :: l) d) with (List.last (b :: l) d).
  by rewrite (IH b d), (IH b a).
Qed.

Lemma burst_fires (w : Which) (T : nat) (F : list string) (d : nat)
    (rest : list (nat * string)) (first : string) (st : State) :
  debounced w T F st ->
  T <= now st + 300 ->
  now st + span rest < T ->
  2 <= String.length (trim (final_text first rest)) ->
  300 <= d ->
  fetches w (effects (run (keystrokes w first rest ++ [Wait d]) st))
  = F ++ [trim (final_text first rest)].
Proof.
  revert first st. induction rest as [|[gap text] rest IH];
    intros first st Hd Hlo Hhi Hlen Hwait.
  - simpl. by apply (debounced_fire w T F).
  - unfold final_text in *. cbn [map snd] in Hlen |- *.
    rewrite last_cons in Hlen |- *.
    unfold span in Hhi. cbn [map fst] in Hhi.
    change (list_sum (gap :: map fst rest)) with (gap + span rest) in Hhi.
    destruct (debounced_input w T F first st Hd Hlo) as [Hd1 Hn1].
    destruct (debounced_wait w T F gap _ Hd1) as [Hd2 Hn2]; [rewrite Hn1; lia |].
    rewrite Hn1 in Hn2.
    change (run (keystrokes w first ((gap, text) :: rest) ++ [Wait d]) st)
      with (run (keystrokes w text rest ++ [Wait d])
              (step (Wait gap) (step (Input w first) st))).
    apply IH; try done; rewrite Hn2; lia.
Qed.

(** C2, as amended.  On a widget with no debounce timer pending, a burst
    of N >= 1 keystrokes spanning less than 300 ms whose last keystroke
    leaves a text of at least two characters after trimming makes the
    widget send exactly one request to the search endpoint once 300 ms
    have passed, and that request carries the trimmed text the last
    keystroke left. *)
Theorem C2_burst_sends_one (w : Which) (st : State) (first : string)
    (rest : list (nat * string)) (d : nat) :
  pending w st = [] ->
  span rest < 300 ->
  2 <= String.length (trim (final_text first rest)) ->
  300 <= d ->
  fetches w (effects (run (keystrokes w first rest ++ [Wait d]) st))
  = fetches w (effects st) ++ [trim (final_text first rest)].
Proof.
  intros Hnone Hspan Hlen Hwait.
  apply (burst_fires w (now st + 300)); try done; try lia.
  split; [done |]. intros t Hin Hw.
  assert (Hin' : In t (pending w st)).
  { apply filter_In. split; [done |]. by apply owned_iff. }
  rewrite Hnone in Hin'. destruct Hin'.
Qed.

(** C2 as it is written fails: one keystroke that leaves a single
    character is a burst of N = 1 keystrokes, and no request is sent. *)
Lemma C2_short_burst_sends_none :
  ~ (forall (w : Which) (first : string) (rest : list (nat * string)) (d : nat),
       span rest < 300 -> 300 <= d ->
       fetches w (effects (run (keystrokes w first rest ++ [Wait d]) loaded))
       = [trim (final_text first rest)]).
Proof.
  intros H. specialize (H Primary "a"%string [] 300).
  assert (Hspan : span [] < 300) by (unfold span; simpl; lia).
  specialize (H Hspan (le_n 300)). vm_compute in H. discriminate H.
Qed.

(** C1 on the code.  The user types "ab" and, 100 ms later, deletes a
    character.  The field then holds fewer than two characters, and yet
    300 ms later the widget has sent the request for "ab" and, in the
    primary widget, its dropdown is displayed again. *)
Theorem C1_stale_timer_fires :
  let typed w := [Input w "ab"; Wait 100; Input w "a"; Wait 300] in
  (String.length (trim (text_of Primary (run (typed Primary) loaded))) < 2
   /\ fetches Primary (effects (run (typed Primary) loaded)) = ["ab"%string]
   /\ display (searchDropdown (run (typed Primary) loaded)) = true)
  /\ (String.length (trim (text_of Watchlist (run (typed Watchlist) loaded))) < 2
      /\ fetches Watchlist (effects (run (typed Watchlist) loaded)) = ["ab"%string]).
Proof.
  simpl. repeat split; lia.
Qed.

Lemma C2_burst_sends_one_witness :
  fetches Primary
    (effects (run (keystrokes Primary "t" [(100, "tc"); (150, "tcs ")]
                   ++ [Wait 300]) loaded))
  = fetches Primary (effects loaded) ++ ["tcs"%string].
Proof.
  apply (C2_burst_sends_one Primary loaded "t" [(100, "tc"); (150, "tcs ")] 300).
  - reflexivity.
  - unfold span. simpl. lia.
  - simpl. lia.
  - lia.
Defined.

End DebounceFacts.

(** ** The stored selection *)

Module SelectionFacts.
Import Str Dom Page Spec StrFacts.








End SelectionFacts.

(** ** The two widgets compared *)

Module MirrorFacts.
Import Str Dom Page Spec DebounceFacts.

Lemma same_traffic_untouched (s1 s1' s2 s2' : State) :
  same_traffic s1 s2 -> untouched s1 s1' -> untouched s2 s2' ->
  same_traffic s1' s2'.
Proof.
  intros (? & ? & ? & ? & ? & ? & ? & Hf)
    (? & ? & ? & ? & ? & ? & ? & Hleft) (? & ? & ? & ? & ? & ? & ? & Hright).
  repeat split; try congruence; intros w; by rewrite Hleft, Hright.
Qed.

Ltac untouched_by_cases :=
  repeat case_match; simplify_eq;
  repeat split; try done;
  intros; simpl; rewrite ?fetches_app; simpl; rewrite ?app_nil_r; done.

Lemma analyze_untouched (st : State) : untouched st (analyzeSelectedStock st).
Proof. unfold analyzeSelectedStock. untouched_by_cases. Qed.

Lemma keydown_untouched (w : Which) (key : Key) (st : State) :
  untouched st (step (KeyDown w key) st).
Proof.
  destruct w; simpl; unfold stockSearch_keydown, watchlistSymbol_keydown;
    destruct key; repeat case_match;
    try apply analyze_untouched; untouched_by_cases.
Qed.

Lemma click_untouched (target : Target) (st : State) :
  untouched st (step (Click target) st).
Proof.
  simpl. unfold click, document_click, row_at, row_onclick, dropdown_of.
  destruct target as [[]|[] i|]; simpl; untouched_by_cases.
Qed.

Lemma insert_flip (t : Timer) (l : list Timer) :
  insert_by_deadline (flip_timer t) (map flip_timer l)
  = map flip_timer (insert_by_deadline t l).
Proof.
  induction l as [|u l IH]; simpl; [done |].
  destruct (deadline t <=? deadline u); simpl; [done | by rewrite IH].
Qed.

Lemma firing_order_flip (l : list Timer) :
  firing_order (map flip_timer l) = map flip_timer (firing_order l).
Proof.
  induction l as [|t l IH]; simpl; [done |]. by rewrite IH, insert_flip.
Qed.

Lemma traffic_input (w : Which) (text : string) (s1 s2 : State) :
  same_traffic s1 s2 ->
  same_traffic (step (Input (flip w) text) s1) (step (Input w text) s2).
Proof.
  intros Hs. pose proof Hs as (Hst & Hwt & Ht & Hnt & Hn & Hi & Hnr & Hf).
  destruct w; simpl; unfold stockSearch_input, watchlistSymbol_input; simpl;
    destruct (String.length (trim text) <? 2);
    try (eapply same_traffic_untouched; [exact Hs | by repeat split ..]).
  - unfold same_traffic, clearTimeout. rewrite Hwt.
    destruct (searchTimeout s2); simpl;
      rewrite ?Ht, ?Hnt, ?Hn, ?Hi, ?Hnr, ?map_app, ?filter_map_swap;
      repeat split; done.
  - unfold same_traffic, clearTimeout. rewrite Hst.
    destruct (watchlistTimeout s2); simpl;
      rewrite ?Ht, ?Hnt, ?Hn, ?Hi, ?Hnr, ?map_app, ?filter_map_swap;
      repeat split; done.
Qed.

Lemma traffic_callback (t : Timer) (s1 s2 : State) :
  same_traffic s1 s2 ->
  same_traffic (run_callback (callback (flip_timer t)) s1)
    (run_callback (callback t) s2).
Proof.
  intros (Hst & Hwt & Ht & Hnt & Hn & Hi & Hnr & Hf).
  destruct t as [i dl [q|q]]; unfold same_traffic; simpl;
    rewrite ?Hi, ?Hnr, ?map_app; repeat split; try done;
    intros w; rewrite !fetches_app, Hf; by destruct w.
Qed.

Lemma traffic_fire_all (l : list Timer) (s1 s2 : State) :
  same_traffic s1 s2 ->
  same_traffic
    (fold_left (fun st t => run_callback (callback t) st) (map flip_timer l) s1)
    (fold_left (fun st t => run_callback (callback t) st) l s2).
Proof.
  revert s1 s2. induction l as [|t l IH]; intros s1 s2 Hs; simpl; [done |].
  by apply IH, traffic_callback.
Qed.

Lemma traffic_wait (dt : nat) (s1 s2 : State) :
  same_traffic s1 s2 ->
  same_traffic (step (Wait dt) s1) (step (Wait dt) s2).
Proof.
  intros (Hst & Hwt & Ht & Hnt & Hn & Hi & Hnr & Hf). simpl. unfold advance.
  rewrite Ht, Hn, !filter_map_swap, firing_order_flip.
  apply traffic_fire_all. unfold same_traffic. simpl.
  rewrite ?Hnt. repeat split; done.
Qed.

Lemma find_flip (r : nat) (l : list Request) :
  List.find (fun q => rid q =? r) (map flip_request l)
  = option_map flip_request (List.find (fun q => rid q =? r) l).
Proof.
  induction l as [|q l IH]; simpl; [done |].
  by destruct (rid q =? r).
Qed.

Lemma resume_untouched (o : Outcome) (st : State) :
  untouched st (dropped (searchStocks_resume o st))
  /\ untouched st (dropped (searchStocksForWatchlist_resume o st)).
Proof.
  unfold dropped, searchStocks_resume, searchStocksForWatchlist_resume,
    searchStocks_try, searchStocksForWatchlist_try,
    displaySearchResults, displayWatchlistSearchResults,
    showSearchError, showWatchlistSearchError, feather_replace.
  split; untouched_by_cases.
Qed.

Lemma traffic_deliver (r : nat) (o : Outcome) (s1 s2 : State) :
  same_traffic s1 s2 ->
  same_traffic (step (Deliver r o) s1) (step (Deliver r o) s2).
Proof.
  intros Hs. pose proof Hs as (Hst & Hwt & Ht & Hnt & Hn & Hi & Hnr & Hf).
  simpl. unfold deliver. rewrite Hi, find_flip.
  destruct (List.find (fun q => rid q =? r) (inflight s2)) as [q|]; simpl;
    [| done].
  match goal with
  | |- same_traffic (dropped (match _ with Primary => _ _ ?a | _ => _ end))
         (dropped (match _ with Primary => _ _ ?b | _ => _ end)) =>
      assert (Hab : same_traffic a b)
  end.
  { unfold same_traffic. simpl.
    rewrite ?Ht, ?Hnt, ?Hn, ?Hnr, ?filter_map_swap. repeat split; done. }
  destruct (owner q); simpl;
    (eapply same_traffic_untouched; [exact Hab | apply resume_untouched ..]).
Qed.

(** Every event leaves the traffic of the two widgets exchanged. *)
Lemma traffic_step (e : Event) (s1 s2 : State) :
  same_traffic s1 s2 ->
  same_traffic (step (flip_event e) s1) (step e s2).
Proof.
  intros Hs. destruct e as [w text|w key|target| |exchange|dt|r o].
  - by apply traffic_input.
  - eapply same_traffic_untouched; [exact Hs | apply keydown_untouched ..].
  - eapply same_traffic_untouched; [exact Hs | apply click_untouched ..].
  - eapply same_traffic_untouched; [exact Hs | apply analyze_untouched ..].
  - eapply same_traffic_untouched; [exact Hs | by repeat split ..].
  - by apply traffic_wait.
  - by apply traffic_deliver.
Qed.

Ltac same_view_by_cases :=
  repeat case_match; simplify_eq; unfold same_view; simpl; repeat split;
  try done; congruence.

Lemma view_input (w : Which) (text : string) (s1 s2 : State) :
  same_view s1 s2 ->
  same_view (step (Input (flip w) text) s1) (step (Input w text) s2).
Proof.
  intros (Hp & Hw & Hdp & Hdw).
  destruct w; simpl;
    unfold stockSearch_input, watchlistSymbol_input, clearTimeout,
      hideSearchDropdown, hideWatchlistDropdown; simpl;
    rewrite ?Hp, ?Hw, ?Hdp, ?Hdw; same_view_by_cases.
Qed.

Lemma view_keydown (w : Which) (key : Key) (s1 s2 : State) :
  same_view s1 s2 ->
  same_view (step (KeyDown (flip w) key) s1) (step (KeyDown w key) s2).
Proof.
  intros (Hp & Hw & Hdp & Hdw).
  destruct w; simpl;
    unfold stockSearch_keydown, watchlistSymbol_keydown, analyzeSelectedStock,
      selectStock, selectWatchlistStock,
      hideSearchDropdown, hideWatchlistDropdown; simpl;
    rewrite ?Hp, ?Hw, ?Hdp, ?Hdw; destruct key; same_view_by_cases.
Qed.

Lemma view_click (target : Target) (s1 s2 : State) :
  same_view s1 s2 ->
  same_view (step (Click (flip_target target)) s1) (step (Click target) s2).
Proof.
  intros (Hp & Hw & Hdp & Hdw).
  destruct target as [[]|[] i|]; simpl;
    unfold click, document_click, row_at, row_onclick, dropdown_of,
      selectStock, selectWatchlistStock,
      hideSearchDropdown, hideWatchlistDropdown; simpl;
    rewrite ?Hp, ?Hw, ?Hdp, ?Hdw; same_view_by_cases.
Qed.

(** The rows a lookup writes are the same in both widgets when the
    values of the answer hold no markup. *)
Lemma resume_same_rows (o : Outcome) (s1 s2 : State) :
  plain_answer (Deliver 0 o) = true ->
  exists ms,
    searchDropdown (dropped (searchStocks_resume o s1))
    = set_display true (set_innerHTML ms (searchDropdown s1))
    /\ watchlistSearchDropdown (dropped (searchStocksForWatchlist_resume o s2))
       = set_display true (set_innerHTML ms (watchlistSearchDropdown s2))
    /\ stockSearch (dropped (searchStocks_resume o s1)) = stockSearch s1
    /\ watchlistSymbol (dropped (searchStocks_resume o s1)) = watchlistSymbol s1
    /\ watchlistSearchDropdown (dropped (searchStocks_resume o s1))
       = watchlistSearchDropdown s1
    /\ stockSearch (dropped (searchStocksForWatchlist_resume o s2))
       = stockSearch s2
    /\ watchlistSymbol (dropped (searchStocksForWatchlist_resume o s2))
       = watchlistSymbol s2
    /\ searchDropdown (dropped (searchStocksForWatchlist_resume o s2))
       = searchDropdown s2.
Proof.
  intros Hplain.
  unfold dropped, searchStocks_resume, searchStocksForWatchlist_resume,
    searchStocks_try, searchStocksForWatchlist_try,
    showSearchError, showWatchlistSearchError, feather_replace.
  destruct o as [|status [|[|l|[]]]]; cbn [negb];
    try destruct (response_ok status); cbn [negb];
    try (exists [ErrorRow]; simpl;
         destruct (feather s1), (feather s2); by repeat split).
  - exists [NoStocksRow]. by repeat split.
  - destruct l as [|stock l]; [exists [NoStocksRow]; by repeat split |].
    cbn [plain_answer] in Hplain.
    rewrite DropdownFacts.displaySearchResults_rows,
      DropdownFacts.displayWatchlistSearchResults_rows by done.
    exists (map Html.row_markup (stock :: l)). by repeat split.
  - exists [NoStocksRow]. by repeat split.
Qed.

Lemma view_deliver (r : nat) (o : Outcome) (s1 s2 : State) :
  plain_answer (Deliver r o) = true ->
  mirrored s1 s2 ->
  same_view (step (Deliver r o) s1) (step (Deliver r o) s2).
Proof.
  intros Hplain [(_ & _ & _ & _ & _ & Hi & _) (Hp & Hw & Hdp & Hdw)].
  simpl. unfold deliver. rewrite Hi, find_flip.
  destruct (List.find (fun q => rid q =? r) (inflight s2)) as [q|]; simpl;
    [| done].
  set (a := with_browser _ _ _ _ _ _ s1).
  set (b := with_browser _ _ _ _ _ _ s2).
  unfold same_view. destruct (owner q); simpl.
  - destruct (resume_same_rows o b a Hplain)
      as (ms & -> & -> & -> & -> & -> & -> & -> & ->).
    subst a b. simpl. rewrite Hp, Hw, Hdp, Hdw. by repeat split.
  - destruct (resume_same_rows o a b Hplain)
      as (ms & -> & -> & -> & -> & -> & -> & -> & ->).
    subst a b. simpl. rewrite Hp, Hw, Hdp, Hdw. by repeat split.
Qed.

(** The passing of time that fires no timer leaves what is on screen. *)
Lemma view_wait (dt : nat) (s1 s2 : State) :
  starts_lookup (Wait dt) s2 = false ->
  mirrored s1 s2 ->
  same_view (step (Wait dt) s1) (step (Wait dt) s2).
Proof.
  intros Hdue [(_ & _ & Ht & _ & Hn & _) Hv]. cbn [starts_lookup] in Hdue.
  assert (Hnone : List.filter (is_due (now s2 + dt)) (timers s2) = []).
  { apply filter_none. intros t [Hin _]%filter_In Ht'.
    assert (Hex : existsb (is_due (now s2 + dt)) (timers s2) = true)
      by (apply existsb_exists; by exists t).
    congruence. }
  simpl. unfold advance. rewrite Ht, Hn, !filter_map_swap.
  change (List.filter (fun a => is_due (now s2 + dt) (flip_timer a)) (timers s2))
    with (List.filter (is_due (now s2 + dt)) (timers s2)).
  rewrite Hnone. exact Hv.
Qed.

(** Away from the start of a lookup, every event leaves the two widgets
    exchanged. *)
Lemma mirrored_step (e : Event) (s1 s2 : State) :
  starts_lookup e s2 = false ->
  plain_answer e = true ->
  mirrored s1 s2 ->
  mirrored (step (flip_event e) s1) (step e s2).
Proof.
  intros He Hplain Hm. split; [apply traffic_step, Hm |].
  destruct e as [w text|w key|target| |exchange|dt|r o].
  - apply view_input, Hm.
  - apply view_keydown, Hm.
  - apply view_click, Hm.
  - destruct Hm as [_ (Hp & Hw & Hdp & Hdw)]. simpl.
    unfold analyzeSelectedStock. same_view_by_cases.
  - apply Hm.
  - by apply view_wait.
  - by apply view_deliver.
Qed.

(** C4, as amended.  Started from exchanged states, the two widgets answer
    every sequence of events, each made on the primary widget in one run
    and on the watchlist widget in the other, with the same debounce timers
    and the same requests; and as long as no lookup starts in between and
    the answers rendered hold no markup in their values, they also keep the
    same input text and the same dropdown rows, highlight and display, for
    input, ArrowDown, ArrowUp, Enter, Escape, clicks on rows and outside,
    the passing of time, and the rendering of a lookup's outcome. *)
Theorem C4_widgets_mirror (es : list Event) (s1 s2 : State) :
  (same_traffic s1 s2 ->
   same_traffic (run (map flip_event es) s1) (run es s2))
  /\ (calm es s2 ->
      mirrored s1 s2 ->
      mirrored (run (map flip_event es) s1) (run es s2)).
Proof.
  split.
  - revert s1 s2. induction es as [|e es IH]; intros s1 s2 Hs; [done |].
    simpl. by apply IH, traffic_step.
  - revert s1 s2.
    induction es as [|e es IH]; intros s1 s2 Hes Hm; [done |].
    destruct Hes as (He & Hplain & Hes).
    simpl. apply IH; [done |]. by apply mirrored_step.
Qed.

(** C4 as it is written fails at Enter with no highlighted row and a text
    in the input: the primary widget submits and the page navigates, the
    watchlist widget does nothing. *)
Lemma C4_enter_differs :
  effects (run [Input Primary "TCS"; KeyDown Primary Enter] loaded)
  = [Navigate "/analyze/TCS.NS"]
  /\ effects (run [Input Watchlist "TCS"; KeyDown Watchlist Enter] loaded) = []
  /\ run [Input Watchlist "TCS"; KeyDown Watchlist Enter] loaded
     = run [Input Watchlist "TCS"] loaded.
Proof. by vm_compute. Qed.

(** When a lookup starts, only the primary widget shows the loading row. *)
Example loading_row_differs :
  children (searchDropdown (run [Input Primary "tc"; Wait 300] loaded))
  = [fresh LoadingRow]
  /\ children (watchlistSearchDropdown
                 (run [Input Watchlist "tc"; Wait 300] loaded)) = [].
Proof. by vm_compute. Qed.

(** The two templates name different handlers, so a value that brings a
    handler of its own is read differently in the two widgets: here the
    row of the primary dropdown is a result row as the template writes it,
    and the row of the watchlist dropdown is not. *)
Example handler_in_value_differs :
  let stock := {| symbol := "X"; name := "X Ltd"; nse_symbol := "X.NS";
                  bse_symbol := "X.BO" +:+ Html.q +:+ " onclick="
                                +:+ Html.q +:+ "selectStock(this)"
                                +:+ Html.q +:+ ">" |} in
  Html.innerHTML "selectStock(this)"
    (Html.results_html "selectStock(this)" [stock])
  = [ResultRow "X" "X.NS" "X.BO" "X Ltd"]
  /\ Html.innerHTML "selectWatchlistStock(this)"
       (Html.results_html "selectWatchlistStock(this)" [stock])
     = [Unresolved].
Proof. by vm_compute. Qed.

Lemma C4_widgets_mirror_witness :
  let tcs := {| symbol := "TCS"; name := "Tata Consultancy Services";
                nse_symbol := "TCS.NS"; bse_symbol := "TCS.BO" |} in
  let infy := {| symbol := "INFY"; name := "Infosys";
                 nse_symbol := "INFY.NS"; bse_symbol := "INFY.BO" |} in
  let found w := [Input w "t"; Input w "tc"; Wait 300;
                  Deliver 0 (Response 200 (JsonArray [tcs; infy]))] in
  let es := [KeyDown Primary ArrowDown; KeyDown Primary ArrowDown;
             KeyDown Primary ArrowDown; KeyDown Primary ArrowUp;
             KeyDown Primary Enter; Input Primary "in";
             KeyDown Primary Escape; Click Elsewhere] in
  mirrored (run (map flip_event es) (run (found Watchlist) loaded))
    (run es (run (found Primary) loaded)).
Proof.
  intros tcs infy found es.
  apply (C4_widgets_mirror es (run (found Watchlist) loaded)
           (run (found Primary) loaded)).
  - by vm_compute.
  - repeat split; intros []; reflexivity.
Defined.

End MirrorFacts.

(** ** The chart builders *)

Module ChartFacts.
Import Charts Spec.

Lemma Math_max_from (v : list Z) (a : Z) :
  exists m, fold_left (fun m x => max2 m (Fin x)) v (Fin a) = Fin m
    /\ (m = a \/ In m v) /\ (a <= m)%Z /\ Forall (fun x => (x <= m)%Z) v.
Proof.
  revert a. induction v as [|x v IH]; intros a; simpl.
  - exists a. repeat split; [by left | lia | constructor].
  - destruct (IH (Z.max a x)) as (m & -> & Hin & Hle & Hall).
    exists m. repeat split.
    + destruct Hin as [-> | Hin]; [| by right; right].
      destruct (Z.max_spec a x) as [[_ ->] | [_ ->]]; [right; by left | by left].
    + lia.
    + constructor; [lia | done].
Qed.

Lemma Math_max_peak (v : list Z) :
  v <> [] -> exists m, Math_max v = Fin m /\ peak v m.
Proof.
  destruct v as [|x v]; [done |]. intros _. unfold Math_max. simpl.
  destruct (Math_max_from v x) as (m & -> & Hin & Hle & Hall).
  exists m. split; [done |]. split.
  - destruct Hin as [-> | Hin]; [by left | by right].
  - by constructor.
Qed.

Lemma peak_unique (v : list Z) (m m' : Z) : peak v m -> peak v m' -> m = m'.
Proof.
  intros [Hin Hall] [Hin' Hall'].
  rewrite List.Forall_forall in Hall, Hall'.
  specialize (Hall m' Hin'). specialize (Hall' m Hin). lia.
Qed.

Lemma filter_keeps (f : Instance -> bool) (l : list Instance) :
  (forall i, f i = true) -> List.filter f l = l.
Proof. intros Hf. induction l; simpl; rewrite ?Hf; congruence. Qed.

Lemma complete_payload (payload : Payload) :
  is_complete payload = true -> exists chartData, payload = complete chartData.
Proof.
  destruct payload as [d [p|] [i|]]; try discriminate. intros _.
  by exists {| dates := d; prices := p; indicators := i |}.
Qed.

(** What an accepted call of the price-chart builder leaves. *)
Lemma initializePriceChart_builds (chartData : ChartData) (symbol : string)
    (st : State) :
  has_priceCanvas st = true ->
  let st' := initializePriceChart (Some (complete chartData)) symbol st in
  priceChart st' = Some (nextChart st)
  /\ live st'
     = List.filter (fun i => negb (if priceChart st is Some old
                                  then id i =? old else false)) (live st)
       ++ [{| id := nextChart st; canvas := PriceCanvas;
              config := OfPrice (price_config chartData symbol) |}]
  /\ ops st' = ops st ++ rebuild_ops PriceCanvas (priceChart st) (nextChart st)
  /\ rsiChart st' = rsiChart st.
Proof.
  intros Hctx. unfold initializePriceChart. rewrite Hctx.
  destruct chartData as [d p i].
  destruct (priceChart st) as [old|]; simpl.
  - repeat split; try done. by rewrite <- app_assoc.
  - repeat split; try done. by rewrite filter_keeps.
Qed.

(** What a call leaves whose payload lacks a member: the chart the variable
    held is destroyed, and the variable holds it still. *)
Lemma initializePriceChart_throws (payload : Payload) (symbol : string)
    (st : State) :
  has_priceCanvas st = true -> is_complete payload = false ->
  let st' := initializePriceChart (Some payload) symbol st in
  priceChart st' = priceChart st
  /\ live st'
     = List.filter (fun i => negb (if priceChart st is Some old
                                  then id i =? old else false)) (live st)
  /\ ops st' = ops st ++ (if priceChart st is Some old then [Destroy old] else [])
  /\ rsiChart st' = rsiChart st
  /\ nextChart st' = nextChart st
  /\ exists error, uncaught st' = uncaught st ++ [error].
Proof.
  intros Hctx Hc. unfold initializePriceChart. rewrite Hctx.
  destruct payload as [d [p|] [i|]]; try discriminate Hc;
    destruct (priceChart st) as [old|] eqn:E; simpl;
    rewrite ?E, ?filter_keeps, ?app_nil_r by done; repeat split; try done;
    by eexists.
Qed.

(** C8.  For every payload the price-chart builder accepts, the chart it
    constructs has, as the maximum of its secondary axis, 4 times the
    greatest value of the payload's volume sequence, and 4 times 0 when the
    payload has no volume field.  (For a volume sequence that is present
    and empty, [Math.max] is given no argument and the maximum is minus
    infinity.) *)
Theorem C8_volume_axis (chartData : ChartData) (symbol : string) (st : State) :
  has_priceCanvas st = true ->
  exists c others,
    live (initializePriceChart (Some (complete chartData)) symbol st)
    = others ++ [{| id := nextChart st; canvas := PriceCanvas;
                    config := OfPrice c |}]
    /\ priceChart (initializePriceChart (Some (complete chartData)) symbol st)
       = Some (nextChart st)
    /\ match volume (prices chartData) with
       | None => y1_max c = Fin (4 * 0)
       | Some [] => y1_max c = NegInfinity
       | Some v => exists m, peak v m /\ y1_max c = Fin (4 * m)
       end.
Proof.
  intros Hctx. exists (price_config chartData symbol).
  destruct (initializePriceChart_builds chartData symbol st Hctx)
    as (Hvar & Hlive & _).
  eexists. split; [exact Hlive |]. split; [exact Hvar |].
  unfold price_config; simpl.
  destruct (volume (prices chartData)) as [[|x v]|]; [done | | done].
  destruct (Math_max_peak (x :: v)) as (m & -> & Hpeak); [done |].
  exists m. split; [done |]. simpl. f_equal. lia.
Qed.

Lemma initializeRSIChart_builds (rsiData : Series) (dates : list string)
    (st : State) :
  has_rsiCanvas st = true ->
  let st' := initializeRSIChart (Some rsiData) dates st in
  rsiChart st' = Some (nextChart st)
  /\ live st'
     = List.filter (fun i => negb (if rsiChart st is Some old
                                  then id i =? old else false)) (live st)
       ++ [{| id := nextChart st; canvas := RSICanvas;
              config := OfRSI (rsi_config rsiData dates) |}]
  /\ ops st' = ops st ++ rebuild_ops RSICanvas (rsiChart st) (nextChart st)
  /\ priceChart st' = priceChart st.
Proof.
  intros Hctx. unfold initializeRSIChart. rewrite Hctx.
  destruct (rsiChart st) as [old|]; simpl.
  - repeat split; try done. by rewrite <- app_assoc.
  - repeat split; try done. by rewrite filter_keeps.
Qed.

Lemma live_on_filter (c : Canvas) (f : Instance -> bool) (l : list Instance) :
  List.filter (on c) (List.filter f l) = List.filter f (List.filter (on c) l).
Proof.
  induction l as [|i l IH]; simpl; [done |].
  destruct (f i) eqn:Ef, (on c i) eqn:Ec; simpl; rewrite ?Ef, ?Ec, IH; done.
Qed.

(** Destroying the chart a variable holds leaves its canvas without a
    live chart, and the other canvas with at most the chart it had. *)
Lemma destroyed_own (c : Canvas) (st : State) :
  at_most_one c st ->
  List.filter (fun i => negb (if chart_of c st is Some old
                              then id i =? old else false))
    (live_on c st) = [].
Proof.
  intros [-> | (i & -> & ->)]; [done |]. simpl. by rewrite Nat.eqb_refl.
Qed.

Lemma destroyed_other (c : Canvas) (f : Instance -> bool) (l : list Instance)
    (k : option nat) :
  (List.filter (on c) l = []
   \/ exists i, List.filter (on c) l = [i] /\ k = Some (id i)) ->
  List.filter f (List.filter (on c) l) = []
  \/ exists i, List.filter f (List.filter (on c) l) = [i] /\ k = Some (id i).
Proof.
  intros [-> | (i & -> & ->)]; [by left |]. simpl.
  destruct (f i); [right; by exists i | by left].
Qed.

(** Every call of a builder keeps each canvas with at most one live chart. *)
Lemma call_at_most_one (cl : Call) (st : State) :
  (forall c, at_most_one c st) -> forall c, at_most_one c (call cl st).
Proof.
  intros Hinv c. destruct cl as [chartData symbol | rsiData dates]; cbn [call].
  - destruct (has_priceCanvas st) eqn:Hctx, chartData as [payload|];
      try (unfold initializePriceChart; rewrite Hctx; apply Hinv).
    pose proof (destroyed_own PriceCanvas st (Hinv PriceCanvas)) as Hgone.
    unfold live_on in Hgone. simpl in Hgone.
    destruct (is_complete payload) eqn:Hc.
    + apply complete_payload in Hc as [chartData ->].
      destruct (initializePriceChart_builds chartData symbol st Hctx)
        as (Hvar & Hlive & _ & Hrsi).
      unfold at_most_one, live_on.
      rewrite Hlive, List.filter_app, live_on_filter.
      destruct c; simpl.
      * right. eexists. split; [by rewrite Hgone |]. exact Hvar.
      * rewrite app_nil_r, Hrsi. apply destroyed_other, (Hinv RSICanvas).
    + destruct (initializePriceChart_throws payload symbol st Hctx Hc)
        as (_ & Hlive & _ & Hrsi & _).
      unfold at_most_one, live_on. rewrite Hlive, live_on_filter.
      destruct c; simpl.
      * by left.
      * rewrite Hrsi. apply destroyed_other, (Hinv RSICanvas).
  - destruct (has_rsiCanvas st) eqn:Hctx, rsiData as [rsiData|];
      try (unfold initializeRSIChart; rewrite Hctx; apply Hinv).
    destruct (initializeRSIChart_builds rsiData dates st Hctx)
      as (Hvar & Hlive & _ & Hprice).
    unfold at_most_one, live_on. rewrite Hlive, List.filter_app, live_on_filter.
    destruct c; simpl.
    + rewrite app_nil_r, Hprice. apply destroyed_other, (Hinv PriceCanvas).
    + right. eexists.
      pose proof (destroyed_own RSICanvas st (Hinv RSICanvas)) as Hgone.
      unfold live_on in Hgone. simpl in Hgone.
      split; [by rewrite Hgone |]. exact Hvar.
Qed.

Lemma run_at_most_one (cs : list Call) (st : State) :
  (forall c, at_most_one c st) -> forall c, at_most_one c (run cs st).
Proof.
  revert st. induction cs as [|cl cs IH]; intros st Hinv; [done |].
  simpl. by apply IH, call_at_most_one.
Qed.

(** C7.  After any sequence of invocations of the two builders on a page
    that starts without charts, at most one live chart draws on each
    canvas; and when a builder is then invoked again with a payload and its
    canvas exists, it destroys the chart its variable holds before it
    constructs the new one, which is afterwards the only live chart on that
    canvas. *)
Theorem C7_one_chart_per_canvas (price rsi : bool) (cs : list Call) :
  let st := run cs (loaded price rsi) in
  (forall c, length (live_on c st) <= 1)
  /\ (forall chartData symbol, has_priceCanvas st = true ->
      let st' := initializePriceChart (Some (complete chartData)) symbol st in
      ops st' = ops st ++ rebuild_ops PriceCanvas (priceChart st) (nextChart st)
      /\ live_on PriceCanvas st'
         = [{| id := nextChart st; canvas := PriceCanvas;
               config := OfPrice (price_config chartData symbol) |}])
  /\ (forall rsiData dates, has_rsiCanvas st = true ->
      let st' := initializeRSIChart (Some rsiData) dates st in
      ops st' = ops st ++ rebuild_ops RSICanvas (rsiChart st) (nextChart st)
      /\ live_on RSICanvas st'
         = [{| id := nextChart st; canvas := RSICanvas;
               config := OfRSI (rsi_config rsiData dates) |}]).
Proof.
  intros st.
  assert (Hinv : forall c, at_most_one c st).
  { apply run_at_most_one. intros c. by left. }
  split; [| split].
  - intros c. destruct (Hinv c) as [-> | (i & -> & _)]; simpl; lia.
  - intros chartData symbol Hctx.
    destruct (initializePriceChart_builds chartData symbol st Hctx)
      as (_ & Hlive & Hops & _).
    split; [exact Hops |].
    pose proof (destroyed_own PriceCanvas st (Hinv PriceCanvas)) as Hgone.
    unfold live_on in *. simpl in Hgone.
    by rewrite Hlive, List.filter_app, live_on_filter, Hgone.
  - intros rsiData dates Hctx.
    destruct (initializeRSIChart_builds rsiData dates st Hctx)
      as (_ & Hlive & Hops & _).
    split; [exact Hops |].
    pose proof (destroyed_own RSICanvas st (Hinv RSICanvas)) as Hgone.
    unfold live_on in *. simpl in Hgone.
    by rewrite Hlive, List.filter_app, live_on_filter, Hgone.
Qed.

Lemma C8_volume_axis_witness :
  let chartData := {| dates := ["2024-01-01"; "2024-01-02"; "2024-01-03"]%string;
                      prices := {| close := [100; 102; 101]%Z;
                                   volume := Some [3000; 9000; 4000]%Z |};
                      indicators := ∅ |} in
  exists c others,
    live (initializePriceChart (Some (complete chartData)) "TCS.NS"
            (loaded true true))
    = others ++ [{| id := 0; canvas := PriceCanvas; config := OfPrice c |}]
    /\ exists m, peak [3000; 9000; 4000]%Z m /\ y1_max c = Fin (4 * m).
Proof.
  intros chartData.
  destruct (C8_volume_axis chartData "TCS.NS" (loaded true true))
    as (c & others & Hlive & _ & Hmax).
  - reflexivity.
  - exists c, others. split; [exact Hlive | exact Hmax].
Defined.

Lemma C7_one_chart_per_canvas_witness :
  let chartData := {| dates := ["2024-01-01"]%string;
                      prices := {| close := [100]%Z; volume := None |};
                      indicators := ∅ |} in
  let st := run [PriceCall (Some (complete chartData)) "TCS.NS";
                 RSICall (Some [Some 55%Z]) []]
              (loaded true true) in
  ops (initializePriceChart (Some (complete chartData)) "TCS.NS" st)
  = ops st ++ rebuild_ops PriceCanvas (priceChart st) (nextChart st)
  /\ length (live_on PriceCanvas
               (initializePriceChart (Some (complete chartData)) "TCS.NS" st))
     <= 1.
Proof.
  intros chartData st. split.
  - apply (C7_one_chart_per_canvas true true
             [PriceCall (Some (complete chartData)) "TCS.NS";
              RSICall (Some [Some 55%Z]) []]).
    reflexivity.
  - apply (C7_one_chart_per_canvas true true
             [PriceCall (Some (complete chartData)) "TCS.NS";
              RSICall (Some [Some 55%Z]) [];
              PriceCall (Some (complete chartData)) "TCS.NS"]).
Defined.

End ChartFacts.

(** ** Keyboard navigation in the dropdowns *)

Module KeyboardFacts.
Import Str Dom Page Spec Notions DebounceFacts.

Ltac fold_alter :=
  repeat match goal with
         | |- context [list_alter ?f ?i ?l] =>
             change (list_alter f i l) with (alter f i l)
         end.

Lemma highlighted_shift (i : nat) (l : list Item) :
  highlighted_from (S i) l = map S (highlighted_from i l).
Proof.
  revert i. induction l as [|item l IH]; intros i; simpl; [done |].
  rewrite map_app, <- IH. by destruct (active item).
Qed.

Lemma highlighted_none (l : list Item) :
  highlighted_from 0 l = [] -> querySelector_active l = None.
Proof.
  induction l as [|item l IH]; simpl; [done |].
  destruct (active item); [done |]. simpl. rewrite highlighted_shift.
  intros H. apply map_eq_nil in H. by rewrite IH.
Qed.

Lemma highlighted_one (l : list Item) (a : nat) :
  highlighted_from 0 l = [a] ->
  querySelector_active l = Some a /\ a < length l.
Proof.
  revert a. induction l as [|item l IH]; intros a; simpl; [done |].
  rewrite highlighted_shift. destruct (active item); simpl.
  - intros H. injection H as <- _. split; [done | lia].
  - destruct (highlighted_from 0 l) as [|b [|c r]] eqn:E; simpl; try done.
    intros H. injection H as <-. destruct (IH b eq_refl) as [-> Hlt].
    split; [done | lia].
Qed.

Lemma highlighted_remove (l : list Item) (a : nat) :
  highlighted_from 0 l = [a] ->
  highlighted_from 0 (alter classList_remove a l) = [].
Proof.
  revert a. induction l as [|item l IH]; intros a; simpl; [done |].
  rewrite highlighted_shift. destruct (active item) eqn:Ea; simpl.
  - intros H. injection H as <- Hr. simpl. by rewrite highlighted_shift, Hr.
  - destruct (highlighted_from 0 l) as [|b [|c r]] eqn:E; simpl; try done.
    intros H. injection H as <-. simpl. rewrite Ea. simpl. fold_alter.
    by rewrite highlighted_shift, (IH b).
Qed.

Lemma highlighted_add (l : list Item) (j : nat) :
  highlighted_from 0 l = [] -> j < length l ->
  highlighted_from 0 (alter classList_add j l) = [j].
Proof.
  revert j. induction l as [|item l IH]; intros j; simpl; [lia |].
  rewrite highlighted_shift. destruct (active item) eqn:Ea; simpl; [done |].
  intros H Hj. apply map_eq_nil in H. destruct j as [|j]; simpl.
  - by rewrite highlighted_shift, H.
  - rewrite Ea. simpl. fold_alter.
    rewrite highlighted_shift, (IH j); [done | done | lia].
Qed.

Lemma markup_alter_add (l : list Item) (j : nat) :
  map markup (alter classList_add j l) = map markup l.
Proof.
  revert j. induction l as [|item l IH]; intros [|j]; simpl; try done.
  fold_alter. by rewrite IH.
Qed.

Lemma markup_alter_remove (l : list Item) (j : nat) :
  map markup (alter classList_remove j l) = map markup l.
Proof.
  revert j. induction l as [|item l IH]; intros [|j]; simpl; try done.
  fold_alter. by rewrite IH.
Qed.

Lemma keydown_arrows (w : Which) (st : State) :
  let d := dropdown_of w st in
  (children (dropdown_of w (step (KeyDown w ArrowDown) st)) = after_down (children d)
   /\ display (dropdown_of w (step (KeyDown w ArrowDown) st)) = display d)
  /\ (children (dropdown_of w (step (KeyDown w ArrowUp) st)) = after_up (children d)
      /\ display (dropdown_of w (step (KeyDown w ArrowUp) st)) = display d).
Proof.
  destruct w; simpl;
    unfold stockSearch_keydown, watchlistSymbol_keydown, after_down, after_up;
    repeat case_match; done.
Qed.

Lemma after_down_highlight (l : list Item) :
  length (highlighted_from 0 l) <= 1 ->
  highlighted_from 0 (after_down l)
  = match highlighted_from 0 l with
    | [] => if 0 <? length l then [0] else []
    | a :: _ => [Nat.min (S a) (length l - 1)]
    end.
Proof.
  intros Hone. unfold after_down.
  destruct (highlighted_from 0 l) as [|a [|b r]] eqn:E; [| | simpl in Hone; lia].
  - rewrite (highlighted_none l E).
    destruct (0 <? length l) eqn:En; [| done].
    apply highlighted_add; [done |]. by apply Nat.ltb_lt.
  - destruct (highlighted_one l a E) as [-> Hlt]. unfold nextElementSibling.
    destruct (l !! S a) eqn:El.
    + apply lookup_lt_Some in El.
      rewrite highlighted_add;
        [f_equal; lia | by apply highlighted_remove | by rewrite length_alter].
    + apply lookup_ge_None in El. rewrite E. f_equal. lia.
Qed.

Lemma after_up_highlight (l : list Item) :
  length (highlighted_from 0 l) <= 1 ->
  highlighted_from 0 (after_up l)
  = match highlighted_from 0 l with
    | [] => if 0 <? length l then [length l - 1] else []
    | a :: _ => [a - 1]
    end.
Proof.
  intros Hone. unfold after_up.
  destruct (highlighted_from 0 l) as [|a [|b r]] eqn:E; [| | simpl in Hone; lia].
  - rewrite (highlighted_none l E).
    destruct (0 <? length l) eqn:En; [| done]. apply Nat.ltb_lt in En.
    apply highlighted_add; [done | lia].
  - destruct (highlighted_one l a E) as [-> Hlt].
    destruct a as [|p]; simpl; [done |].
    rewrite highlighted_add;
      [f_equal; lia | by apply highlighted_remove | rewrite length_alter; lia].
Qed.

Lemma after_markup (l : list Item) :
  map markup (after_down l) = map markup l
  /\ map markup (after_up l) = map markup l.
Proof.
  unfold after_down, after_up. split; repeat case_match;
    rewrite ?markup_alter_add, ?markup_alter_remove; done.
Qed.

(** X1.  ArrowDown moves the single highlight one row down and stops at
    the last row; with no highlight it highlights the first row, if there
    is one.  The rows themselves and the display stay as they are.  This
    holds for both widgets. *)
Theorem arrow_down_clamps (w : Which) (st : State) :
  let d := dropdown_of w st in
  let d' := dropdown_of w (step (KeyDown w ArrowDown) st) in
  length (highlighted d) <= 1 ->
  highlighted d'
  = match highlighted d with
    | [] => if 0 <? length (children d) then [0] else []
    | a :: _ => [Nat.min (S a) (length (children d) - 1)]
    end
  /\ map markup (children d') = map markup (children d)
  /\ display d' = display d.
Proof.
  intros d d' Hone. destruct (keydown_arrows w st) as [[Hc Hd] _].
  unfold highlighted, d'. rewrite Hc, Hd. split; [| split; [| done]].
  - by apply after_down_highlight.
  - apply after_markup.
Qed.

Lemma arrow_down_clamps_witness :
  let tcs := {| symbol := "TCS"; name := "Tata Consultancy Services";
                nse_symbol := "TCS.NS"; bse_symbol := "TCS.BO" |} in
  let tcm := {| symbol := "TCM"; name := "TCM Limited";
                nse_symbol := "TCM.NS"; bse_symbol := "TCM.BO" |} in
  let st := run [Input Primary "tc"; Wait 300;
                 Deliver 0 (Response 200 (JsonArray [tcs; tcm]));
                 KeyDown Primary ArrowDown; KeyDown Primary ArrowDown] loaded in
  highlighted (searchDropdown (step (KeyDown Primary ArrowDown) st)) = [1].
Proof.
  intros tcs tcm st.
  pose proof (arrow_down_clamps Primary st) as H. cbv zeta in H.
  destruct H as [H _]; [vm_compute; lia | exact H].
Defined.

(** X2.  ArrowUp moves the single highlight one row up and stops at the
    first row; with no highlight it highlights the last row, if there is
    one.  The rows themselves and the display stay as they are.  This holds
    for both widgets. *)
Theorem arrow_up_clamps (w : Which) (st : State) :
  let d := dropdown_of w st in
  let d' := dropdown_of w (step (KeyDown w ArrowUp) st) in
  length (highlighted d) <= 1 ->
  highlighted d'
  = match highlighted d with
    | [] => if 0 <? length (children d) then [length (children d) - 1] else []
    | a :: _ => [a - 1]
    end
  /\ map markup (children d') = map markup (children d)
  /\ display d' = display d.
Proof.
  intros d d' Hone. destruct (keydown_arrows w st) as [_ [Hc Hd]].
  unfold highlighted, d'. rewrite Hc, Hd. split; [| split; [| done]].
  - by apply after_up_highlight.
  - apply after_markup.
Qed.

Lemma arrow_up_clamps_witness :
  let tcs := {| symbol := "TCS"; name := "Tata Consultancy Services";
                nse_symbol := "TCS.NS"; bse_symbol := "TCS.BO" |} in
  let tcm := {| symbol := "TCM"; name := "TCM Limited";
                nse_symbol := "TCM.NS"; bse_symbol := "TCM.BO" |} in
  let st := run [Input Watchlist "tc"; Wait 300;
                 Deliver 0 (Response 200 (JsonArray [tcs; tcm]));
                 KeyDown Watchlist ArrowDown] loaded in
  highlighted (watchlistSearchDropdown (step (KeyDown Watchlist ArrowUp) st))
  = [0].
Proof.
  intros tcs tcm st.
  pose proof (arrow_up_clamps Watchlist st) as H. cbv zeta in H.
  destruct H as [H _]; [vm_compute; lia | exact H].
Defined.








End KeyboardFacts.

(** ** Trimming *)

Module TrimFacts.
Import Str.

Lemma trimEnd_idem (s : string) : trimEnd (trimEnd s) = trimEnd s.
Proof.
  induction s as [|c r IH]; simpl; [done |].
  destruct (trimEnd r) as [|c' t] eqn:E.
  - destruct (isWhiteSpace c) eqn:Ec; simpl; [done | by rewrite Ec].
  - change (trimEnd (String c (String c' t)))
      with (match trimEnd (String c' t) with
            | EmptyString =>
                if isWhiteSpace c then EmptyString else String c EmptyString
            | u => String c u
            end).
    by rewrite IH.
Qed.

Lemma trimEnd_head (c : ascii) (r : string) :
  isWhiteSpace c = false -> exists t, trimEnd (String c r) = String c t.
Proof.
  intros Hc. simpl. destruct (trimEnd r); [rewrite Hc |]; by eexists.
Qed.

Lemma trimStart_head (s : string) :
  trimStart s = EmptyString
  \/ exists c r, trimStart s = String c r /\ isWhiteSpace c = false.
Proof.
  induction s as [|c r IH]; simpl; [by left |].
  destruct (isWhiteSpace c) eqn:Ec; [done |]. right. by exists c, r.
Qed.

(** Trimming a trimmed text changes nothing. *)
Lemma trim_idem (s : string) : trim (trim s) = trim s.
Proof.
  unfold trim. destruct (trimStart_head s) as [-> | (c & r & -> & Hc)]; [done |].
  destruct (trimEnd_head c r Hc) as [t Ht]. rewrite Ht.
  cbn [trimStart]. rewrite Hc, <- Ht. apply trimEnd_idem.
Qed.

End TrimFacts.

(** ** The timers and the requests of every run *)

Module TimerFacts.
Import Str Dom Page Spec Notions DebounceFacts MirrorFacts TrimFacts.

Lemma untouched_kept (st st' : State) : untouched st st' -> kept st st'.
Proof.
  intros (Hs & Hw & Ht & Hn & _ & _ & _ & Hf).
  repeat split; try done; by intros [].
Qed.

Lemma deliver_kept (r : nat) (o : Outcome) (st : State) :
  kept st (step (Deliver r o) st).
Proof.
  simpl. unfold deliver.
  destruct (List.find (fun q => rid q =? r) (inflight st)) as [q|];
    [| repeat split; done].
  match goal with
  | |- kept _ (dropped (match _ with Primary => _ _ ?a | _ => _ end)) =>
      assert (Ha : kept st a) by (by repeat split; try intros [])
  end.
  destruct Ha as (Ht & Hn & Hto & Hf).
  destruct (owner q);
    [destruct (resume_untouched o
       (with_browser (timers st) (nextTimer st) (now st)
          (List.filter (fun q => negb (rid q =? r)) (inflight st))
          (nextRequest st) (effects st) st)) as [H _]
    |destruct (resume_untouched o
       (with_browser (timers st) (nextTimer st) (now st)
          (List.filter (fun q => negb (rid q =? r)) (inflight st))
          (nextRequest st) (effects st) st)) as [_ H]];
    apply untouched_kept in H; destruct H as (Ht' & Hn' & Hto' & Hf');
    repeat split; try congruence; intros w;
    rewrite ?Hto', ?Hf'; done.
Qed.

(** What a step does to the timers and to the queries sent: nothing, or it
    re-arms one widget's timer, or it lets time pass. *)
Lemma step_timers (e : Event) (st : State) :
  let st' := step e st in
  kept st st'
  \/ (exists w text,
        2 <= String.length (trim text)
        /\ timers st' = cleared (timeout_of w st) (timers st) ++ [armed w text st]
        /\ nextTimer st' = S (nextTimer st)
        /\ timeout_of w st' = Some (nextTimer st)
        /\ timeout_of (flip w) st' = timeout_of (flip w) st
        /\ forall w', fetches w' (effects st') = fetches w' (effects st))
  \/ (exists dt,
        timers st'
        = List.filter (fun t => negb (is_due (now st + dt) t)) (timers st)
        /\ nextTimer st' = nextTimer st
        /\ (forall w, timeout_of w st' = timeout_of w st)
        /\ forall w, fetches w (effects st')
                     = fetches w (effects st)
                       ++ queries w (firing_order
                            (List.filter (is_due (now st + dt)) (timers st)))).
Proof.
  destruct e as [w text|w key|target| |exchange|dt|r o].
  - destruct (le_lt_dec 2 (String.length (trim text))) as [Hlen|Hlen].
    + right; left. exists w, text. split; [done |].
      pose proof Hlen as Hb. apply Nat.ltb_ge in Hb.
      destruct w; simpl; unfold stockSearch_input, watchlistSymbol_input; simpl;
        rewrite Hb; unfold clearTimeout.
      * by destruct (searchTimeout st).
      * by destruct (watchlistTimeout st).
    + left. apply Nat.ltb_lt in Hlen.
      destruct w; simpl; unfold stockSearch_input, watchlistSymbol_input; simpl;
        rewrite Hlen; repeat split; try done; by intros [].
  - left. apply untouched_kept, keydown_untouched.
  - left. apply untouched_kept, click_untouched.
  - left. apply untouched_kept, analyze_untouched.
  - left. repeat split; try done; by intros [].
  - right; right. exists dt. simpl.
    destruct (advance_spec Primary dt st) as (Ht & _ & Hp & Hfp).
    destruct (advance_spec Watchlist dt st) as (_ & _ & Hw & Hfw).
    split; [exact Ht |]. split.
    { unfold advance.
      match goal with |- context [fold_left ?f ?l ?s] =>
        destruct (fire_all_spec Primary l s) as (_ & Hn & _) end.
      by rewrite Hn. }
    split; by intros [].
  - left. apply deliver_kept.
Qed.

Lemma NoDup_map_filter {A B : Type} (g : A -> B) (p : A -> bool) (l : list A) :
  NoDup (map g l) -> NoDup (map g (List.filter p l)).
Proof.
  induction l as [|x l IH]; simpl; [done |].
  intros H. apply NoDup_cons in H as [Hx Hl].
  destruct (p x); simpl; [| by apply IH].
  apply NoDup_cons. split; [| by apply IH].
  intros Hin. apply Hx. apply list_elem_of_In in Hin. apply list_elem_of_In.
  apply in_map_iff in Hin as (y & <- & Hy). apply filter_In in Hy as [Hy _].
  by apply in_map.
Qed.

Lemma cleared_In (id : option nat) (l : list Timer) (t : Timer) :
  In t (cleared id l) -> In t l /\ id <> Some (tid t).
Proof.
  destruct id as [i|]; simpl; [| done].
  intros H. apply filter_In in H as [Hin Hne]. split; [done |].
  intros [= ->]. by rewrite Nat.eqb_refl in Hne.
Qed.

Lemma cleared_NoDup (id : option nat) (l : list Timer) :
  NoDup (map tid l) -> NoDup (map tid (cleared id l)).
Proof. destruct id; simpl; [apply NoDup_map_filter | done]. Qed.

Lemma owner_cases (w' w : Which) : w' = w \/ w' = flip w.
Proof. destruct w, w'; auto. Qed.

Lemma step_orderly (e : Event) (st : State) :
  orderly st -> orderly (step e st).
Proof.
  intros (Hnd & Hlt & Hown).
  destruct (step_timers e st)
    as [(Ht & Hn & Hto & _)
       | [(w & text & _ & Ht & Hn & Hw & Hfw & _) | (dt & Ht & Hn & Hto & _)]];
    unfold orderly; rewrite Ht, Hn.
  - split; [done |]. split; [done |]. intros t Hin. rewrite Hto. by apply Hown.
  - split; [| split].
    + rewrite map_app. apply NoDup_app. split; [by apply cleared_NoDup |].
      split; [| apply NoDup_singleton].
      intros i Hi [Heq | []]%list_elem_of_In. simpl in Heq. subst i.
      apply list_elem_of_In, in_map_iff in Hi as (t & Ht' & Hin).
      apply cleared_In in Hin as [Hin _]. specialize (Hlt t Hin). lia.
    + intros t [Hin | [<- | []]]%in_app_or; simpl; [| lia].
      apply cleared_In in Hin as [Hin _]. specialize (Hlt t Hin). lia.
    + intros t [Hin | [<- | []]]%in_app_or.
      * apply cleared_In in Hin as [Hin Hne]. specialize (Hown t Hin).
        destruct (owner_cases (owner_of (callback t)) w) as [Heq | Heq];
          rewrite Heq in *; congruence.
      * simpl. by rewrite owner_callback_of.
  - split; [by apply NoDup_map_filter |]. split.
    + intros t [Hin _]%filter_In. by apply Hlt.
    + intros t [Hin _]%filter_In. rewrite Hto. by apply Hown.
Qed.

Lemma run_orderly (es : list Event) (st : State) :
  orderly st -> orderly (run es st).
Proof.
  revert st. induction es as [|e es IH]; intros st Hst; [done |].
  simpl. by apply IH, step_orderly.
Qed.

Lemma orderly_loaded : orderly loaded.
Proof. split; [constructor | split; intros t []]. Qed.

Lemma orderly_pending (w : Which) (st : State) :
  orderly st -> length (pending w st) <= 1.
Proof.
  intros (Hnd & _ & Hown). unfold pending.
  assert (Hsame : forall t, In t (timers st) -> owned w t = true ->
                   timeout_of w st = Some (tid t)).
  { intros t Hin Hw. apply owned_iff in Hw. rewrite <- Hw. by apply Hown. }
  clear Hown. induction (timers st) as [|t l IH]; simpl; [lia |].
  simpl in Hnd. apply NoDup_cons in Hnd as [Hfresh Hnd].
  destruct (owned w t) eqn:Et; [| apply IH; [done | intros; apply Hsame; by try right]].
  rewrite (filter_none (owned w) l); [simpl; lia |].
  intros u [Hu _]%filter_In Hw. apply Hfresh.
  assert (tid t = tid u) as ->.
  { pose proof (Hsame t (or_introl eq_refl) Et).
    pose proof (Hsame u (or_intror Hu) Hw). congruence. }
  apply list_elem_of_In. by apply in_map.
Qed.

(** X4.  After every run of events from the loaded page, each widget has at
    most one debounce timer pending, and it is the one the widget's timer
    variable names. *)
Theorem one_pending_timer (es : list Event) (w : Which) :
  length (pending w (run es loaded)) <= 1
  /\ Forall (fun t => timeout_of w (run es loaded) = Some (tid t))
       (pending w (run es loaded)).
Proof.
  pose proof (run_orderly es loaded orderly_loaded) as Ho.
  split; [by apply orderly_pending |].
  destruct Ho as (_ & _ & Hown). apply List.Forall_forall.
  intros t [Hin Hw]%filter_In. apply owned_iff in Hw. rewrite <- Hw.
  by apply Hown.
Qed.

Lemma step_sound (e : Event) (st : State) : sound st -> sound (step e st).
Proof.
  intros [Htm Hsent].
  destruct (step_timers e st)
    as [(Ht & _ & _ & Hf)
       | [(w & text & Hlen & Ht & _ & _ & _ & Hf) | (dt & Ht & _ & _ & Hf)]];
    unfold sound; rewrite Ht.
  - split; [done |]. intros w q. rewrite Hf. apply Hsent.
  - split; [| intros w' q; rewrite Hf; apply Hsent].
    intros t [Hin | [<- | []]]%in_app_or.
    + apply cleared_In in Hin as [Hin _]. by apply Htm.
    + simpl. rewrite query_callback_of. split; [done | apply trim_idem].
  - split; [intros t [Hin _]%filter_In; by apply Htm |].
    intros w q. rewrite Hf. intros [Hq | Hq]%in_app_or; [by apply (Hsent w) |].
    unfold queries in Hq. apply in_map_iff in Hq as (t & <- & Hin).
    apply filter_In in Hin as [Hin _].
    apply (Permutation_in _ (firing_order_perm _)) in Hin.
    apply filter_In in Hin as [Hin _]. by apply Htm.
Qed.

(** X5.  After every run of events from the loaded page, every query a
    widget has sent to the search endpoint is trimmed and has at least two
    characters. *)
Theorem sent_queries_well_formed (es : list Event) (w : Which) :
  Forall (fun q => 2 <= String.length q /\ trim q = q)
    (fetches w (effects (run es loaded))).
Proof.
  assert (H : forall st, sound st -> sound (run es st)).
  { induction es as [|e es IH]; intros st Hst; [done |].
    simpl. by apply IH, step_sound. }
  destruct (H loaded) as [_ Hsent]; [split; [intros t [] | intros [] q []] |].
  apply List.Forall_forall. apply Hsent.
Qed.

End TimerFacts.

(** ** What leaves the page *)

Module EffectFacts.
Import Str Dom Page Spec Notions StrFacts DropdownFacts.

Lemma fire_all_effects (l : list Timer) (st : State) :
  exists new,
    effects (fold_left (fun st t => run_callback (callback t) st) l st)
    = effects st ++ new
    /\ Forall proper new.
Proof.
  revert st. induction l as [|t l IH]; intros st; simpl.
  - exists []. by rewrite app_nil_r.
  - destruct (IH (run_callback (callback t) st)) as (new & -> & Hnew).
    destruct (callback t) as [q|q]; simpl; rewrite <- app_assoc;
      eexists; (split; [reflexivity |]); by constructor.
Qed.

Lemma truthy_not_empty (v : option string) :
  truthy v = true -> toString v <> EmptyString.
Proof.
  destruct v as [s|]; simpl; [| done]. intros H.
  apply negb_true_iff, String.eqb_neq in H. done.
Qed.

Lemma append_not_empty (s suffix : string) :
  s <> EmptyString -> s +:+ suffix <> EmptyString.
Proof. by destruct s. Qed.

Lemma analyze_effects (st : State) :
  exists e, effects (analyzeSelectedStock st) = effects st ++ [e] /\ proper e.
Proof.
  unfold analyzeSelectedStock.
  destruct (String.eqb (toUpperCase (trim (stockSearch st))) "") eqn:Etext;
    simpl; [by eexists |].
  apply String.eqb_neq in Etext.
  eexists. split; [reflexivity |]. simpl. eexists. split; [| reflexivity].
  destruct (truthy (selectedStockSymbol st)) eqn:Esel;
    [by apply truthy_not_empty |].
  repeat case_match; try done; by apply append_not_empty.
Qed.

Lemma analyze_effects_list (st : State) :
  exists new, effects (analyzeSelectedStock st) = effects st ++ new
    /\ Forall proper new.
Proof.
  destruct (analyze_effects st) as (e & -> & He).
  eexists. split; [reflexivity | by constructor].
Qed.

Ltac effects_by_cases :=
  repeat case_match; simplify_eq; simpl;
  first [ exists []; split; [by rewrite app_nil_r | constructor]
        | eexists; split; [reflexivity | by repeat constructor]
        | apply analyze_effects_list ].

(** Every step only adds to the effects, and what it adds is proper. *)
Lemma step_effects (e : Event) (st : State) :
  exists new, effects (step e st) = effects st ++ new /\ Forall proper new.
Proof.
  destruct e as [w text|w key|target| |exchange|dt|r o]; simpl.
  - destruct w; unfold stockSearch_input, watchlistSymbol_input, clearTimeout;
      simpl; effects_by_cases.
  - destruct w, key; unfold stockSearch_keydown, watchlistSymbol_keydown; simpl;
      effects_by_cases.
  - unfold click, document_click, row_at, row_onclick, dropdown_of.
    destruct target as [[]|[] i|]; simpl; effects_by_cases.
  - apply analyze_effects_list.
  - effects_by_cases.
  - unfold advance.
    match goal with |- context [fold_left ?f ?l ?s] =>
      destruct (fire_all_effects l s) as (new & -> & Hnew) end.
    by exists new.
  - unfold deliver, dropped, searchStocks_resume,
      searchStocksForWatchlist_resume,
      searchStocks_try, searchStocksForWatchlist_try,
      displaySearchResults, displayWatchlistSearchResults,
      showSearchError, showWatchlistSearchError, feather_replace.
    repeat case_match; simplify_eq; simpl; rewrite <- ?app_assoc;
      effects_by_cases.
Qed.

(** X6.  After every run of events from the loaded page, every navigation
    the page has made goes to /analyze/ followed by a symbol that is not
    empty, and the only banner it has shown is the warning that asks for a
    stock symbol. *)
Theorem effects_proper (es : list Event) :
  Forall proper (effects (run es loaded)).
Proof.
  assert (H : forall st, Forall proper (effects st) ->
                         Forall proper (effects (run es st))).
  { induction es as [|e es IH]; intros st Hst; [done |].
    simpl. apply IH. destruct (step_effects e st) as (new & -> & Hnew).
    by apply Forall_app. }
  apply H. constructor.
Qed.

(** X7.  When the input holds nothing but white space, a submission, by the
    form or by Enter with no highlighted row, shows the warning banner and
    does nothing else: the page does not navigate and the submit button is
    left alone, also when a selection is stored. *)
Theorem empty_submission_warns (st : State) :
  trim (stockSearch st) = EmptyString ->
  step Submit st = emit (Alert "Please enter a stock symbol" "warning") st
  /\ (querySelector_active (children (searchDropdown st)) = None ->
      step (KeyDown Primary Enter) st
      = emit (Alert "Please enter a stock symbol" "warning") st).
Proof.
  intros Hempty.
  assert (H : analyzeSelectedStock st
              = emit (Alert "Please enter a stock symbol" "warning") st).
  { unfold analyzeSelectedStock. by rewrite Hempty. }
  split; [exact H |]. intros Hnone. simpl. unfold stockSearch_keydown.
  by rewrite Hnone.
Qed.

Lemma empty_submission_warns_witness :
  let st := run [Input Primary "tcs"; Wait 300; Input Primary "  "] loaded in
  step Submit st = emit (Alert "Please enter a stock symbol" "warning") st.
Proof.
  intros st.
  destruct (empty_submission_warns st) as [H _]; [reflexivity | exact H].
Defined.

End EffectFacts.

(** ** Responses, message rows and clicks *)

Module WidgetFacts.
Import Str Dom Page Spec Notions DropdownFacts DebounceFacts MirrorFacts.

Lemma find_filter_other (r1 r2 : nat) (l : list Request) :
  r1 <> r2 ->
  List.find (fun q => rid q =? r1)
    (List.filter (fun q => negb (rid q =? r2)) l)
  = List.find (fun q => rid q =? r1) l.
Proof.
  intros Hne. induction l as [|q l IH]; simpl; [done |].
  destruct (rid q =? r2) eqn:E2; simpl.
  - apply Nat.eqb_eq in E2. destruct (rid q =? r1) eqn:E1; [| done].
    apply Nat.eqb_eq in E1. congruence.
  - by rewrite IH.
Qed.

(** Delivering the answer to one request leaves the other requests in
    flight. *)
Lemma deliver_other (r1 r2 : nat) (o : Outcome) (st : State) :
  r1 <> r2 ->
  List.find (fun q => rid q =? r1) (inflight (step (Deliver r2 o) st))
  = List.find (fun q => rid q =? r1) (inflight st).
Proof.
  intros Hne. simpl. unfold deliver.
  destruct (List.find (fun q => rid q =? r2) (inflight st)) as [q|]; [| done].
  set (st1 := with_browser _ _ _ _ _ _ st).
  destruct (resume_untouched o st1) as [Hp Hw].
  destruct Hp as (_ & _ & _ & _ & _ & Hp & _).
  destruct Hw as (_ & _ & _ & _ & _ & Hw & _).
  destruct (owner q); rewrite ?Hp, ?Hw; by apply find_filter_other.
Qed.

(** What an answer writes into the dropdown of its widget depends on the
    answer alone. *)
Lemma deliver_writes (w : Which) (o : Outcome) :
  exists ms, forall r req st,
    List.find (fun q => rid q =? r) (inflight st) = Some req ->
    owner req = w ->
    dropdown_of w (step (Deliver r o) st)
    = {| children := map fresh ms; display := true |}.
Proof.
  destruct w.
  - assert (H : exists ms, forall st,
               searchDropdown (dropped (searchStocks_resume o st))
               = {| children := map fresh ms; display := true |}).
    { unfold dropped, searchStocks_resume, searchStocks_try,
        displaySearchResults, showSearchError, feather_replace.
      destruct o as [|status [|[|[|stock l]|[]]]]; cbn [negb];
        try destruct (response_ok status); cbn [negb];
        eexists; intros st;
        cbn [feather showSearchDropdown with_searchDropdown emit with_browser];
        destruct (feather st); reflexivity. }
    destruct H as [ms H]. exists ms. intros r req st Hfind Hw.
    cbn [step dropdown_of]. unfold deliver. rewrite Hfind, Hw. apply H.
  - assert (H : exists ms, forall st,
               watchlistSearchDropdown
                 (dropped (searchStocksForWatchlist_resume o st))
               = {| children := map fresh ms; display := true |}).
    { unfold dropped, searchStocksForWatchlist_resume,
        searchStocksForWatchlist_try, displayWatchlistSearchResults,
        showWatchlistSearchError, feather_replace.
      destruct o as [|status [|[|[|stock l]|[]]]]; cbn [negb];
        try destruct (response_ok status); cbn [negb];
        eexists; intros st;
        cbn [feather showWatchlistDropdown with_watchlistSearchDropdown emit
               with_browser];
        destruct (feather st); reflexivity. }
    destruct H as [ms H]. exists ms. intros r req st Hfind Hw.
    cbn [step dropdown_of]. unfold deliver. rewrite Hfind, Hw. apply H.
Qed.

(** A successful answer with suggestions whose values hold no markup is
    rendered when it arrives. *)
Lemma deliver_renders (w : Which) (r : nat) (req : Request) (status : nat)
    (l : list Suggestion) (st : State) :
  List.find (fun q => rid q =? r) (inflight st) = Some req ->
  owner req = w ->
  response_ok status = true ->
  l <> [] ->
  forallb Html.well_formed l = true ->
  renders l (dropdown_of w (step (Deliver r (Response status (JsonArray l))) st)).
Proof.
  intros Hfind <- Hok Hl Hplain. simpl. unfold deliver. rewrite Hfind.
  unfold dropped, searchStocks_resume, searchStocksForWatchlist_resume,
    searchStocks_try, searchStocksForWatchlist_try.
  rewrite Hok. destruct (owner req); cbn [negb fst snd dropdown_of].
  - rewrite displaySearchResults_rows by done. apply rows_render.
  - rewrite displayWatchlistSearchResults_rows by done. apply rows_render.
Qed.

(** X8.  Answers are rendered in the order they arrive, whichever request
    was sent first: when the answer to a request of a widget arrives after
    the answer to another request, whatever that one was, the dropdown ends
    up as the answer that arrived last writes it, and so, when that answer
    is a successful one with suggestions whose values hold no markup, with
    the rows of these suggestions. *)
Theorem last_answer_wins (w : Which) (st : State) (r1 r2 : nat)
    (req : Request) (o1 o2 : Outcome) :
  List.find (fun q => rid q =? r1) (inflight st) = Some req ->
  owner req = w ->
  r1 <> r2 ->
  dropdown_of w (run [Deliver r2 o2; Deliver r1 o1] st)
  = dropdown_of w (run [Deliver r1 o1] st)
  /\ forall status l1,
       o1 = Response status (JsonArray l1) ->
       response_ok status = true ->
       l1 <> [] ->
       forallb Html.well_formed l1 = true ->
       renders l1 (dropdown_of w (run [Deliver r2 o2; Deliver r1 o1] st)).
Proof.
  intros Hfind Hw Hne.
  change (run [Deliver r2 o2; Deliver r1 o1] st)
    with (step (Deliver r1 o1) (step (Deliver r2 o2) st)).
  change (run [Deliver r1 o1] st) with (step (Deliver r1 o1) st).
  assert (Hfind' : List.find (fun q => rid q =? r1)
                     (inflight (step (Deliver r2 o2) st)) = Some req)
    by (by rewrite deliver_other).
  split.
  - destruct (deliver_writes w o1) as [ms Hms].
    by rewrite (Hms r1 req _ Hfind' Hw), (Hms r1 req _ Hfind Hw).
  - intros status l1 -> Hok Hl Hplain.
    by apply (deliver_renders w r1 req).
Qed.

Lemma last_answer_wins_witness :
  let tcs := {| symbol := "TCS"; name := "Tata Consultancy Services";
                nse_symbol := "TCS.NS"; bse_symbol := "TCS.BO" |} in
  let tcm := {| symbol := "TCM"; name := "TCM Limited";
                nse_symbol := "TCM.NS"; bse_symbol := "TCM.BO" |} in
  let st := run [Input Primary "tc"; Wait 300; Input Primary "tcm";
                 Wait 300] loaded in
  renders [tcs]
    (dropdown_of Primary
       (run [Deliver 1 (Response 200 (JsonArray [tcm]));
             Deliver 0 (Response 200 (JsonArray [tcs]))] st)).
Proof.
  intros tcs tcm st.
  destruct (last_answer_wins Primary st 0 1
              {| rid := 0; owner := Primary; sent := "tc" |}
              (Response 200 (JsonArray [tcs]))
              (Response 200 (JsonArray [tcm]))) as [_ H].
  - reflexivity.
  - reflexivity.
  - lia.
  - apply (H 200 [tcs]).
    + reflexivity.
    + reflexivity.
    + discriminate.
    + reflexivity.
Defined.

(** X9.  When a dropdown holds only a message row (loading, error, or
    nothing found), ArrowDown highlights that row and Enter then selects
    it: the row has no data attributes, so the input receives the text
    "undefined", and in the primary widget the stored symbol becomes
    undefined; the dropdown is closed. *)
Theorem enter_on_message_row (st : State) (m : Markup) :
  message_row m ->
  (children (searchDropdown st) = [fresh m] ->
   let st' := run [KeyDown Primary ArrowDown; KeyDown Primary Enter] st in
   stockSearch st' = "undefined"%string
   /\ selectedStockSymbol st' = None
   /\ closed (searchDropdown st'))
  /\ (children (watchlistSearchDropdown st) = [fresh m] ->
      let st' := run [KeyDown Watchlist ArrowDown; KeyDown Watchlist Enter] st in
      watchlistSymbol st' = "undefined"%string
      /\ closed (watchlistSearchDropdown st')).
Proof.
  intros Hm. split; intros Hrows st'; unfold st'; simpl;
    unfold stockSearch_keydown, watchlistSymbol_keydown; rewrite Hrows; simpl;
    destruct Hm as [-> | [-> | ->]]; simpl; repeat split;
    try (by destruct (String.eqb (selectedExchange st) "BSE"));
    by repeat constructor.
Qed.

Lemma enter_on_message_row_witness :
  let st := run [Input Primary "zz"; Wait 300;
                 Deliver 0 (Response 200 (JsonArray []))] loaded in
  stockSearch (run [KeyDown Primary ArrowDown; KeyDown Primary Enter] st)
  = "undefined"%string.
Proof.
  intros st.
  destruct (enter_on_message_row st NoStocksRow) as [H _].
  - right. right. reflexivity.
  - destruct H as [H _]; [reflexivity | exact H].
Defined.

(** X10.  Typing and pressing keys in one widget leaves the other widget's
    input text, dropdown and timer variable as they are; and what is done
    in the watchlist widget leaves the stored symbol and the selected
    exchange as they are. *)
Theorem widgets_independent (w : Which) (e : Event) (st : State) :
  typed_into w e = true ->
  text_of (flip w) (step e st) = text_of (flip w) st
  /\ dropdown_of (flip w) (step e st) = dropdown_of (flip w) st
  /\ timeout_of (flip w) (step e st) = timeout_of (flip w) st
  /\ selectedExchange (step e st) = selectedExchange st
  /\ (w = Watchlist -> selectedStockSymbol (step e st) = selectedStockSymbol st).
Proof.
  destruct e as [w' text|w' key| | | | |]; try discriminate;
    intros ->%same_eq; destruct w; simpl;
    unfold stockSearch_input, watchlistSymbol_input, clearTimeout,
      stockSearch_keydown, watchlistSymbol_keydown, analyzeSelectedStock;
    simpl; repeat case_match; done.
Qed.

Lemma widgets_independent_witness :
  let tcs := {| symbol := "TCS"; name := "Tata Consultancy Services";
                nse_symbol := "TCS.NS"; bse_symbol := "TCS.BO" |} in
  let tcm := {| symbol := "TCM"; name := "TCM Limited";
                nse_symbol := "TCM.NS"; bse_symbol := "TCM.BO" |} in
  let st := run [Input Watchlist "tc"; Wait 300;
                 Deliver 0 (Response 200 (JsonArray [tcs; tcm]))] loaded in
  dropdown_of Watchlist (step (Input Primary "tcs") st)
  = dropdown_of Watchlist st.
Proof.
  intros tcs tcm st.
  destruct (widgets_independent Primary (Input Primary "tcs") st)
    as (_ & H & _); [reflexivity | exact H].
Defined.

(** X11.  A click closes every dropdown whose widget it does not land in:
    a click elsewhere closes both, and a click on the input or on a row of
    one widget closes the dropdown of the other. *)
Theorem click_closes_others (t : Target) (w : Which) (st : State) :
  on_page t st ->
  within w t = false ->
  closed (dropdown_of w (step (Click t) st)).
Proof.
  intros Hon Hout. simpl. unfold click, document_click.
  destruct t as [w'|w' i|]; simpl in Hon.
  - destruct w, w'; try discriminate Hout; apply hide_closes.
  - destruct Hon as [element ->].
    destruct w, w'; try discriminate Hout; simpl; apply hide_closes.
  - destruct w; apply hide_closes.
Qed.

Lemma click_closes_others_witness :
  let tcs := {| symbol := "TCS"; name := "Tata Consultancy Services";
                nse_symbol := "TCS.NS"; bse_symbol := "TCS.BO" |} in
  let tcm := {| symbol := "TCM"; name := "TCM Limited";
                nse_symbol := "TCM.NS"; bse_symbol := "TCM.BO" |} in
  let st := run [Input Watchlist "tc"; Wait 300;
                 Deliver 0 (Response 200 (JsonArray [tcs; tcm]))] loaded in
  closed (dropdown_of Watchlist (step (Click (OnInput Primary)) st)).
Proof.
  intros tcs tcm st.
  apply (click_closes_others (OnInput Primary) Watchlist st).
  - exact I.
  - reflexivity.
Defined.

End WidgetFacts.

(** ** The chart variables and the live charts *)

Module ChartToolFacts.
Import Charts Spec ChartTools ChartFacts.

Lemma surviving_none (l : list Instance) : surviving None l = l.
Proof. induction l; simpl; congruence. Qed.

(** A call of a builder does nothing, or rebuilds the chart of its canvas,
    or destroys it and throws. *)
Lemma call_shape (cl : Call) (st : State) :
  call cl st = st
  \/ (exists cfg,
       chart_of (canvas_of cl) (call cl st) = Some (nextChart st)
       /\ (forall c', c' <> canvas_of cl ->
           chart_of c' (call cl st) = chart_of c' st)
       /\ live (call cl st)
          = surviving (chart_of (canvas_of cl) st) (live st)
            ++ [{| id := nextChart st; canvas := canvas_of cl; config := cfg |}]
       /\ nextChart (call cl st) = S (nextChart st)
       /\ uncaught (call cl st) = uncaught st)
  \/ (canvas_of cl = PriceCanvas
      /\ (forall c', chart_of c' (call cl st) = chart_of c' st)
      /\ live (call cl st) = surviving (priceChart st) (live st)
      /\ nextChart (call cl st) = nextChart st
      /\ uncaught (call cl st) <> []).
Proof.
  destruct cl as [chartData symbol | rsiData dates]; cbn [call canvas_of].
  - destruct (has_priceCanvas st) eqn:Hctx, chartData as [payload|];
      try (left; unfold initializePriceChart; by rewrite Hctx).
    right. destruct (is_complete payload) eqn:Hc.
    + left. apply complete_payload in Hc as [chartData ->].
      exists (OfPrice (price_config chartData symbol)).
      unfold initializePriceChart. rewrite Hctx. destruct chartData as [d p i].
      destruct (priceChart st) as [old|] eqn:E; simpl;
        rewrite ?E, ?surviving_none;
        (split; [done | split; [by intros [] | by split]]).
    + right.
      destruct (initializePriceChart_throws payload symbol st Hctx Hc)
        as (Hvar & Hlive & _ & Hrsi & Hnext & error & Herr).
      split; [done |]. split; [by intros [] |]. split; [exact Hlive |].
      split; [exact Hnext |]. rewrite Herr. by destruct (uncaught st).
  - unfold initializeRSIChart.
    destruct (has_rsiCanvas st), rsiData as [rsiData|]; try by left.
    right. left. exists (OfRSI (rsi_config rsiData dates)).
    destruct (rsiChart st) as [old|] eqn:E; simpl;
      rewrite ?E, ?surviving_none;
      (split; [done | split; [by intros [] | by split]]).
Qed.

Lemma on_new (c c' : Canvas) (k : nat) (cfg : Config) :
  List.filter (on c') [{| id := k; canvas := c; config := cfg |}]
  = if decide (c' = c) then [{| id := k; canvas := c; config := cfg |}] else [].
Proof. destruct c, c'; reflexivity. Qed.

Lemma on_canvas (c : Canvas) (i : Instance) : on c i = true <-> canvas i = c.
Proof. unfold on. destruct c, (canvas i); split; congruence. Qed.

Lemma same_id_same_chart (l : list Instance) (i j : Instance) :
  NoDup (map id l) -> In i l -> In j l -> id i = id j -> i = j.
Proof.
  induction l as [|x l IH]; simpl; [done |].
  intros [Hx Hl]%NoDup_cons [-> | Hi] [-> | Hj] Heq; try done.
  - destruct Hx. rewrite Heq. apply list_elem_of_In. by apply in_map.
  - destruct Hx. rewrite <- Heq. apply list_elem_of_In. by apply in_map.
  - by apply IH.
Qed.

Lemma surviving_all (old : nat) (l : list Instance) :
  (forall j, In j l -> id j <> old) -> surviving (Some old) l = l.
Proof.
  induction l as [|x l IH]; simpl; [done |]. intros H.
  destruct (id x =? old) eqn:E.
  - apply Nat.eqb_eq in E. destruct (H x); [by left | done].
  - simpl. f_equal. apply IH. intros j Hj. apply H. by right.
Qed.

Lemma surviving_sub (previous : option nat) (l : list Instance) (i : Instance) :
  In i (surviving previous l) -> In i l /\ previous <> Some (id i).
Proof.
  intros [Hi Hk]%filter_In. split; [done |]. intros ->.
  by rewrite Nat.eqb_refl in Hk.
Qed.

Lemma live_on_sub (c : Canvas) (st : State) (i : Instance) :
  In i (live_on c st) -> In i (live st) /\ canvas i = c.
Proof. intros [Hi Hc]%filter_In. split; [done |]. by apply on_canvas. Qed.

(** Destroying the chart of one canvas leaves the live chart of the other. *)
Lemma survives_other (c c' : Canvas) (st : State) :
  healthy st -> c' <> c ->
  surviving (chart_of c st) (live_on c' st) = live_on c' st.
Proof.
  intros (Hnd & _ & Hvars) Hcc.
  destruct (chart_of c st) as [old|] eqn:Eold; [| apply surviving_none].
  apply surviving_all. intros j [Hj Hcj]%live_on_sub Hid.
  pose proof (Hvars c) as Hc. rewrite Eold in Hc.
  destruct Hc as [(i & Hi & Hio) | (_ & _ & Hdead & _)].
  - assert (Hini : In i (live_on c st)) by (rewrite Hi; by left).
    apply live_on_sub in Hini as [Hini Hci].
    assert (i = j) by (apply (same_id_same_chart (live st)); congruence).
    congruence.
  - apply Hdead. by exists j.
Qed.

(** Destroying the chart a variable holds leaves its canvas without one. *)
Lemma destroys_own (c : Canvas) (st : State) :
  healthy st -> surviving (chart_of c st) (live_on c st) = [].
Proof.
  intros (_ & _ & Hvars). specialize (Hvars c).
  destruct (chart_of c st) as [old|].
  - destruct Hvars as [(i & -> & <-) | (-> & _)]; [| done].
    simpl. by rewrite Nat.eqb_refl.
  - by rewrite Hvars.
Qed.

Lemma surviving_live_on (previous : option nat) (c : Canvas) (l : list Instance) :
  List.filter (on c) (surviving previous l)
  = surviving previous (List.filter (on c) l).
Proof. unfold surviving. apply live_on_filter. Qed.

Lemma call_live_on (cl : Call) (c' : Canvas) (cfg : Config) (st : State) :
  live (call cl st)
  = surviving (chart_of (canvas_of cl) st) (live st)
    ++ [{| id := nextChart st; canvas := canvas_of cl; config := cfg |}] ->
  live_on c' (call cl st)
  = surviving (chart_of (canvas_of cl) st) (live_on c' st)
    ++ (if decide (c' = canvas_of cl)
        then [{| id := nextChart st; canvas := canvas_of cl; config := cfg |}]
        else []).
Proof.
  intros Hlive. unfold live_on.
  by rewrite Hlive, List.filter_app, on_new, surviving_live_on.
Qed.

Lemma call_healthy (cl : Call) (st : State) : healthy st -> healthy (call cl st).
Proof.
  intros Hst. destruct (call_shape cl st)
    as [-> | [(cfg & Hvar & Hother & Hlive & Hnext & Herr)
             | (Hcl & Hsame & Hlive & Hnext & Herr)]]; [done | |].
  - pose proof Hst as (Hnd & Hlt & Hvars).
    split; [| split].
    + rewrite Hlive, map_app. apply NoDup_app.
      split; [by apply TimerFacts.NoDup_map_filter |].
      split; [| apply NoDup_singleton].
      intros k Hk [Heq | []]%list_elem_of_In. simpl in Heq. subst k.
      apply list_elem_of_In, in_map_iff in Hk as (i & Hi & Hin).
      apply surviving_sub in Hin as [Hin _].
      specialize (Hlt i Hin). lia.
    + rewrite Hlive, Hnext.
      intros i [Hin | [<- | []]]%in_app_or; simpl; [| lia].
      apply surviving_sub in Hin as [Hin _]. specialize (Hlt i Hin). lia.
    + intros c'. rewrite (call_live_on cl c' cfg st Hlive).
      case_decide as Hcc.
      * subst c'. rewrite Hvar, destroys_own by done. left. by eexists.
      * rewrite app_nil_r, (Hother c' Hcc), survives_other by done.
        pose proof (Hvars c') as Hc'.
        destruct (chart_of c' st) as [k|]; [| done].
        destruct Hc' as [Hc' | (Hnone & Hk & Hdead & Hprice & Hthrown)];
          [by left | right].
        split; [done |]. split; [lia |]. split; [| split; congruence].
        intros (i & Hi & Hid). rewrite Hlive in Hi.
        apply in_app_or in Hi as [Hi | [<- | []]].
        -- apply surviving_sub in Hi as [Hi _]. apply Hdead. by exists i.
        -- simpl in Hid. lia.
  - pose proof Hst as (Hnd & Hlt & Hvars).
    split; [| split].
    + rewrite Hlive. by apply TimerFacts.NoDup_map_filter.
    + rewrite Hlive, Hnext. intros i [Hin _]%surviving_sub. by apply Hlt.
    + intros c'. rewrite Hsame. unfold live_on.
      rewrite Hlive, surviving_live_on.
      destruct c'.
      * pose proof (destroys_own PriceCanvas st Hst) as Hgone.
        simpl in Hgone. unfold live_on in Hgone. rewrite Hgone.
        pose proof (Hvars PriceCanvas) as Hc. simpl in Hc. simpl.
        destruct (priceChart st) as [k|] eqn:Ek; [| done].
        right. split; [done |]. rewrite Hnext. split.
        { destruct Hc as [(i & Hi & <-) | (_ & Hk & _)]; [| done].
          apply Hlt.
          assert (Hin : In i (live_on PriceCanvas st)) by (rewrite Hi; by left).
          by apply live_on_sub in Hin as [? _]. }
        split; [| done].
        intros (i & Hi & Hid). rewrite Hlive in Hi.
        apply surviving_sub in Hi as [_ Hi]. congruence.
      * pose proof (survives_other PriceCanvas RSICanvas st Hst) as Hkeep.
        simpl in Hkeep. unfold live_on in Hkeep. rewrite Hkeep by done.
        pose proof (Hvars RSICanvas) as Hc. simpl in Hc. simpl.
        destruct (rsiChart st) as [k|]; [| done].
        destruct Hc as [Hc | (_ & _ & _ & Hprice & _)]; [by left | done].
Qed.

Lemma run_healthy (cs : list Call) (st : State) : healthy st -> healthy (run cs st).
Proof.
  revert st. induction cs as [|cl cs IH]; intros st Hst; [done |].
  simpl. by apply IH, call_healthy.
Qed.

Lemma loaded_healthy (price rsi : bool) : healthy (loaded price rsi).
Proof. split; [constructor | split; [intros i [] | by intros []]]. Qed.

Lemma call_canvases (cl : Call) (st : State) :
  has_priceCanvas (call cl st) = has_priceCanvas st
  /\ has_rsiCanvas (call cl st) = has_rsiCanvas st.
Proof.
  destruct cl as [[[d [p|] [i|]]|] symbol | [rsiData|] dates]; cbn [call];
    unfold initializePriceChart, initializeRSIChart;
    destruct (has_priceCanvas st) eqn:Ep, (has_rsiCanvas st) eqn:Er;
    destruct (priceChart st), (rsiChart st); simpl; by rewrite ?Ep, ?Er.
Qed.

Lemma run_canvases (cs : list Call) (st : State) :
  has_priceCanvas (run cs st) = has_priceCanvas st
  /\ has_rsiCanvas (run cs st) = has_rsiCanvas st.
Proof.
  revert st. induction cs as [|cl cs IH]; intros st; [done |]. simpl.
  destruct (IH (call cl st)) as [-> ->]. apply call_canvases.
Qed.

(** X12.  After any sequence of builder invocations on a page that starts
    without charts: if no invocation has thrown, every chart the window's
    resize listener resizes is a live chart; whether or not one has thrown,
    the RSI variable never names a destroyed chart, and the price variable
    names a live chart or a destroyed one, and then no live chart draws on
    the price canvas. *)
Theorem resize_reaches_live_charts (price rsi : bool) (cs : list Call) :
  let st := run cs (loaded price rsi) in
  (uncaught st = [] -> Forall (fun chart => is_live chart st) (on_resize st))
  /\ (forall k, rsiChart st = Some k -> is_live k st)
  /\ (forall k, priceChart st = Some k ->
      is_live k st \/ (~ is_live k st /\ live_on PriceCanvas st = [])).
Proof.
  intros st.
  destruct (run_healthy cs _ (loaded_healthy price rsi)) as (_ & _ & Hvars).
  fold st in Hvars.
  assert (H : forall c k, chart_of c st = Some k ->
                is_live k st
                \/ (~ is_live k st /\ live_on c st = [] /\ c = PriceCanvas
                    /\ uncaught st <> [])).
  { intros c k Hk. specialize (Hvars c). rewrite Hk in Hvars.
    destruct Hvars as [(i & Hi & Hid) | (Hnone & _ & Hdead & Hc & Herr)];
      [left | by right].
    exists i. split; [| done].
    assert (Hin : In i (live_on c st)) by (rewrite Hi; by left).
    by apply live_on_sub in Hin as [? _]. }
  split; [| split].
  - intros Hquiet. unfold on_resize, resizeChart. apply Forall_app. split.
    + destruct (priceChart st) as [k|] eqn:E; [| constructor].
      constructor; [| constructor].
      by destruct (H PriceCanvas k E) as [? | (_ & _ & _ & ?)].
    + destruct (rsiChart st) as [k|] eqn:E; [| constructor].
      constructor; [| constructor].
      by destruct (H RSICanvas k E) as [? | (_ & _ & _ & ?)].
  - intros k E. by destruct (H RSICanvas k E) as [? | (_ & _ & ? & _)].
  - intros k E. destruct (H PriceCanvas k E) as [? | (? & ? & _)];
      [by left | by right].
Qed.

(** X13.  After any sequence of builder invocations on a page that starts
    without charts, invoking one builder, whatever its arguments, leaves
    the live chart of the other canvas, and the variable that names it, as
    they are. *)
Theorem builders_do_not_interfere (price rsi : bool) (cs : list Call) (cl : Call) :
  let st := run cs (loaded price rsi) in
  let other := match cl with
               | PriceCall _ _ => RSICanvas
               | RSICall _ _ => PriceCanvas
               end in
  live_on other (call cl st) = live_on other st
  /\ chart_of other (call cl st) = chart_of other st.
Proof.
  intros st other.
  pose proof (run_healthy cs _ (loaded_healthy price rsi)) as Hst.
  fold st in Hst.
  assert (Hc : other <> canvas_of cl) by (by destruct cl).
  destruct (call_shape cl st)
    as [-> | [(cfg & _ & Hother & Hlive & _)
             | (Hcl & Hsame & Hlive & _)]]; [done | |].
  - split; [| by apply Hother].
    rewrite (call_live_on cl other cfg st Hlive).
    case_decide; [done |]. by rewrite app_nil_r, survives_other.
  - split; [| apply Hsame]. unfold live_on.
    rewrite Hlive, surviving_live_on.
    rewrite Hcl in Hc.
    pose proof (survives_other PriceCanvas other st Hst Hc) as Hkeep.
    exact Hkeep.
Qed.

(** X24.  A rebuild of the price chart that throws leaves the page with a
    chart variable that names a destroyed chart.  After any sequence of builder
    invocations on a page with a price canvas, when the price variable
    holds a chart and the price builder is invoked with an argument that
    lacks [prices] or [indicators], the chart is destroyed, nothing is
    constructed, and the window's resize listener still calls [resize()]
    on it. *)
Theorem failed_rebuild_keeps_destroyed_chart (rsi : bool) (cs : list Call)
    (payload : Payload) (symbol : string) (k : nat) :
  let st := run cs (loaded true rsi) in
  priceChart st = Some k -> is_complete payload = false ->
  let st' := initializePriceChart (Some payload) symbol st in
  ops st' = ops st ++ [Destroy k]
  /\ live_on PriceCanvas st' = []
  /\ ~ is_live k st'
  /\ In k (on_resize st')
  /\ uncaught st' <> [].
Proof.
  intros st Hk Hc st'.
  assert (Hctx : has_priceCanvas st = true) by apply run_canvases.
  pose proof (run_healthy cs _ (loaded_healthy true rsi)) as Hst.
  fold st in Hst.
  destruct (initializePriceChart_throws payload symbol st Hctx Hc)
    as (Hvar & Hlive & Hops & _ & _ & error & Herr).
  fold st' in Hvar, Hlive, Hops, Herr. rewrite Hk in *.
  split; [exact Hops |]. split; [| split; [| split]].
  - unfold live_on. rewrite Hlive.
    change (List.filter (on PriceCanvas) (surviving (Some k) (live st)) = []).
    rewrite surviving_live_on.
    pose proof (destroys_own PriceCanvas st Hst) as Hgone.
    simpl in Hgone. by rewrite Hk in Hgone.
  - intros (i & Hi & Hid). rewrite Hlive in Hi.
    change (In i (surviving (Some k) (live st))) in Hi.
    apply surviving_sub in Hi as [_ Hi]. congruence.
  - unfold on_resize. rewrite Hvar. by left.
  - rewrite Herr. by destruct (uncaught st).
Qed.

Lemma failed_rebuild_keeps_destroyed_chart_witness :
  let chartData := {| dates := ["2024-01-01"]%string;
                      prices := {| close := [100]%Z; volume := None |};
                      indicators := ∅ |} in
  let payload := {| payload_dates := ["2024-01-02"]%string;
                    payload_prices := Some {| close := [101]%Z; volume := None |};
                    payload_indicators := None |} in
  let st := run [PriceCall (Some (complete chartData)) "TCS.NS"]
              (loaded true true) in
  let st' := initializePriceChart (Some payload) "TCS.NS" st in
  ops st' = ops st ++ [Destroy 0]
  /\ live_on PriceCanvas st' = []
  /\ ~ is_live 0 st'
  /\ In 0 (on_resize st')
  /\ uncaught st' <> [].
Proof.
  intros chartData payload st st'.
  apply (failed_rebuild_keeps_destroyed_chart true
           [PriceCall (Some (complete chartData)) "TCS.NS"] payload "TCS.NS" 0);
    reflexivity.
Defined.

(** X14.  Whatever the payload, the datasets of the price chart start with
    the close price; the two band datasets come together, exactly when the
    upper band has values, whether or not the lower band has any; and the
    volume dataset is the only one on the secondary axis, present exactly
    when the volume array has values. *)
Theorem price_datasets_layout (chartData : ChartData) :
  let sets := price_datasets chartData in
  head (map label sets) = Some "Close Price"%string
  /\ (In "BB Upper"%string (map label sets)
      <-> available chartData "bb_upper" = true)
  /\ (In "BB Lower"%string (map label sets)
      <-> available chartData "bb_upper" = true)
  /\ (In "Volume"%string (map label sets)
      <-> exists x v, volume (prices chartData) = Some (x :: v))
  /\ Forall (fun d => yAxisID d = "y1"%string <-> label d = "Volume"%string) sets.
Proof.
  unfold price_datasets, overlay.
  destruct (available chartData "ema_9"), (available chartData "ema_21"),
    (available chartData "sma_50"), (available chartData "sma_200"),
    (available chartData "bb_upper"),
    (volume (prices chartData)) as [[|x v]|];
    cbn [app map label head];
    (split; [reflexivity |]);
    (split; [simpl; intuition discriminate |]);
    (split; [simpl; intuition discriminate |]);
    (split; [simpl; split;
             [intros H; decompose [or] H; try discriminate; try contradiction;
              eauto
             | intros (? & ? & ?); try discriminate; tauto]
            |]);
    repeat (apply List.Forall_cons;
            [simpl; split; intros; first [discriminate | reflexivity] |]);
    apply List.Forall_nil.
Qed.

(** The datasets of an updated chart, one by one. *)
Lemma updateChart_lookup (chart : ChartObject) (newData : NewData) (i : nat) :
  exists chart',
    updateChart (Some chart) (Some newData) = Some chart'
    /\ chart_datasets chart' !! i
       = (fun dataset =>
            match entry_at newData i with
            | Some d => {| label := label dataset; data := data d;
                           yAxisID := yAxisID dataset |}
            | None => dataset
            end) <$> chart_datasets chart !! i.
Proof. eexists. split; [reflexivity |]. simpl. by rewrite list_lookup_imap. Qed.

(** X15.  [updateChart] keeps the number of datasets, their labels and
    their axes, whatever the new data holds; a dataset for which the new
    data has no entry keeps its values; and applying the same new data a
    second time changes no label and no dataset. *)
Theorem updateChart_keeps_shape (chart : ChartObject) (newData : NewData) :
  exists chart',
    updateChart (Some chart) (Some newData) = Some chart'
    /\ map label (chart_datasets chart') = map label (chart_datasets chart)
    /\ map yAxisID (chart_datasets chart') = map yAxisID (chart_datasets chart)
    /\ (forall i, entry_at newData i = None ->
         chart_datasets chart' !! i = chart_datasets chart !! i)
    /\ exists chart'',
         updateChart (Some chart') (Some newData) = Some chart''
         /\ chart_labels chart'' = chart_labels chart'
         /\ chart_datasets chart'' = chart_datasets chart'.
Proof.
  eexists. split; [reflexivity |]. simpl.
  assert (Hmap : forall (g : Dataset -> string),
             (forall dataset d,
                 g {| label := label dataset; data := data d;
                      yAxisID := yAxisID dataset |} = g dataset) ->
             map g (imap (fun index dataset =>
                            match entry_at newData index with
                            | Some d => {| label := label dataset; data := data d;
                                           yAxisID := yAxisID dataset |}
                            | None => dataset
                            end) (chart_datasets chart))
             = map g (chart_datasets chart)).
  { intros g Hg. apply list_eq. intros i.
    rewrite !list_lookup_fmap, list_lookup_imap.
    destruct (chart_datasets chart !! i) as [dataset|]; simpl; [| done].
    destruct (entry_at newData i); by rewrite ?Hg. }
  split; [by apply Hmap |]. split; [by apply Hmap |]. split.
  - intros i Hi. rewrite list_lookup_imap, Hi.
    by destruct (chart_datasets chart !! i).
  - eexists. split; [reflexivity |]. simpl. split; [done |].
    apply list_eq. intros i. rewrite !list_lookup_imap.
    destruct (chart_datasets chart !! i) as [dataset|]; simpl; [| done].
    by destruct (entry_at newData i).
Qed.

End ChartToolFacts.

(** ** Number formatting *)

Module FormatFacts.
Import Format StrFacts.

Example formatNumber_thousands :
  Format.formatNumber 1234567 = "1,234,567"%string.
Proof. reflexivity. Qed.

Example with_commas_fraction :
  with_commas "1234.5678" = "1,234.5,678"%string.
Proof. reflexivity. Qed.

Lemma no_digit_ahead_spec (r : string) :
  no_digit_ahead r = (leading_digits r =? 0).
Proof. destruct r as [|c r]; simpl; [done |]. by destruct (isDigit c). Qed.

Lemma block_start_next (d : nat) :
  block_start (S (S (S (S d)))) = block_start (S d).
Proof.
  unfold block_start. f_equal.
  replace (S (S (S (S d)))) with (S d + 1 * 3) by lia.
  by rewrite Nat.Div0.mod_add.
Qed.

Lemma digit_groups_spec (n : nat) (r : string) :
  leading_digits r <= 3 * n ->
  digit_groups n r = block_start (leading_digits r).
Proof.
  revert r. induction n as [|n IH]; intros r Hle.
  - assert (leading_digits r = 0) as -> by lia. reflexivity.
  - destruct r as [|a [|b [|c r']]]; cbn [digit_groups leading_digits].
    + reflexivity.
    + by destruct (isDigit a).
    + by destruct (isDigit a), (isDigit b).
    + cbn [leading_digits] in Hle.
      destruct (isDigit a); [| reflexivity].
      destruct (isDigit b); [| reflexivity].
      destruct (isDigit c); [| reflexivity].
      cbn [andb]. rewrite no_digit_ahead_spec, IH by lia.
      destruct (leading_digits r') as [|d]; [reflexivity |].
      by rewrite block_start_next.
Qed.

Lemma leading_digits_le (s : string) : leading_digits s <= String.length s.
Proof.
  induction s as [|c r IH]; simpl; [lia |]. destruct (isDigit c); lia.
Qed.

Lemma lookahead_spec (s : string) :
  lookahead s = block_start (leading_digits s).
Proof.
  unfold lookahead. apply digit_groups_spec.
  pose proof (leading_digits_le s). lia.
Qed.

Lemma leading_digits_app (r rest : string) :
  all_digits r = true -> no_digit_ahead rest = true ->
  leading_digits (r +:+ rest) = String.length r.
Proof.
  intros Hr Hrest. induction r as [|c r IH]; simpl.
  - rewrite no_digit_ahead_spec in Hrest. by apply Nat.eqb_eq in Hrest.
  - simpl in Hr. apply andb_true_iff in Hr as [-> Hr]. by rewrite IH.
Qed.

Lemma isDigit_isWord (c : ascii) : isDigit c = true -> isWord c = true.
Proof. intros H. unfold isWord. by rewrite H. Qed.

(** The commas put into a run of digits that follows a digit and is not
    followed by a digit. *)
Lemma commas_in_digits (r : string) (c : ascii) (rest : string) :
  isDigit c = true -> all_digits r = true -> no_digit_ahead rest = true ->
  commas_from (Some c) (r +:+ rest)
  = ((if block_start (String.length r) then ","%string else EmptyString)
     +:+ grouped r)
    +:+ commas_from (Some (last_char c r)) rest.
Proof.
  revert c. induction r as [|x r IH]; intros c Hc Hr Hrest; [reflexivity |].
  pose proof Hr as Hxr. simpl in Hr. apply andb_true_iff in Hr as [Hx Hr].
  change (String x r +:+ rest) with (String x (r +:+ rest)).
  cbn [commas_from first_char].
  rewrite lookahead_spec.
  change (String x (r +:+ rest)) with (String x r +:+ rest).
  rewrite (leading_digits_app (String x r) rest Hxr Hrest).
  unfold not_boundary. cbn [word].
  rewrite (isDigit_isWord c Hc), (isDigit_isWord x Hx). cbn [Bool.eqb andb].
  rewrite (IH x Hx Hr Hrest).
  etransitivity; [| symmetry; apply append_assoc]. reflexivity.
Qed.

Lemma commas_at_end (prev : option ascii) : commas_from prev "" = EmptyString.
Proof. simpl. by rewrite andb_false_r. Qed.

(** The commas put into a run of digits that follows no word character. *)
Lemma commas_fresh (prev : option ascii) (s : string) :
  word prev = false -> all_digits s = true -> commas_from prev s = grouped s.
Proof.
  intros Hprev Hd. destruct s as [|c r]; [apply commas_at_end |].
  simpl in Hd. apply andb_true_iff in Hd as [Hc Hr].
  cbn [commas_from first_char].
  unfold not_boundary. cbn [word]. rewrite Hprev, (isDigit_isWord c Hc).
  cbn [Bool.eqb andb grouped].
  change ("" +:+ String c (commas_from (Some c) r))
    with (String c (commas_from (Some c) r)).
  f_equal. rewrite <- (append_empty r) at 1.
  rewrite (commas_in_digits r c "" Hc Hr eq_refl), commas_at_end.
  apply append_empty.
Qed.

(** X16.  In a text of decimal digits, the replacement of [formatNumber]
    puts a comma exactly in front of every group of three digits counted
    from the end of the text, and none in front of the text. *)
Theorem digits_grouped_in_threes (text : string) :
  all_digits text = true -> with_commas text = grouped text.
Proof. by apply commas_fresh. Qed.

Lemma digits_grouped_in_threes_witness :
  with_commas "1234567" = "1,234,567"%string.
Proof. apply (digits_grouped_in_threes "1234567"). reflexivity. Defined.

Lemma last_char_digit (c : ascii) (r : string) :
  isDigit c = true -> all_digits r = true -> isDigit (last_char c r) = true.
Proof.
  revert c. induction r as [|x r IH]; intros c Hc Hr; [done |].
  simpl in Hr. apply andb_true_iff in Hr as [Hx Hr]. by apply IH.
Qed.

(** X19.  In a text made of digits, a point and digits, the digits before
    the point and the digits after it are grouped each from their own end,
    so that a fraction of four digits or more receives commas as well; and
    a minus sign in front of the digits stays in front, with no comma after
    it. *)
Theorem parts_grouped_apart (a b : string) :
  all_digits a = true -> a <> EmptyString -> all_digits b = true ->
  with_commas (a +:+ "." +:+ b) = grouped a +:+ "." +:+ grouped b
  /\ with_commas ("-" +:+ a) = "-" +:+ grouped a.
Proof.
  intros Ha Hne Hb. split.
  - destruct a as [|c r]; [done |]. clear Hne.
    pose proof Ha as Hcr. simpl in Ha. apply andb_true_iff in Ha as [Hc Hr].
    unfold with_commas.
    change (String c r +:+ "." +:+ b) with (String c (r +:+ "." +:+ b)).
    cbn [commas_from first_char].
    unfold not_boundary at 1. cbn [word]. rewrite (isDigit_isWord c Hc).
    cbn [Bool.eqb andb].
    rewrite (commas_in_digits r c ("." +:+ b) Hc Hr eq_refl).
    change ("." +:+ b) with (String "." b).
    cbn [commas_from first_char].
    unfold not_boundary. cbn [word].
    rewrite (isDigit_isWord _ (last_char_digit c r Hc Hr)).
    cbn [Bool.eqb andb].
    rewrite (commas_fresh (Some "."%char) b eq_refl Hb).
    change (grouped (String c r))
      with (String c ((if block_start (String.length r) then ","%string
                       else EmptyString) +:+ grouped r)).
    change ("" +:+ String "." (grouped b)) with (String "." (grouped b)).
    change ("" +:+ String c ?x) with (String c x).
    etransitivity; [| symmetry; apply append_assoc with (a := String c EmptyString)].
    reflexivity.
  - unfold with_commas. change ("-" +:+ a) with (String "-" a).
    cbn [commas_from first_char].
    rewrite lookahead_spec, (commas_fresh (Some "-"%char) a eq_refl Ha).
    reflexivity.
Qed.

Lemma parts_grouped_apart_witness :
  with_commas "45.12345" = "45.12,345"%string
  /\ with_commas "-1234" = "-1,234"%string.
Proof.
  destruct (parts_grouped_apart "1234" "") as [_ Hsign];
    [reflexivity | discriminate | reflexivity |].
  destruct (parts_grouped_apart "45" "12345") as [Hpoint _];
    [reflexivity | discriminate | reflexivity |].
  split; [exact Hpoint | exact Hsign].
Defined.

Lemma strip_app (a b : string) :
  strip_commas (a +:+ b) = strip_commas a +:+ strip_commas b.
Proof.
  induction a as [|c a IH]; simpl; [done |].
  destruct (Ascii.eqb c ","); simpl; by rewrite IH.
Qed.

Lemma strip_commas_from (prev : option ascii) (s : string) :
  comma_free s = true -> strip_commas (commas_from prev s) = s.
Proof.
  revert prev. induction s as [|c r IH]; intros prev Hs.
  - simpl. by destruct (_ && _).
  - simpl in Hs. apply andb_true_iff in Hs as [Hc Hr].
    apply negb_true_iff in Hc. cbn [commas_from].
    rewrite strip_app. cbn [strip_commas]. rewrite Hc, (IH _ Hr).
    by destruct (_ && _).
Qed.

(** X17.  Taking the commas out of what the replacement of [formatNumber]
    returns gives back the text it was given, for every text that holds no
    comma: the replacement adds commas and changes nothing else. *)
Theorem commas_only_added (text : string) :
  comma_free text = true -> strip_commas (with_commas text) = text.
Proof. apply strip_commas_from. Qed.

Lemma commas_only_added_witness :
  strip_commas (with_commas "Vol 1234567.8901")
  = "Vol 1234567.8901"%string.
Proof. apply (commas_only_added "Vol 1234567.8901"). reflexivity. Defined.

Lemma all_digits_comma_free (s : string) :
  all_digits s = true -> comma_free s = true.
Proof.
  induction s as [|c r IH]; simpl; [done |].
  intros [Hc Hr]%andb_true_iff. rewrite (IH Hr), andb_true_r.
  destruct (Ascii.eqb c ",") eqn:E; [| done].
  apply Ascii.eqb_eq in E. by subst c.
Qed.

Lemma size_safe (n : N) : (n < 2 ^ 53)%N -> binary_exponent n = 0%N.
Proof.
  intros Hn. unfold binary_exponent.
  destruct (N.le_gt_cases (N.size n) 53) as [H | H]; [lia |].
  assert (H54 : (2 ^ 54 <= 2 ^ N.size n)%N) by (apply N.pow_le_mono_r; lia).
  pose proof (N.size_le n) as Hle. rewrite N.succ_double_spec in Hle.
  change (2 ^ 54)%N with (2 * 2 ^ 53)%N in H54. lia.
Qed.

Lemma number_value_safe (n : N) : (n < 2 ^ 53)%N -> number_value n = Some n.
Proof.
  intros Hn. unfold number_value. cbv zeta. rewrite (size_safe n Hn).
  rewrite !N.shiftr_0_r, !N.shiftl_0_r, N.sub_diag.
  change (2 ^ 0 <? 2 * 0)%N with false. change (2 * 0 =? 2 ^ 0)%N with false.
  cbn [orb andb].
  destruct (N.leb_spec (2 ^ 1024) n) as [H | H]; [| done].
  assert (2 ^ 53 <= 2 ^ 1024)%N by (apply N.pow_le_mono_r; lia). lia.
Qed.

Lemma number_value_large (v y : N) :
  (2 ^ 53 <= v)%N -> number_value v = Some y -> (2 ^ 53 <= y)%N.
Proof.
  intros Hv. unfold number_value, binary_exponent. cbv zeta.
  assert (Hsize : (54 <= N.size v)%N).
  { destruct (N.le_gt_cases 54 (N.size v)) as [H | H]; [done |].
    assert (2 ^ N.size v <= 2 ^ 53)%N by (apply N.pow_le_mono_r; lia).
    pose proof (N.size_gt v). lia. }
  set (e := (N.size v - 53)%N).
  assert (He : (N.size v = e + 53)%N) by lia.
  assert (Hpow : (2 ^ (e + 52) <= v)%N).
  { pose proof (N.size_le v) as Hle. rewrite N.succ_double_spec, He in Hle.
    replace (e + 53)%N with (N.succ (e + 52)) in Hle by lia.
    rewrite N.pow_succ_r' in Hle. lia. }
  assert (Hpos : (2 ^ e <> 0)%N) by (apply N.pow_nonzero; lia).
  assert (Hq : (2 ^ 52 <= N.shiftr v e)%N).
  { rewrite N.shiftr_div_pow2. apply N.div_le_lower_bound; [done |].
    rewrite <- N.pow_add_r. done. }
  assert (He2 : (2 <= 2 ^ e)%N).
  { change 2%N with (2 ^ 1)%N at 1. apply N.pow_le_mono_r; lia. }
  set (q := N.shiftr v e) in *.
  match goal with |- context [N.shiftl ?a e] =>
    assert (Hy : (2 ^ 53 <= N.shiftl a e)%N) end.
  { rewrite N.shiftl_mul_pow2.
    change (2 ^ 53)%N with (2 ^ 52 * 2)%N.
    apply N.mul_le_mono; [| done]. destruct (_ || _); lia. }
  destruct (_ <=? _)%N; [done |]. intros [= <-]. exact Hy.
Qed.

Lemma rounds_to_safe (x v : N) :
  (x < 2 ^ 53)%N -> rounds_to x v = true -> v = x.
Proof.
  intros Hx. unfold rounds_to.
  destruct (N.lt_ge_cases v (2 ^ 53)) as [Hv | Hv].
  - rewrite (number_value_safe v Hv). by intros ?%N.eqb_eq.
  - destruct (number_value v) as [y|] eqn:E; [| done].
    intros <-%N.eqb_eq. pose proof (number_value_large v y Hv E). lia.
Qed.

Lemma nearest_rounds (x p v : N) : nearest x p = Some v -> rounds_to x v = true.
Proof.
  unfold nearest.
  destruct (rounds_to x (x / p * p)) eqn:Eb,
    (rounds_to x (x / p * p + p)) eqn:Ea; try discriminate;
    try destruct (_ || _); by intros [= <-].
Qed.

Lemma shortest_safe (j : nat) (x : N) : (x < 2 ^ 53)%N -> shortest j x = x.
Proof.
  intros Hx. induction j as [|j IH]; simpl;
    destruct (nearest x _) as [v|] eqn:E; try done;
    by apply nearest_rounds, rounds_to_safe in E.
Qed.

(** Up to 2^53 the text of a whole number is its decimal digits. *)
Lemma toString_safe (num : N) : (num < 2 ^ 53)%N -> toString num = decimal num.
Proof.
  intros Hn. unfold toString.
  rewrite (number_value_safe num Hn), (shortest_safe _ num Hn).
  destruct (N.ltb_spec num (10 ^ 21)) as [H | H]; [done |].
  assert (2 ^ 53 <= 10 ^ 21)%N by (by vm_compute). lia.
Qed.

Lemma uint_digits (u : Decimal.uint) :
  all_digits (DecimalString.NilEmpty.string_of_uint u) = true.
Proof. induction u; simpl; done. Qed.

Lemma decimal_digits (n : N) : all_digits (decimal n) = true.
Proof.
  unfold decimal, DecimalString.NilZero.string_of_uint.
  destruct (N.to_uint n); try apply uint_digits. reflexivity.
Qed.

Lemma digits_numeric (s : string) : all_digits s = true -> all_numeric s = true.
Proof.
  induction s as [|c r IH]; simpl; [done |].
  intros [Hc Hr]%andb_true_iff. unfold numeric. by rewrite Hc, IH.
Qed.

Lemma all_numeric_app (a b : string) :
  all_numeric (a +:+ b) = all_numeric a && all_numeric b.
Proof.
  induction a as [|c a IH]; [done |].
  change (String c a +:+ b) with (String c (a +:+ b)). simpl.
  by rewrite IH, andb_assoc.
Qed.

Lemma significant_digits (s : string) :
  all_digits s = true -> all_digits (significant s) = true.
Proof.
  induction s as [|c r IH]; simpl; [done |].
  intros [Hc Hr]%andb_true_iff. specialize (IH Hr).
  destruct (significant r) as [|c' r'].
  - destruct (Ascii.eqb c "0"); simpl; by rewrite ?Hc.
  - simpl in *. by rewrite Hc, IH.
Qed.

(** The text of a whole number is made of digits and of the characters of
    the exponent notation and of [Infinity]. *)
Lemma toString_numeric (num : N) : all_numeric (toString num) = true.
Proof.
  unfold toString. destruct (number_value num) as [x|]; [| reflexivity].
  set (v := shortest _ x). cbv zeta.
  destruct (v <? 10 ^ 21)%N; [apply digits_numeric, decimal_digits |].
  pose proof (significant_digits _ (decimal_digits v)) as Hs.
  destruct (significant (decimal v)) as [|d rest];
    [apply digits_numeric, decimal_digits |].
  simpl in Hs. apply andb_true_iff in Hs as [Hd Hrest].
  assert (Hexp : forall n, all_numeric ("e+" +:+ decimal n) = true).
  { intros n. rewrite all_numeric_app, (digits_numeric _ (decimal_digits n)).
    reflexivity. }
  assert (Hnd : numeric d = true) by (unfold numeric; by rewrite Hd).
  destruct rest as [|c rest].
  - cbn [all_numeric]. by rewrite Hnd, Hexp.
  - cbn [all_numeric]. rewrite Hnd.
    rewrite 2!all_numeric_app, Hexp, (digits_numeric _ Hrest). reflexivity.
Qed.

Lemma numeric_comma_free (s : string) :
  all_numeric s = true -> comma_free s = true.
Proof.
  induction s as [|c r IH]; simpl; [done |].
  intros [Hc Hr]%andb_true_iff. rewrite (IH Hr), andb_true_r.
  destruct (Ascii.eqb c ",") eqn:E; [| done].
  apply Ascii.eqb_eq in E. by subst c.
Qed.

Lemma not_numeric_with_unit (t : string) (unit : ascii) :
  numeric unit = false -> all_numeric (t +:+ String unit "") = false.
Proof.
  intros Hu. rewrite all_numeric_app. simpl. rewrite Hu. apply andb_false_r.
Qed.

Lemma toString_comma_free (num : N) : comma_free (toString num) = true.
Proof. apply numeric_comma_free, toString_numeric. Qed.

(** X18.  For every whole number up to 2^53, [formatNumber] as first
    declared returns the number's decimal digits in groups of three counted
    from the end, and nothing but commas is added to them. *)
Theorem formatNumber_groups (num : N) :
  (num <= 2 ^ 53)%N ->
  toString num = decimal num
  /\ Format.formatNumber num = grouped (decimal num)
  /\ strip_commas (Format.formatNumber num) = decimal num.
Proof.
  intros Hn.
  assert (Ht : toString num = decimal num).
  { destruct (N.eq_dec num (2 ^ 53)%N) as [-> | Hne]; [by vm_compute |].
    apply toString_safe. lia. }
  pose proof (decimal_digits num) as Hd. unfold Format.formatNumber.
  rewrite Ht. split; [done |]. split.
  - by apply commas_fresh.
  - by apply strip_commas_from, all_digits_comma_free.
Qed.

Lemma formatNumber_groups_witness :
  (1234567 <= 2 ^ 53)%N
  /\ toString 1234567 = "1234567"%string
  /\ Format.formatNumber 1234567 = "1,234,567"%string.
Proof.
  split; [by vm_compute |].
  destruct (formatNumber_groups 1234567) as (Ht & Hg & _); [by vm_compute |].
  split; [exact Ht | exact Hg].
Defined.

(** Beyond 2^53 the digits are those of the Number value, and from 10^21 on
    the text is in exponent notation, in which the expression still finds
    places for commas. *)
Example formatNumber_large :
  Format.formatNumber (2 ^ 60) = "1,152,921,504,606,847,000"%string
  /\ Format.formatNumber (2 ^ 53 + 1) = "9,007,199,254,740,992"%string
  /\ Format.formatNumber (10 ^ 21) = "1e+21"%string
  /\ Format.formatNumber 123456789012345678901234567890
     = "1.2,345,678,901,234,568e+29"%string
  /\ Format.formatNumber (2 ^ 1024) = "Infinity"%string.
Proof. repeat split; by vm_compute. Qed.

Lemma below_1000_plain :
  forallb (fun n => String.eqb (with_commas (decimal (N.of_nat n)))
                      (decimal (N.of_nat n)))
    (seq 0 1000) = true.
Proof. vm_compute. reflexivity. Qed.

Lemma with_commas_small (num : N) :
  (num < 1000)%N -> with_commas (toString num) = toString num.
Proof.
  intros H. rewrite toString_safe by (change (2 ^ 53)%N with 9007199254740992%N; lia).
  apply String.eqb_eq. rewrite <- (N2Nat.id num).
  apply (proj1 (forallb_forall _ _) below_1000_plain (N.to_nat num)).
  apply in_seq. lia.
Qed.

Lemma unit_differs (t : string) (unit : ascii) (num : N) :
  numeric unit = false -> Ascii.eqb unit "," = false ->
  t +:+ String unit "" <> Format.formatNumber num.
Proof.
  intros Hu Hc Heq. apply (f_equal strip_commas) in Heq.
  unfold Format.formatNumber, with_commas in Heq.
  rewrite strip_app, strip_commas_from in Heq by apply toString_comma_free.
  simpl in Heq. rewrite Hc in Heq.
  pose proof (toString_numeric num) as Hd. rewrite <- Heq in Hd.
  by rewrite not_numeric_with_unit in Hd.
Qed.

(** X22.  The two declarations of [formatNumber] return the same text for
    exactly the whole numbers below 1000, whatever the rounding of
    [toFixed] does; and for those numbers the text is the number's decimal
    digits with no comma, so that the later declaration never puts a comma
    into a whole number. *)
Theorem declarations_agree_below_1000 (toFixed1 : N -> N -> string)
    (num : N) :
  (ChartFormat.formatNumber toFixed1 num = Format.formatNumber num
   <-> (num < 1000)%N)
  /\ ((num < 1000)%N -> ChartFormat.formatNumber toFixed1 num = toString num).
Proof.
  unfold ChartFormat.formatNumber.
  destruct (1000000 <=? num)%N eqn:E6; [apply N.leb_le in E6 |].
  - split; [| lia]. split; [| lia]. intros Heq.
    by apply unit_differs in Heq.
  - apply N.leb_gt in E6.
    destruct (1000 <=? num)%N eqn:E3; [apply N.leb_le in E3 |].
    + split; [| lia]. split; [| lia]. intros Heq.
      by apply unit_differs in Heq.
    + apply N.leb_gt in E3. split; [done |]. intros _.
      by apply with_commas_small.
Qed.

End FormatFacts.

(** ** Alert banners *)

Module BannerFacts.
Import Banner.

Lemma filter_twice {A : Type} (p q : A -> bool) (l : list A) :
  List.filter p (List.filter q l) = List.filter (fun n => q n && p n) l.
Proof.
  induction l as [|n l IH]; simpl; [done |].
  destruct (q n); simpl; [| done]. destruct (p n); by rewrite IH.
Qed.

Lemma filter_empty {A : Type} (p : A -> bool) (l : list A) :
  (forall n, In n l -> p n = false) -> List.filter p l = [].
Proof.
  induction l as [|n l IH]; intros H; simpl; [done |].
  rewrite (H n) by (by left). apply IH. intros m Hm. apply H. by right.
Qed.

Lemma filter_all {A : Type} (l : list A) :
  List.filter (fun _ => true) l = l.
Proof. induction l as [|n l IH]; simpl; [done | by f_equal]. Qed.

Lemma fire_spec (due : list Timer) (st : State) :
  let st' := fold_left (fun st t => remove (target t) st) due st in
  main st'
  = option_map
      (List.filter (fun n => forallb (fun t => negb (is_box (target t) n)) due))
      (main st)
  /\ timers st' = timers st /\ boxes st' = boxes st /\ now st' = now st
  /\ console st' = console st.
Proof.
  revert st. induction due as [|t due IH]; intros st; simpl.
  - repeat split. destruct (main st) as [l|]; simpl; [| done].
    by rewrite filter_all.
  - destruct (IH (remove (target t) st)) as (Hm & Ht & Hb & Hn & Hc).
    simpl in *. rewrite Hm, Ht, Hb, Hn, Hc. repeat split.
    destruct (main st) as [l|]; simpl; [| done].
    by rewrite filter_twice.
Qed.

Lemma filter_served (p : Node -> bool) (l : list nat) :
  (forall n, p (Served n) = true) ->
  List.filter p (map Served l) = map Served l.
Proof.
  intros Hp. induction l as [|n l IH]; simpl; [done |].
  by rewrite Hp, IH.
Qed.

Lemma served_stays (n : nat) (due : list Timer) :
  forallb (fun t => negb (is_box (target t) (Served n))) due = true.
Proof. by induction due. Qed.

Lemma expiring_more (st st' : State) (n : Node) :
  (forall t, In t (timers st) -> In t (timers st')) ->
  now st <= now st' ->
  expiring st n -> expiring st' n.
Proof.
  intros Ht Hn (box & m & ty & d & -> & Hin & Hd).
  exists box, m, ty, d. repeat split; [by apply Ht | lia].
Qed.

Lemma showAlert_over (content : option (list nat)) (bs : list Node)
  (message type : string) (st : State) :
  banners_over content bs st ->
  exists bs', banners_over content bs' (showAlert message type st).
Proof.
  intros [Hm Hall].
  assert (Hold : Forall (expiring (showAlert message type st)) bs).
  { eapply List.Forall_impl; [| exact Hall]. intros n.
    apply expiring_more; simpl; [| lia].
    intros t Hin. apply in_or_app. by left. }
  assert (Hnew : expiring (showAlert message type st)
                   (AlertBox (boxes st) message type)).
  { exists (boxes st), message, type, (now st + 5000). simpl.
    repeat split; [| lia]. apply in_or_app. right. by left. }
  unfold banners_over. simpl. rewrite Hm.
  destruct content as [l|]; simpl.
  - destruct (bs ++ map Served l) as [|f r] eqn:E.
    + exists bs. by rewrite E.
    + exists (AlertBox (boxes st) message type :: bs). simpl. rewrite E.
      split; [done |]. by apply List.Forall_cons.
  - by exists bs.
Qed.

Lemma remove_over (content : option (list nat)) (bs : list Node)
  (box : nat) (st : State) :
  banners_over content bs st ->
  exists bs', banners_over content bs' (remove box st).
Proof.
  intros [Hm Hall].
  exists (List.filter (fun n => negb (is_box box n)) bs). split.
  - simpl. rewrite Hm. destruct content as [l|]; simpl; [| done].
    by rewrite List.filter_app, filter_served.
  - apply List.Forall_forall. intros n [Hin _]%filter_In.
    rewrite List.Forall_forall in Hall. by apply (Hall n Hin).
Qed.

Lemma advance_main (dt : nat) (st : State) :
  main (advance dt st)
  = option_map
      (List.filter (fun n =>
         forallb (fun t => negb (is_box (target t) n))
           (List.filter (is_due (now st + dt)) (timers st))))
      (main st)
  /\ timers (advance dt st)
     = List.filter (fun t => negb (is_due (now st + dt) t)) (timers st)
  /\ now (advance dt st) = now st + dt.
Proof.
  unfold advance.
  destruct (fire_spec (List.filter (is_due (now st + dt)) (timers st))
              {| main := main st;
                 timers := List.filter (fun t => negb (is_due (now st + dt) t))
                             (timers st);
                 boxes := boxes st; now := now st + dt;
                 console := console st |}) as (Hm & Ht & _ & Hn & _).
  simpl in *. by rewrite Hm, Ht, Hn.
Qed.

Lemma advance_over (content : option (list nat)) (bs : list Node)
  (dt : nat) (st : State) :
  banners_over content bs st ->
  exists bs', banners_over content bs' (advance dt st).
Proof.
  intros [Hm Hall].
  destruct (advance_main dt st) as (Em & Et & En).
  set (due := List.filter (is_due (now st + dt)) (timers st)) in *.
  exists (List.filter
            (fun n => forallb (fun t => negb (is_box (target t) n)) due) bs).
  split.
  - rewrite Em, Hm. destruct content as [l|]; simpl; [| done].
    rewrite List.filter_app, filter_served; [done |].
    intros n. apply served_stays.
  - apply List.Forall_forall. intros n [Hin Hkeep]%filter_In.
    rewrite List.Forall_forall in Hall.
    destruct (Hall n Hin) as (box & m & ty & d & -> & Ht & Hd).
    exists box, m, ty, d. rewrite Et, En. repeat split; [| lia].
    apply filter_In. split; [done |].
    destruct (is_due (now st + dt) {| deadline := d; target := box |}) eqn:E;
      [| done].
    assert (Hdue : In {| deadline := d; target := box |} due)
      by (apply filter_In; by split).
    rewrite forallb_forall in Hkeep. specialize (Hkeep _ Hdue).
    simpl in Hkeep. by rewrite Nat.eqb_refl in Hkeep.
Qed.

Lemma step_over (content : option (list nat)) (bs : list Node)
  (e : Event) (st : State) :
  banners_over content bs st ->
  exists bs', banners_over content bs' (step e st).
Proof.
  intros H. destruct e as [m ty | [|err] | box | dt]; simpl.
  - by eapply showAlert_over.
  - by eapply showAlert_over.
  - eapply showAlert_over with (bs := bs). destruct H as [Hm Hall].
    split; [done |]. eapply List.Forall_impl; [| exact Hall].
    intros n. by apply expiring_more.
  - by eapply remove_over.
  - by eapply advance_over.
Qed.

Lemma run_over (content : option (list nat)) (es : list Event) :
  forall (bs : list Node) (st : State),
    banners_over content bs st ->
    exists bs', banners_over content bs' (run es st).
Proof.
  induction es as [|e es IH]; intros bs st H; [by exists bs |].
  destruct (step_over content bs e st H) as [bs' H'].
  by apply (IH bs').
Qed.

Lemma run_snoc (es : list Event) (e : Event) (st : State) :
  run (es ++ [e]) st = step e (run es st).
Proof. unfold run. by rewrite fold_left_app. Qed.

(** X20.  Whatever alerts are shown, closed or timed out, [<main>] holds
    alert boxes only above the served nodes, which keep their place and
    order; and once five seconds pass, every box is gone and [<main>] is as
    it was served. *)
Theorem alerts_expire (content : option (list nat)) (es : list Event) :
  (exists bs,
      main (run es (served content))
      = option_map (fun l => bs ++ map Served l) content
      /\ Forall (fun n => exists box message type,
                           n = AlertBox box message type) bs)
  /\ main (run (es ++ [Wait 5000]) (served content)) = main (served content).
Proof.
  destruct (run_over content es [] (served content)) as [bs [Hm Hall]];
    [by split |].
  split.
  - exists bs. split; [done |]. eapply List.Forall_impl; [| exact Hall].
    intros n (box & m & ty & _ & -> & _). by exists box, m, ty.
  - rewrite run_snoc. cbn [step].
    set (st := run es (served content)) in *.
    destruct (advance_main 5000 st) as (Em & _).
    set (due := List.filter (is_due (now st + 5000)) (timers st)) in *.
    assert (Hbs : List.filter
                    (fun n => forallb (fun t => negb (is_box (target t) n)) due)
                    bs = []).
    { apply filter_empty. intros n Hin. rewrite List.Forall_forall in Hall.
      destruct (Hall n Hin) as (box & m & ty & d & -> & Ht & Hd).
      apply not_true_is_false. rewrite forallb_forall. intros Hkeep.
      assert (Hdue : In {| deadline := d; target := box |} due).
      { apply filter_In. split; [done |]. by apply Nat.leb_le. }
      specialize (Hkeep _ Hdue). simpl in Hkeep.
      by rewrite Nat.eqb_refl in Hkeep. }
    rewrite Em, Hm. destruct content as [l|]; simpl; [| done]. f_equal.
    rewrite List.filter_app, Hbs, filter_served; [done |].
    intros n. apply served_stays.
Qed.

Lemma step_bare (e : Event) (st : State) :
  main st = None \/ main st = Some [] -> main (step e st) = main st.
Proof.
  intros H. destruct e as [m ty | [|err] | box | dt]; simpl.
  - by destruct H as [-> | ->].
  - by destruct H as [-> | ->].
  - by destruct H as [-> | ->].
  - by destruct H as [-> | ->].
  - destruct (advance_main dt st) as (Em & _). rewrite Em.
    by destruct H as [-> | ->].
Qed.

(** X21.  On a page whose [<main>] is missing or has no child node, no
    alert is ever displayed: [<main>] stays as it is whatever is shown,
    copied, closed or timed out. *)
Theorem alert_needs_content (es : list Event) (st : State) :
  main st = None \/ main st = Some [] -> main (run es st) = main st.
Proof.
  revert st. induction es as [|e es IH]; intros st H; [done |].
  simpl. rewrite IH; [by apply step_bare |].
  rewrite (step_bare e st H). exact H.
Qed.

Lemma alert_needs_content_witness :
  main (run [ShowAlert "Please enter a stock symbol" "warning"; Wait 10;
             Copied Written]
          (served (Some [])))
  = Some [].
Proof.
  apply (alert_needs_content
           [ShowAlert "Please enter a stock symbol" "warning"; Wait 10;
            Copied Written]
           (served (Some []))).
  right. reflexivity.
Defined.

End BannerFacts.
